(** * RM4Health analytics: a shallow embedding of [analytics.py]

    The module [RM4HealthAnalytics] computes five summary documents over a
    list of schema-free records (Python dicts with string keys).  This file
    embeds the class in Rocq and states the properties of its specification
    against that embedding.

    Modelling choices, all of them about the Python interpreter and not about
    the repository's code:
    - a record is an insertion-ordered dict, kept as an association list;
    - a field value is [None], an [int], a [float] or a [str];
    - an [int] is unbounded, and [float] raises [OverflowError] on one that
      is beyond the range of a [float]; the properties that depend on the
      text of an [int] are stated for the ints that the interpreter prints
      (up to 4300 digits, [printable_records]);
    - a [float] is an exact rational (type [Q], kept reduced): rounding is
      outside the model, and the floats that a record holds are finite.
      The texts that [float] reads as [inf] or [nan] are recognised
      ([float_nonfinite]): where the code computes with such a score
      outside a handler, the exception is part of the model; the
      properties about converted values are stated for records without
      such a text ([finite_records]);
    - a [str] is a string of ASCII characters, so [str.isdigit] means
      "non-empty and made of '0'..'9'"; [ascii_text] tells such a string
      from one that holds other bytes;
    - a [pd.Timestamp] is an instant with or without a time zone; what
      [pd.to_datetime] reads in a value is a parameter;
    - record dicts live in a heap and are held by reference, so that the
      writes of the code ([d[k] = v], [list.append]) are visible as writes;
    - an exception is a result [Raise e] that propagates through [bind]. *)

From Stdlib Require Import List String Ascii ZArith QArith Bool Lia
  Permutation Arith.
Import ListNotations.
Set Warnings "-register-all".
Local Open Scope string_scope.
Local Open Scope list_scope.
Local Open Scope Z_scope.

(** ** Values *)

Inductive value : Type :=
| VNone
| VInt (z : Z)
| VFloat (q : Q)
| VStr (s : string).

(** Arithmetic of [float], on reduced rationals. *)
Definition fadd (a b : Q) : Q := Qred (a + b).
Definition fsub (a b : Q) : Q := Qred (a - b).
Definition fmul (a b : Q) : Q := Qred (a * b).
Definition fdiv (a b : Q) : Q := Qred (a / b).
Definition fofZ (z : Z) : Q := inject_Z z.
Definition fofnat (n : nat) : Q := inject_Z (Z.of_nat n).
Definition fgtb (a b : Q) : bool := negb (Qle_bool a b).
Definition fltb (a b : Q) : bool := negb (Qle_bool b a).
Definition fzero (a : Q) : bool := Qeq_bool a 0.

(** [bool(v)]: the truth value Python gives a scalar. *)
Definition truthy (v : value) : bool :=
  match v with
  | VNone => false
  | VInt z => negb (z =? 0)
  | VFloat q => negb (fzero q)
  | VStr s => negb (String.eqb s "")
  end.

(** [a == b] on scalars, which is also the equality of dict and set keys:
    an [int] and a [float] of the same magnitude are one key. *)
Definition value_eqb (a b : value) : bool :=
  match a, b with
  | VNone, VNone => true
  | VInt x, VInt y => x =? y
  | VInt x, VFloat q | VFloat q, VInt x => Qeq_bool (fofZ x) q
  | VFloat p, VFloat q => Qeq_bool p q
  | VStr s, VStr t => String.eqb s t
  | _, _ => false
  end.

(** ** Strings: [str.isdigit] and [float(str)] *)

Definition is_digit (c : ascii) : bool :=
  let n := nat_of_ascii c in (48 <=? n)%nat && (n <=? 57)%nat.

Definition digit_val (c : ascii) : Z := Z.of_nat (nat_of_ascii c) - 48.

Fixpoint all_digits (s : string) : bool :=
  match s with
  | EmptyString => true
  | String c r => is_digit c && all_digits r
  end.

Definition isdigit (s : string) : bool :=
  match s with
  | EmptyString => false
  | _ => all_digits s
  end.

(** [str(v).isdigit()].  The text of a [float] always holds a character that
    is not a digit ('.', 'e', or a letter), the text of a negative [int]
    starts with '-', and [str(None)] is ["None"]. *)
Definition str_isdigit (v : value) : bool :=
  match v with
  | VNone => false
  | VInt z => 0 <=? z
  | VFloat _ => false
  | VStr s => isdigit s
  end.

(** The characters that [float] takes for blanks: the space and the
    controls from tab to carriage return. *)
Definition is_space (c : ascii) : bool :=
  let n := nat_of_ascii c in
  (n =? 32)%nat || ((9 <=? n)%nat && (n <=? 13)%nat).

Fixpoint lstrip (s : string) : string :=
  match s with
  | String c r => if is_space c then lstrip r else s
  | EmptyString => EmptyString
  end.

Fixpoint rstrip (s : string) : string :=
  match s with
  | EmptyString => EmptyString
  | String c r =>
      match rstrip r with
      | EmptyString => if is_space c then EmptyString else String c EmptyString
      | r' => String c r'
      end
  end.

Definition strip (s : string) : string := rstrip (lstrip s).

Definition starts_with_digit (s : string) : bool :=
  match s with
  | String c _ => is_digit c
  | EmptyString => false
  end.

(** A run of decimal digits, read most significant first: the number read so
    far, how many digits were read, and the rest of the text.  One
    underscore may stand between two digits. *)
Fixpoint read_digits (s : string) (acc : Z) (n : nat) : Z * nat * string :=
  match s with
  | String c r =>
      if is_digit c then read_digits r (10 * acc + digit_val c) (S n)
      else if (Ascii.eqb c "_" && (0 <? n)%nat && starts_with_digit r)%bool
      then read_digits r acc n
      else (acc, n, s)
  | EmptyString => (acc, n, s)
  end.

Definition read_sign (s : string) : bool * string :=
  match s with
  | String "-"%char r => (true, r)
  | String "+"%char r => (false, r)
  | _ => (false, s)
  end.

Definition pow10 (e : Z) : Q :=
  if 0 <=? e then inject_Z (10 ^ e) else Qinv (inject_Z (10 ^ (- e))).

Definition read_exponent (s : string) : option (Z * string) :=
  match s with
  | String c r =>
      if (Ascii.eqb c "e" || Ascii.eqb c "E")%bool then
        let '(neg, r1) := read_sign r in
        let '(e, n, r2) := read_digits r1 0 0%nat in
        match n with
        | O => None
        | _ => Some (if neg then - e else e, r2)
        end
      else Some (0, s)
  | EmptyString => Some (0, s)
  end.

(** [float(s)] for a decimal literal: optional blanks around, an optional
    sign, digits with an optional fraction (at least one digit in all), an
    optional exponent.  [None] stands for [ValueError].  This is the
    reading of the texts that denote a finite [float]; the texts that
    [float] reads as [inf] or [nan] are told apart by [float_nonfinite]
    below. *)
Definition float_of_string (s : string) : option Q :=
  let '(neg, s1) := read_sign (strip s) in
  let '(ip, ni, s2) := read_digits s1 0 0%nat in
  let '(fp, nf, s3) :=
    match s2 with
    | String "."%char r => read_digits r 0 0%nat
    | _ => (0, 0%nat, s2)
    end in
  match (ni + nf)%nat with
  | O => None
  | _ =>
      match read_exponent s3 with
      | Some (e, EmptyString) =>
          let m := inject_Z (ip * 10 ^ Z.of_nat nf + fp) in
          let q := Qred (m * pow10 (e - Z.of_nat nf)) in
          Some (if neg then Qred (- q) else q)
      | _ => None
      end
  end.

(** [s.lower()] *)
Definition lower_char (c : ascii) : ascii :=
  let n := nat_of_ascii c in
  if ((65 <=? n)%nat && (n <=? 90)%nat)%bool then ascii_of_nat (n + 32) else c.

Fixpoint lower (s : string) : string :=
  match s with
  | EmptyString => EmptyString
  | String c r => String (lower_char c) (lower r)
  end.

(** The least magnitude that is out of the range of a [float]: the greatest
    double plus half a unit in its last place.  [float(n)] raises
    [OverflowError] for an [int] of this magnitude or more, and [float(s)]
    is [inf] for a decimal text of this magnitude or more. *)
Definition float_limit : Z := Eval vm_compute in (2 ^ 1024 - 2 ^ 970).

Inductive nonfinite : Type := Infinite | NotANumber.

(** The texts that [float] reads as [inf] or [nan]: the words "inf",
    "infinity" and "nan" in any case, with an optional sign and blanks
    around, and the decimal literals beyond the range of a [float]. *)
Definition float_nonfinite (s : string) : option nonfinite :=
  let word := lower (snd (read_sign (strip s))) in
  if String.eqb word "nan" then Some NotANumber
  else if (String.eqb word "inf" || String.eqb word "infinity")%bool
  then Some Infinite
  else
    match float_of_string s with
    | Some q =>
        if (Qle_bool (inject_Z float_limit) q ||
            Qle_bool q (inject_Z (- float_limit)))%bool
        then Some Infinite
        else None
    | None => None
    end.

(** ** Exceptions *)

Inductive exn : Type := TypeError | ValueError | OverflowError.

Inductive outcome (A : Type) : Type :=
| Ok (a : A)
| Raise (e : exn).
Arguments Ok {A} a.
Arguments Raise {A} e.

Definition obind {A B} (o : outcome A) (k : A -> outcome B) : outcome B :=
  match o with
  | Ok a => k a
  | Raise e => Raise e
  end.

(** [float(v)]: a number converts, unless it is an [int] beyond the range
    of a [float], which is an [OverflowError]; a string is parsed as a
    decimal literal; [None] is a [TypeError].  The result is the exact
    value: the strings that [float_nonfinite] recognises, which [float]
    reads as [inf] or [nan], have none. *)
Definition py_float (v : value) : outcome Q :=
  match v with
  | VNone => Raise TypeError
  | VInt z =>
      if Z.abs z <? float_limit then Ok (fofZ z) else Raise OverflowError
  | VFloat q => Ok q
  | VStr s =>
      match float_of_string s with
      | Some q => Ok q
      | None => Raise ValueError
      end
  end.

(** [try: xs.append(float(v)) except: continue] *)
Definition float_or_skip (v : value) : list Q :=
  match py_float v with
  | Ok q => [q]
  | Raise _ => []
  end.

(** ** Dicts with string keys: the records *)

Definition dict : Type := list (string * value).

Fixpoint dict_get (k : string) (d : dict) : option value :=
  match d with
  | [] => None
  | (k', v) :: r => if String.eqb k k' then Some v else dict_get k r
  end.

(** [k in d] *)
Definition dict_mem (k : string) (d : dict) : bool :=
  match dict_get k d with Some _ => true | None => false end.

(** [d.get(k, default)] *)
Definition get_or (k : string) (d : dict) (default : value) : value :=
  match dict_get k d with Some v => v | None => default end.

(** [d.get(k)] *)
Definition get (k : string) (d : dict) : value := get_or k d VNone.

(** [d[k] = v]: an existing key keeps its place, a new one goes last. *)
Fixpoint dict_set (k : string) (v : value) (d : dict) : dict :=
  match d with
  | [] => [(k, v)]
  | (k', v') :: r =>
      if String.eqb k k' then (k', v) :: r else (k', v') :: dict_set k v r
  end.

(** [del d[k]] (used to state properties, the engine never deletes). *)
Definition dict_del (k : string) (d : dict) : dict :=
  filter (fun kv => negb (String.eqb k (fst kv))) d.

(** ** Insertion-ordered maps keyed by a scalar

    [defaultdict(list)], [Counter] and the plain dicts the engine builds
    under a key taken from the data. *)

Definition vmap (A : Type) : Type := list (value * A).

Fixpoint vmap_get {A} (k : value) (m : vmap A) : option A :=
  match m with
  | [] => None
  | (k', a) :: r => if value_eqb k k' then Some a else vmap_get k r
  end.

(** [m[k] = f(m[k])], with [m[k]] created as [dflt] when missing. *)
Fixpoint vmap_upd {A} (k : value) (dflt : A) (f : A -> A) (m : vmap A)
  : vmap A :=
  match m with
  | [] => [(k, f dflt)]
  | (k', a) :: r =>
      if value_eqb k k' then (k', f a) :: r
      else (k', a) :: vmap_upd k dflt f r
  end.

(** [for x in xs: groups[key(x)].append(x)] on a [defaultdict(list)]. *)
Definition group_by {A} (key : A -> value) (xs : list A) : vmap (list A) :=
  fold_left (fun g x => vmap_upd (key x) [] (fun l => l ++ [x]) g) xs [].

(** [Counter(xs)] *)
Definition Counter (xs : list value) : vmap nat :=
  fold_left (fun c x => vmap_upd x O S c) xs [].

(** [len(set(xs))] *)
Definition count_distinct (xs : list value) : nat :=
  List.length (Counter xs).

(** ** Analysis documents *)

(** An f-string, kept as its parts: literal text and formatted values. *)
Inductive fpart : Type :=
| Lit (s : string)
| Fmt (v : value).

Inductive doc : Type :=
| DVal (v : value)
| DBool (b : bool)
| DText (parts : list fpart)
| DList (l : list doc)
| DTuple (l : list doc)
| DDict (items : list (value * doc)).

Definition DInt (n : nat) : doc := DVal (VInt (Z.of_nat n)).
Definition DStr (s : string) : doc := DVal (VStr s).
Definition skey (k : string) (d : doc) : value * doc := (VStr k, d).

Definition doc_keys (d : doc) : list value :=
  match d with
  | DDict items => map fst items
  | _ => []
  end.

Definition doc_get (k : string) (d : doc) : option doc :=
  match d with
  | DDict items => vmap_get (VStr k) items
  | _ => None
  end.

(** ** The engine's state

    Record dicts are heap objects named by their address.  The engine holds
    [self.data], the caller's list of records, and [self.processed_data], a
    shallow copy of it: another list of the same addresses. *)

Definition ref : Type := nat.

Record state : Type := mkState {
  heap : list dict;
  self_data : list ref;
  processed_data : list ref
}.

Definition deref (h : list dict) (r : ref) : dict := nth r h [].

Fixpoint heap_upd (r : ref) (f : dict -> dict) (h : list dict) : list dict :=
  match h, r with
  | [], _ => []
  | d :: h', O => f d :: h'
  | d :: h', S r' => d :: heap_upd r' f h'
  end.

Definition M (A : Type) : Type := state -> outcome A * state.

Definition ret {A} (a : A) : M A := fun s => (Ok a, s).

Definition bind {A B} (m : M A) (k : A -> M B) : M B :=
  fun s =>
    match m s with
    | (Ok a, s') => k a s'
    | (Raise e, s') => (Raise e, s')
    end.

Declare Scope engine_scope.
Delimit Scope engine_scope with engine.
Notation "x <- c ;; k" := (bind c (fun x => k))
  (at level 61, c at next level, right associativity) : engine_scope.
Notation "c ;;; k" := (bind c (fun _ => k))
  (at level 61, right associativity) : engine_scope.

(** Reading [self.data] and the records it names. *)
Definition reads {A} (f : list dict -> list ref -> outcome A) : M A :=
  fun s => (f (heap s) (self_data s), s).

Definition read_data : M (list ref) := fun s => (Ok (self_data s), s).

Definition load (r : ref) : M dict := fun s => (Ok (deref (heap s) r), s).

(** [{}]: a fresh dict, at the next free address. *)
Definition new_dict : M ref :=
  fun s =>
    (Ok (List.length (heap s)),
     mkState (heap s ++ [[]]) (self_data s) (processed_data s)).

(** [d[k] = v] on the dict at address [r]. *)
Definition store (r : ref) (k : string) (v : value) : M unit :=
  fun s =>
    (Ok tt,
     mkState (heap_upd r (dict_set k v) (heap s))
             (self_data s) (processed_data s)).

Definition lift {A} (o : outcome A) : M A := fun s => (o, s).

(** [RM4HealthAnalytics(data)]: [self.data = data if data else []] and
    [self.processed_data = self.data.copy()]. *)
Definition __init__ (h : list dict) (data : option (list ref)) : state :=
  let d := match data with Some (x :: l) => x :: l | _ => [] end in
  mkState h d d.

(** The engine built over records given by value: each record is an object
    of its own, in the order of the list. *)
Definition engine_of (records : list dict) : state :=
  __init__ records (Some (seq 0 (List.length records))).

Definition run {A} (m : M A) (records : list dict) : outcome A :=
  fst (m (engine_of records)).

(** ** Numeric helpers *)

Fixpoint omap {A B} (f : A -> outcome B) (l : list A) : outcome (list B) :=
  match l with
  | [] => Ok []
  | x :: r =>
      obind (f x) (fun y => obind (omap f r) (fun ys => Ok (y :: ys)))
  end.

(** [len([x for x in l if p(x)])] where the test may raise. *)
Fixpoint count_where {A} (p : A -> outcome bool) (l : list A) : outcome nat :=
  match l with
  | [] => Ok O
  | x :: r =>
      obind (p x) (fun b =>
      obind (count_where p r) (fun n => Ok (if b then S n else n)))
  end.

(** The number a scalar stands for in arithmetic and ordering against a
    number; a [str] or [None] there is a [TypeError]. *)
Definition number (v : value) : outcome Q :=
  match v with
  | VInt z => Ok (fofZ z)
  | VFloat q => Ok q
  | VNone | VStr _ => Raise TypeError
  end.

(** [v > n] and [v < n] against an [int] literal. *)
Definition gt_int (v : value) (n : Z) : outcome bool :=
  obind (number v) (fun q => Ok (fgtb q (fofZ n))).

Definition lt_int (v : value) (n : Z) : outcome bool :=
  obind (number v) (fun q => Ok (fltb q (fofZ n))).

Definition fsum (xs : list Q) : Q := fold_left fadd xs 0%Q.

(** [np.mean] of floats (every call in the engine is on a non-empty list). *)
Definition np_mean (xs : list Q) : Q :=
  fdiv (fsum xs) (fofnat (List.length xs)).

(** [np.mean] of raw field values: numpy has no mean of strings. *)
Definition np_mean_values (vs : list value) : outcome Q :=
  obind (omap number vs) (fun xs => Ok (np_mean xs)).

Fixpoint insert_sorted (x : Q) (l : list Q) : list Q :=
  match l with
  | [] => [x]
  | y :: r => if Qle_bool x y then x :: l else y :: insert_sorted x r
  end.

Definition sorted (xs : list Q) : list Q := fold_right insert_sorted [] xs.

(** [np.median]: the middle of the sorted values, or the mean of the two
    middle ones. *)
Definition np_median (xs : list Q) : Q :=
  let s := sorted xs in
  let n := List.length s in
  if Nat.even n
  then fdiv (fadd (nth (n / 2 - 1) s 0%Q) (nth (n / 2) s 0%Q)) (2 # 1)
  else nth (n / 2) s 0%Q.

(** [int(x)] of a float: towards zero. *)
Definition py_int (q : Q) : Z := Z.quot (Qnum q) (Z.pos (Qden q)).

Definition DFloat (q : Q) : doc := DVal (VFloat q).

Definition counter_doc (c : vmap nat) : doc :=
  DDict (map (fun kn => (fst kn, DInt (snd kn))) c).

(** [m[k] = a] *)
Definition vmap_set {A} (k : value) (a : A) (m : vmap A) : vmap A :=
  vmap_upd k a (fun _ => a) m.

(** [max(xs, key=score)]: the first element of greatest score. *)
Fixpoint max_by_from {A} (score : A -> Q) (best : A) (l : list A) : A :=
  match l with
  | [] => best
  | x :: r =>
      max_by_from score (if fgtb (score x) (score best) then x else best) r
  end.

Definition max_by {A} (score : A -> Q) (l : list A) : option A :=
  match l with
  | [] => None
  | x :: r => Some (max_by_from score x r)
  end.

(** [d.get(k, default)] on a document. *)
Definition doc_get_or (k : string) (d : doc) (default : doc) : doc :=
  match doc_get k d with Some x => x | None => default end.

(** The number held by a document leaf. *)
Definition doc_number (d : doc) : Q :=
  match d with
  | DVal (VInt z) => fofZ z
  | DVal (VFloat q) => q
  | _ => 0%Q
  end.

(** ** Text helpers for [_get_date_range] *)

(** [sub in s] *)
Fixpoint contains (sub s : string) : bool :=
  (String.prefix sub s ||
   match s with
   | EmptyString => false
   | String _ r => contains sub r
   end)%bool.

(** A [pd.Timestamp]: its instant, in nanoseconds since the epoch, and its
    time zone when it has one. *)
Record timestamp : Type := mk_timestamp {
  instant : Z;
  zone : option string
}.

(** A timestamp with a time zone is aware, one without is naive. *)
Definition aware (t : timestamp) : bool :=
  match zone t with Some _ => true | None => false end.

(** [min(dates)] and [max(dates)]: the first of the least and the first of
    the greatest.  Comparing an aware timestamp with a naive one is a
    [TypeError]. *)
Fixpoint py_min (best : timestamp) (dates : list timestamp)
  : outcome timestamp :=
  match dates with
  | [] => Ok best
  | t :: rest =>
      if Bool.eqb (aware t) (aware best)
      then py_min (if instant t <? instant best then t else best) rest
      else Raise TypeError
  end.

Fixpoint py_max (best : timestamp) (dates : list timestamp)
  : outcome timestamp :=
  match dates with
  | [] => Ok best
  | t :: rest =>
      if Bool.eqb (aware t) (aware best)
      then py_max (if instant best <? instant t then t else best) rest
      else Raise TypeError
  end.

(** Nanoseconds in a day, and the greatest [pd.Timedelta], in
    nanoseconds. *)
Definition day : Z := 86400000000000.
Definition timedelta_max : Z := 2 ^ 63 - 1.

(** [(b - a).days] for [a <= b]: a difference beyond the greatest
    [Timedelta] is an [OutOfBoundsDatetime], which is a [ValueError]. *)
Definition days_between (a b : timestamp) : outcome Z :=
  let d := instant b - instant a in
  if d <=? timedelta_max then Ok (d / day) else Raise ValueError.

(** ** The engine: [class RM4HealthAnalytics] *)

Section Engine.

(** What the interpreter and pandas decide, taken as parameters:
    - [set_order l] is the order in which [list(set(l))] lists the distinct
      elements of [l] (the hash order of the strings);
    - [to_datetime v] is [pd.to_datetime(v, errors='ignore')] when that
      is a [Timestamp], and [None] when it is anything else or an error;
    - [strftime t] is [t.strftime('%Y-%m-%d')]. *)
Variable set_order : list string -> list string.
Variable to_datetime : value -> option timestamp.
Variable strftime : timestamp -> string.

Definition no_data : string := "Nenhum dado disponível".

Definition participant_key (record : dict) : value :=
  get_or "participant_id" record (get_or "record_id" record (VStr "unknown")).

Definition residence_key (record : dict) : value :=
  get_or "residence_type" record (get_or "location" record (VStr "unknown")).

(** [record.get('participant_id', record.get('record_id'))] *)
Definition participant_or_none (record : dict) : value :=
  get_or "participant_id" record (get "record_id" record).

Definition _get_date_range (records : list dict) : outcome doc :=
  let dates :=
    flat_map (fun record : dict =>
      flat_map (fun kv : string * value =>
        if (contains "date" (lower (fst kv)) && truthy (snd kv))%bool
        then match to_datetime (snd kv) with
             | Some t => [t]
             | None => []
             end
        else []) record) records in
  match dates with
  | [] =>
      Ok (DDict [skey "start_date" (DVal VNone);
                 skey "end_date" (DVal VNone);
                 skey "duration_days" (DVal (VInt 0))])
  | t :: ts =>
      obind (py_min t ts) (fun lo =>
      obind (py_max t ts) (fun hi =>
      obind (days_between lo hi) (fun days =>
        Ok (DDict [skey "start_date" (DStr (strftime lo));
                   skey "end_date" (DStr (strftime hi));
                   skey "duration_days" (DVal (VInt days))]))))
  end.

(** [isinstance(value, (int, float)) or
     (isinstance(value, str) and value.isdigit())] *)
Definition is_candidate (v : value) : bool :=
  match v with
  | VInt _ | VFloat _ => true
  | VStr s => isdigit s
  | VNone => false
  end.

(** The names appended to [numeric_fields], in the order of discovery. *)
Definition discovered_fields (records : list dict) : list string :=
  flat_map (fun record : dict =>
    flat_map (fun kv : string * value =>
      if is_candidate (snd kv) then [fst kv] else []) record) records.

(** The values of one field that convert, in record order. *)
Definition field_values (field : string) (records : list dict) : list Q :=
  flat_map (fun record : dict =>
    if (dict_mem field record && truthy (get field record))%bool
    then float_or_skip (get field record)
    else []) records.

(** The entry written to [trends[field]], when there is one. *)
Definition trend_entry (values : list Q) : option doc :=
  if (1 <? List.length values)%nat then
    let first := hd 0%Q values in
    let final := last values 0%Q in
    Some (DDict
      [skey "trend"
         (DStr (if fgtb final first then "increasing" else "decreasing"));
       skey "change_percent"
         (if negb (fzero first)
          then DFloat (fmul (fdiv (fsub final first) first) (100 # 1))
          else DVal (VInt 0));
       skey "values" (DList (map DFloat (firstn 10 values)))])
  else None.

(** The fields the loop of [_analyze_trends] visits:
    [list(set(numeric_fields))[:5]]. *)
Definition trend_fields (records : list dict) : list string :=
  firstn 5 (set_order (discovered_fields records)).

Definition _analyze_trends (records : list dict) : vmap doc :=
  fold_left (fun trends field =>
    match trend_entry (field_values field records) with
    | Some e => vmap_set (VStr field) e trends
    | None => trends
    end) (trend_fields records) [].

Definition analyze_longitudinal_data : M doc :=
  reads (fun h data =>
    match data with
    | [] => Ok (DDict [skey "message" (DStr no_data);
                       skey "participants" (DList [])])
    | _ =>
        let participant_data :=
          group_by (fun r => participant_key (deref h r)) data in
        obind
          (omap (fun g : value * list ref =>
             let records := map (deref h) (snd g) in
             obind (_get_date_range records) (fun date_range =>
               Ok (DDict
                 [skey "id" (DVal (fst g));
                  skey "total_records" (DInt (List.length records));
                  skey "date_range" date_range;
                  skey "trends" (DDict (_analyze_trends records))])))
             participant_data)
          (fun participants =>
             Ok (DDict
               [skey "total_participants"
                  (DInt (List.length participant_data));
                skey "participants" (DList participants)]))
    end).

Definition healthcare_fields : list string :=
  ["healthcare_visits"; "emergency_visits"; "hospitalizations";
   "specialist_visits"; "primary_care_visits"; "medication_changes"].

(** [[record.get(field) for record in self.data if record.get(field)]] *)
Definition present_values (field : string) (records : list dict)
  : list value :=
  filter truthy (map (get field) records).

(** The entry written to [utilization_stats[field]], when [values] is not
    empty. *)
Definition field_stats (field : string) (records : list dict)
  : outcome (option doc) :=
  let values := present_values field records in
  match values with
  | [] => Ok None
  | _ =>
      obind
        (if existsb str_isdigit values
         then obind (omap py_float (filter str_isdigit values))
                (fun xs => Ok (DFloat (np_mean xs)))
         else Ok (DVal (VInt 0)))
        (fun average =>
           Ok (Some (DDict [skey "count" (DInt (List.length values));
                            skey "average" average;
                            skey "distribution"
                              (counter_doc (Counter values))])))
  end.

Fixpoint utilization_loop (fields : list string) (records : list dict)
  (utilization_stats : vmap doc) : outcome (vmap doc) :=
  match fields with
  | [] => Ok utilization_stats
  | field :: rest =>
      obind (field_stats field records) (fun e =>
        utilization_loop rest records
          match e with
          | Some d => vmap_set (VStr field) d utilization_stats
          | None => utilization_stats
          end)
  end.

(** [stats[k].get('count', 0)] *)
Definition stat_count (stat : doc) : Q :=
  doc_number (doc_get_or "count" stat (DVal (VInt 0))).

Definition _summarize_utilization (stats : vmap doc) : doc :=
  match stats with
  | [] => DStr "Nenhum dado de utilização disponível"
  | _ =>
      let total_visits := fsum (map (fun kv => stat_count (snd kv)) stats) in
      let most_common :=
        max_by (fun k => match vmap_get k stats with
                         | Some stat => stat_count stat
                         | None => 0%Q
                         end) (map fst stats) in
      DText [Lit "Total de "; Fmt (VInt (py_int total_visits));
             Lit " utilizações registradas. Mais comum: ";
             Fmt (match most_common with Some k => k | None => VNone end)]
  end.

Definition analyze_healthcare_utilization : M doc :=
  reads (fun h data =>
    match data with
    | [] => Ok (DDict [skey "message" (DStr no_data)])
    | _ =>
        let records := map (deref h) data in
        obind (utilization_loop healthcare_fields records [])
          (fun utilization_stats =>
             Ok (DDict
               [skey "total_participants"
                  (DInt (count_distinct (map participant_or_none records)));
                skey "utilization_stats" (DDict utilization_stats);
                skey "summary" (_summarize_utilization utilization_stats)]))
    end).

(** *** Field extraction, shared by the sleep and medication analyses

    The loop body builds a new dict, copies the allow-listed fields that
    the record has, and keeps the new dict when it is not empty. *)

Fixpoint copy_fields (fields : list string) (src dst : ref) : M unit :=
  match fields with
  | [] => ret tt
  | field :: rest =>
      (record <- load src ;;
       (if dict_mem field record
        then store dst field (get field record)
        else ret tt) ;;;
       copy_fields rest src dst)%engine
  end.

Definition extract_domain (fields : list string) (src : ref)
  : M (option ref) :=
  (dst <- new_dict ;;
   copy_fields fields src dst ;;;
   extracted <- load dst ;;
   match extracted with
   | [] => ret None
   | _ =>
       record <- load src ;;
       store dst "participant_id" (participant_or_none record) ;;;
       ret (Some dst)
   end)%engine.

Fixpoint extract_all (fields : list string) (data : list ref)
  : M (list ref) :=
  match data with
  | [] => ret []
  | src :: rest =>
      (kept <- extract_domain fields src ;;
       out <- extract_all fields rest ;;
       ret match kept with
           | Some dst => dst :: out
           | None => out
           end)%engine
  end.

Fixpoint load_all (refs : list ref) : M (list dict) :=
  match refs with
  | [] => ret []
  | r :: rest =>
      (d <- load r ;; ds <- load_all rest ;; ret (d :: ds))%engine
  end.

(** The floats of one field over the extracted records:
    [if field in record: try: xs.append(float(record[field]))]. *)
Definition scores_of (field : string) (records : list dict) : list Q :=
  flat_map (fun record : dict =>
    if dict_mem field record then float_or_skip (get field record) else [])
    records.

Definition sleep_fields : list string :=
  ["sleep_quality"; "sleep_duration"; "sleep_disturbances";
   "bedtime"; "wake_time"; "sleep_efficiency"].

(** The scores of a field that are [inf] or [nan], in the order of the
    records: [float] reads them from a text, inside the [try], like any
    other score. *)
Definition nonfinite_of (v : value) : option nonfinite :=
  match v with
  | VStr s => float_nonfinite s
  | _ => None
  end.

Definition nonfinite_scores (field : string) (records : list dict)
  : list nonfinite :=
  flat_map (fun record : dict =>
    if dict_mem field record
    then match nonfinite_of (get field record) with
         | Some x => [x]
         | None => []
         end
    else []) records.

(** The distribution is [Counter([int(score) for score in quality_scores])],
    outside any handler: [int(inf)] is an [OverflowError] and [int(nan)] a
    [ValueError], whichever score comes first. *)
Definition _analyze_sleep_quality (sleep_data : list dict) : outcome doc :=
  let quality_scores := scores_of "sleep_quality" sleep_data in
  match nonfinite_scores "sleep_quality" sleep_data with
  | Infinite :: _ => Raise OverflowError
  | NotANumber :: _ => Raise ValueError
  | [] =>
      match quality_scores with
      | [] => Ok (DDict [skey "average" (DVal (VInt 0));
                         skey "median" (DVal (VInt 0));
                         skey "distribution" (DDict [])])
      | _ =>
          Ok (DDict
            [skey "average" (DFloat (np_mean quality_scores));
             skey "median" (DFloat (np_median quality_scores));
             skey "distribution"
               (counter_doc
                  (Counter
                     (map (fun q => VInt (py_int q)) quality_scores)))])
      end
  end.

Definition in_range (lo hi : Z) (d : Q) : bool :=
  (Qle_bool (fofZ lo) d && Qle_bool d (fofZ hi))%bool.

Definition recommended_range : doc := DTuple [DInt 7; DInt 9].

Definition _analyze_sleep_duration (sleep_data : list dict) : doc :=
  let durations := scores_of "sleep_duration" sleep_data in
  match durations with
  | [] => DDict [skey "average_hours" (DVal (VInt 0));
                 skey "recommended_range" recommended_range;
                 skey "within_range_percent" (DVal (VInt 0))]
  | _ =>
      DDict [skey "average_hours" (DFloat (np_mean durations));
             skey "recommended_range" recommended_range;
             skey "within_range_percent"
               (DFloat (fmul
                  (fdiv (fofnat (List.length (filter (in_range 7 9) durations)))
                        (fofnat (List.length durations)))
                  (100 # 1)))]
  end.

Definition _identify_sleep_patterns (sleep_data : list dict) : doc :=
  let b := (5 <? List.length sleep_data)%nat in
  DDict [skey "consistent_bedtime" (DBool b);
         skey "regular_wake_time" (DBool b);
         skey "adequate_duration" (DBool b)].

Definition analyze_sleep_patterns : M doc :=
  (data <- read_data ;;
   match data with
   | [] => ret (DDict [skey "message" (DStr no_data)])
   | _ =>
       sleep_refs <- extract_all sleep_fields data ;;
       sleep_data <- load_all sleep_refs ;;
       sleep_quality_stats <- lift (_analyze_sleep_quality sleep_data) ;;
       ret (DDict
         [skey "total_sleep_records" (DInt (List.length sleep_data));
          skey "sleep_quality_stats" sleep_quality_stats;
          skey "sleep_duration_stats" (_analyze_sleep_duration sleep_data);
          skey "patterns" (_identify_sleep_patterns sleep_data)])
   end)%engine.

Definition medication_fields : list string :=
  ["medication_adherence"; "missed_doses"; "medication_changes";
   "side_effects"; "adherence_score"; "medication_count"].

Definition _calculate_adherence_stats (adherence_data : list dict) : doc :=
  let adherence_scores := scores_of "adherence_score" adherence_data in
  match adherence_scores with
  | [] => DDict [skey "average_adherence" (DVal (VInt 0));
                 skey "high_adherence_percent" (DVal (VInt 0));
                 skey "low_adherence_count" (DVal (VInt 0))]
  | _ =>
      DDict [skey "average_adherence" (DFloat (np_mean adherence_scores));
             skey "high_adherence_percent"
               (DFloat (fmul
                  (fdiv (fofnat (List.length
                           (filter (fun s => Qle_bool (80 # 1) s)
                                   adherence_scores)))
                        (fofnat (List.length adherence_scores)))
                  (100 # 1)));
             skey "low_adherence_count"
               (DInt (List.length
                        (filter (fun s => fltb s (50 # 1)) adherence_scores)))]
  end.

Definition DNat (n : nat) : fpart := Fmt (VInt (Z.of_nat n)).

Definition _identify_adherence_risks (adherence_data : list dict)
  : outcome (list doc) :=
  obind (count_where (fun r => gt_int (get_or "missed_doses" r (VInt 0)) 0)
           adherence_data)
    (fun missed_doses_count =>
       let risks1 :=
         if (0 <? missed_doses_count)%nat
         then [DText [DNat missed_doses_count;
                      Lit " participantes com doses perdidas"]]
         else [] in
       let side_effects_count :=
         List.length (filter (fun r => truthy (get "side_effects" r))
                        adherence_data) in
       Ok (risks1 ++
           if (0 <? side_effects_count)%nat
           then [DText [DNat side_effects_count;
                        Lit " participantes relataram efeitos colaterais"]]
           else [])).

Definition base_recommendations : list doc :=
  [DStr "Implementar lembretes de medicação";
   DStr "Monitoramento regular da adesão";
   DStr "Educação sobre importância do tratamento"].

Definition _generate_adherence_recommendations (adherence_data : list dict)
  : outcome (list doc) :=
  match adherence_data with
  | [] => Ok base_recommendations
  | _ =>
      obind (count_where
               (fun r => lt_int (get_or "adherence_score" r (VInt 100)) 80)
               adherence_data)
        (fun low_adherence =>
           Ok (base_recommendations ++
               if (0 <? low_adherence)%nat
               then [DText [Lit "Foco especial em "; DNat low_adherence;
                            Lit " participantes com baixa adesão"]]
               else []))
  end.

Definition analyze_medication_adherence : M doc :=
  (data <- read_data ;;
   match data with
   | [] => ret (DDict [skey "message" (DStr no_data)])
   | _ =>
       adherence_refs <- extract_all medication_fields data ;;
       adherence_data <- load_all adherence_refs ;;
       risks <- lift (_identify_adherence_risks adherence_data) ;;
       recommendations <-
         lift (_generate_adherence_recommendations adherence_data) ;;
       ret (DDict
         [skey "total_medication_records" (DInt (List.length adherence_data));
          skey "adherence_stats" (_calculate_adherence_stats adherence_data);
          skey "risk_factors" (DList risks);
          skey "recommendations" (DList recommendations)])
   end)%engine.

Definition _calculate_residence_metrics (records : list dict)
  : outcome doc :=
  let health_scores :=
    map (fun r => get_or "health_score" r (VInt 0))
        (filter (fun r => truthy (get "health_score" r)) records) in
  obind
    match health_scores with
    | [] => Ok (DVal (VInt 0))
    | _ => obind (np_mean_values health_scores) (fun m => Ok (DFloat m))
    end
    (fun health_score_avg =>
       Ok (DDict [skey "health_score_avg" health_score_avg;
                  skey "satisfaction_avg" (DVal (VInt 0));
                  skey "activity_level_avg" (DVal (VInt 0))])).

Definition _analyze_residence_demographics (records : list dict)
  : outcome doc :=
  let ages :=
    map (fun r => get_or "age" r (VInt 0))
        (filter (fun r => truthy (get "age" r)) records) in
  let genders :=
    map (fun r => get_or "gender" r (VStr "unknown"))
        (filter (fun r => truthy (get "gender" r)) records) in
  obind
    match ages with
    | [] => Ok (DVal (VInt 0))
    | _ => obind (np_mean_values ages) (fun m => Ok (DFloat m))
    end
    (fun average_age =>
       Ok (DDict [skey "average_age" average_age;
                  skey "gender_distribution" (counter_doc (Counter genders));
                  skey "total_participants" (DInt (List.length records))])).

(** [comparison[k].get('health_metrics', {}).get('health_score_avg', 0)] *)
Definition health_score_of (entry : doc) : Q :=
  doc_number
    (doc_get_or "health_score_avg"
       (doc_get_or "health_metrics" entry (DDict []))
       (DVal (VInt 0))).

(** [data.get('participant_count', 0)] *)
Definition participant_count_of (entry : doc) : Q :=
  doc_number (doc_get_or "participant_count" entry (DVal (VInt 0))).

Definition _generate_residence_insights (comparison : vmap doc) : list doc :=
  if (1 <? List.length comparison)%nat then
    let best_residence :=
      max_by (fun k => match vmap_get k comparison with
                       | Some entry => health_score_of entry
                       | None => 0%Q
                       end) (map fst comparison) in
    let total_participants :=
      fsum (map (fun kv => participant_count_of (snd kv)) comparison) in
    [DText [Lit "Melhor performance de saúde: ";
            Fmt (match best_residence with Some k => k | None => VNone end)];
     DText [Lit "Total de "; Fmt (VInt (py_int total_participants));
            Lit " participantes distribuídos entre ";
            DNat (List.length comparison); Lit " residências"]]
  else [].

Fixpoint comparison_loop (h : list dict) (groups : vmap (list ref))
  (comparison : vmap doc) : outcome (vmap doc) :=
  match groups with
  | [] => Ok comparison
  | (residence, refs) :: rest =>
      let records := map (deref h) refs in
      obind (_calculate_residence_metrics records) (fun health_metrics =>
      obind (_analyze_residence_demographics records) (fun demographics =>
        comparison_loop h rest
          (vmap_set residence
             (DDict [skey "participant_count" (DInt (List.length records));
                     skey "health_metrics" health_metrics;
                     skey "demographics" demographics])
             comparison)))
  end.

Definition analyze_residence_comparison : M doc :=
  reads (fun h data =>
    match data with
    | [] => Ok (DDict [skey "message" (DStr "Nenhum dados disponível")])
    | _ =>
        let residence_data :=
          group_by (fun r => residence_key (deref h r)) data in
        obind (comparison_loop h residence_data []) (fun comparison =>
          Ok (DDict
            [skey "total_residences" (DInt (List.length residence_data));
             skey "comparison" (DDict comparison);
             skey "insights"
               (DList (_generate_residence_insights comparison))]))
    end).

End Engine.

(** ** Notions used to state the properties *)

(** The distinct elements of a list, each at its first occurrence: the
    order of discovery. *)
Fixpoint dedup (l : list string) : list string :=
  match l with
  | [] => []
  | x :: r => x :: filter (fun y => negb (String.eqb x y)) (dedup r)
  end.

(** What Python promises of [list(set(l))]: the elements of [l], each
    once, in an order of the interpreter's choosing. *)
Definition set_listing (order : list string -> list string) : Prop :=
  forall l, NoDup (order l) /\ forall x, In x (order l) <-> In x l.

(** Every record the engine holds is an object of the heap. *)
Definition wf_state (s : state) : Prop :=
  forall r, In r (self_data s) -> (r < List.length (heap s))%nat.

(** [s'] has the objects of [s], unchanged and at the same addresses (it
    may have more), and the same two lists of records. *)
Definition unchanged (s s' : state) : Prop :=
  self_data s' = self_data s /\
  processed_data s' = processed_data s /\
  firstn (List.length (heap s)) (heap s') = heap s.

(** The dict that the extraction loop builds for one record, as a function
    of the record: the allow-listed fields it has, then the participant. *)
Definition copy_step (record : dict) (d : dict) (field : string) : dict :=
  if dict_mem field record then dict_set field (get field record) d else d.

Definition extracted (fields : list string) (record : dict) : dict :=
  match fold_left (copy_step record) fields [] with
  | [] => []
  | d => dict_set "participant_id" (participant_or_none record) d
  end.

Definition is_empty (d : dict) : bool :=
  match d with [] => true | _ => false end.

Definition extraction (fields : list string) (records : list dict)
  : list dict :=
  filter (fun d => negb (is_empty d)) (map (extracted fields) records).

(** A record with the field [field] deleted when its value is falsy. *)
Definition treat_absent (field : string) (record : dict) : dict :=
  if truthy (get field record) then record else dict_del field record.

(** The keys of a map are pairwise different as Python keys. *)
Fixpoint distinct_keys {A} (m : vmap A) : Prop :=
  match m with
  | [] => True
  | (k, _) :: r =>
      (forall k' a, In (k', a) r -> value_eqb k' k = false) /\ distinct_keys r
  end.

(** Sample inputs. *)

(** Four records whose field [field] holds "12", "abc", 7.5 and, in the
    record [missing], nothing. *)
Definition mixed (field : string) (missing : dict) : list dict :=
  [[(field, VStr "12")]; [(field, VStr "abc")];
   [(field, VFloat (15 # 2))]; missing].

(** Two records with six numeric fields each. *)
Definition six_fields : list dict :=
  let r := [("a", VInt 1); ("b", VInt 2); ("c", VInt 3);
            ("d", VInt 4); ("e", VInt 5); ("f", VInt 6)] in
  [r; r].

Definition discovery_order (l : list string) : list string := dedup l.
Definition reverse_order (l : list string) : list string := rev (dedup l).
Definition no_dates (v : value) : option timestamp := None.
Definition no_text (t : timestamp) : string := "".

(** The magnitude of a number, the text of a string: two scalars are one
    key exactly when they agree here. *)
Definition key_class (a : value) : option (Q + string) :=
  match a with
  | VNone => None
  | VInt z => Some (inl (fofZ z))
  | VFloat q => Some (inl q)
  | VStr s => Some (inr s)
  end.

Definition same_class (x y : option (Q + string)) : Prop :=
  match x, y with
  | None, None => True
  | Some (inl p), Some (inl q) => (p == q)%Q
  | Some (inr s), Some (inr t) => s = t
  | _, _ => False
  end.

(** One turn of the grouping loop. *)
Definition add_to_group {A} (key : A -> value) (g : vmap (list A)) (x : A)
  : vmap (list A) :=
  vmap_upd (key x) [] (fun l => l ++ [x]) g.

(** What holds of the groups after each record: a group is the records of
    its key, in input order; no group is empty; no key is there twice. *)
Definition groups_of {A} (key : A -> value) (xs : list A)
  (g : vmap (list A)) : Prop :=
  distinct_keys g /\
  (forall k l, In (k, l) g ->
     l <> [] /\ l = filter (fun x => value_eqb (key x) k) xs) /\
  (forall x, In x xs -> exists k l, In (k, l) g /\ value_eqb (key x) k = true).

(** The groups [g] split [xs] exactly: together they hold the elements of
    [xs], each as often as [xs] does; a group holds the elements of its key
    and is not empty; every element is in a group, and in one only. *)
Definition exact_partition {A} (key : A -> value) (xs : list A)
  (g : vmap (list A)) : Prop :=
  Permutation (List.concat (map snd g)) xs /\
  distinct_keys g /\
  (forall k l, In (k, l) g ->
     l <> [] /\ l = filter (fun x => value_eqb (key x) k) xs) /\
  (forall x, In x xs -> exists k l, In (k, l) g /\ In x l) /\
  (forall x k1 l1 k2 l2,
     In (k1, l1) g -> In (k2, l2) g -> In x l1 -> In x l2 ->
     (k1, l1) = (k2, l2)).

(** The entries of [trends] for a list of fields, in the order of the
    list: one for every field that has at least two values. *)
Definition trend_items (records : list dict) (fields : list string)
  : vmap doc :=
  flat_map (fun field =>
    match trend_entry (field_values field records) with
    | Some e => [(VStr field, e)]
    | None => []
    end) fields.

(** The record holds [field] with a value the candidate test accepts. *)
Definition holds_candidate (field : string) (record : dict) : Prop :=
  exists v, In (field, v) record /\
    ((exists z, v = VInt z) \/ (exists q, v = VFloat q) \/
     (exists s, v = VStr s /\ isdigit s = true)).

(** [d[k1][k2]...] on a document. *)
Fixpoint doc_path (path : list string) (d : doc) : option doc :=
  match path with
  | [] => Some d
  | k :: rest =>
      match doc_get k d with
      | Some x => doc_path rest x
      | None => None
      end
  end.

(** The three ways the field is missing from a record: the key is not
    there, or it is there with [None], or with the empty string. *)
Definition missing_variants (field : string) : list dict :=
  [[("participant_id", VStr "P4")]; [(field, VNone)]; [(field, VStr "")]].

(** The four raw values of the mixed field, the missing one as [None]. *)
Definition four_raw_values : list value :=
  [VStr "12"; VStr "abc"; VFloat (15 # 2); VNone].

(** The keys of the document an analysis returned, none if it raised. *)
Definition doc_keys_of (r : outcome doc * state) : list value :=
  match fst r with
  | Ok d => doc_keys d
  | Raise _ => []
  end.

(** The part of a returned document under a path of keys. *)
Definition doc_at (path : list string) (o : outcome doc) : option doc :=
  match o with
  | Ok d => doc_path path d
  | Raise _ => None
  end.

(** What the sleep analysis reports on the quality field of the mixed
    records, and the distribution that the utilization analysis reports on
    its field. *)
Definition mixed_quality_stats : doc :=
  DDict [skey "average" (DFloat (39 # 4));
         skey "median" (DFloat (39 # 4));
         skey "distribution"
           (DDict [(VInt 12, DInt 1); (VInt 7, DInt 1)])].

Definition mixed_visit_distribution : doc :=
  DDict [(VStr "12", DInt 1); (VStr "abc", DInt 1);
         (VFloat (15 # 2), DInt 1)].

(** The state whose records have [field] deleted where it is falsy. *)
Definition with_absent (field : string) (s : state) : state :=
  mkState (map (treat_absent field) (heap s)) (self_data s) (processed_data s).

(** The addresses the extraction loop keeps, when the next free address is
    [base]: one new dict is made per record, and kept if not empty. *)
Fixpoint kept_refs (fields : list string) (h : list dict) (base : nat)
  (data : list ref) : list ref :=
  match data with
  | [] => []
  | src :: rest =>
      (if is_empty (extracted fields (deref h src)) then [] else [base])
      ++ kept_refs fields h (S base) rest
  end.

(** The document of the sleep analysis, or the exception, as a function
    of what the records hold. *)
Definition sleep_document (records : list dict) : outcome doc :=
  match records with
  | [] => Ok (DDict [skey "message" (DStr no_data)])
  | _ =>
      let sleep_data := extraction sleep_fields records in
      obind (_analyze_sleep_quality sleep_data) (fun sleep_quality_stats =>
        Ok (DDict
          [skey "total_sleep_records" (DInt (List.length sleep_data));
           skey "sleep_quality_stats" sleep_quality_stats;
           skey "sleep_duration_stats"
             (_analyze_sleep_duration sleep_data);
           skey "patterns" (_identify_sleep_patterns sleep_data)]))
  end.

(** The document of the medication analysis, or the exception, as a
    function of what the records hold. *)
Definition medication_document (records : list dict) : outcome doc :=
  match records with
  | [] => Ok (DDict [skey "message" (DStr no_data)])
  | _ =>
      let adherence_data := extraction medication_fields records in
      obind (_identify_adherence_risks adherence_data) (fun risks =>
      obind (_generate_adherence_recommendations adherence_data)
        (fun recommendations =>
           Ok (DDict
             [skey "total_medication_records"
                (DInt (List.length adherence_data));
              skey "adherence_stats"
                (_calculate_adherence_stats adherence_data);
              skey "risk_factors" (DList risks);
              skey "recommendations" (DList recommendations)])))
  end.

(** Two heaps hold the same thing at every address of [data]. *)
Definition agree (data : list ref) (h h' : list dict) : Prop :=
  forall r, In r data -> deref h r = deref h' r.

(** The state after the extraction loop ran over the records of [s]: the
    heap has one more dict per record, after those it had. *)
Definition after_extraction (fields : list string) (s : state) : state :=
  mkState
    (heap s ++ map (fun r => extracted fields (deref (heap s) r)) (self_data s))
    (self_data s) (processed_data s).

(** The five analyses of the engine. *)
Definition analyses (order : list string -> list string)
  (to_datetime : value -> option timestamp)
  (strftime : timestamp -> string) : list (M doc) :=
  [analyze_longitudinal_data order to_datetime strftime;
   analyze_healthcare_utilization;
   analyze_sleep_patterns;
   analyze_medication_adherence;
   analyze_residence_comparison].

(** A text of ASCII characters. *)
Definition ascii_text (s : string) : bool :=
  forallb (fun c => (nat_of_ascii c <? 128)%nat) (list_ascii_of_string s).

(** The values that [float] reads the way [float_or_skip] does: [None], the
    numbers, and the ASCII texts that are not read as [inf] or [nan]. *)
Definition finite_value (v : value) : bool :=
  match v with
  | VStr s =>
      (ascii_text s &&
       match float_nonfinite s with None => true | Some _ => false end)%bool
  | _ => true
  end.

Definition finite_records (records : list dict) : bool :=
  forallb (fun record : dict =>
    forallb (fun kv : string * value => finite_value (snd kv)) record)
    records.

(** "average_age" in the demographics of a group. *)
Definition average_age (records : list dict) : outcome (option doc) :=
  obind (_analyze_residence_demographics records)
    (fun demographics => Ok (doc_get "average_age" demographics)).

(** One residence, two records: a health score and an age of 0 next to
    8 and 70. *)
Definition zero_and_real : list dict :=
  [[("health_score", VInt 0); ("age", VInt 0)];
   [("health_score", VInt 8); ("age", VInt 70)]].

(** ** Notions used to state further properties *)

(** The record has at least one of the fields. *)
Definition has_any (fields : list string) (record : dict) : bool :=
  existsb (fun f => dict_mem f record) fields.

Definition is_nil {A} (l : list A) : bool :=
  match l with [] => true | _ => false end.

(** The integer under a key of a document, 0 when there is none. *)
Definition doc_int (k : string) (d : doc) : Z :=
  match doc_get k d with
  | Some (DVal (VInt z)) => z
  | _ => 0
  end.

(** The record has no value for the field, or an [int] or a [float]. *)
Definition number_or_absent (field : string) (record : dict) : bool :=
  match dict_get field record with
  | None | Some (VInt _) | Some (VFloat _) => true
  | Some VNone | Some (VStr _) => false
  end.

Definition is_ok {A} (o : outcome A) : bool :=
  match o with Ok _ => true | Raise _ => false end.

(** How many elements of [xs] are the key [k]. *)
Definition occurrences (k : value) (xs : list value) : nat :=
  List.length (filter (fun x => value_eqb k x) xs).

(** The entries of [utilization_stats] for a list of fields, in the order
    of the list: one for every field that has a value. *)
Definition stats_items (records : list dict) (fields : list string)
  : vmap doc :=
  flat_map (fun field =>
    match field_stats field records with
    | Ok (Some d) => [(VStr field, d)]
    | _ => []
    end) fields.

(** The field has a truthy value in some record. *)
Definition has_values (records : list dict) (field : string) : bool :=
  negb (is_nil (present_values field records)).

(** [r] is the first element of [l] of greatest score: those before it
    score less, those after it score no more. *)
Definition first_greatest {A} (score : A -> Q) (l : list A) (r : A) : Prop :=
  exists before after,
    l = before ++ r :: after /\
    (forall x, In x before -> (score x < score r)%Q) /\
    (forall x, In x after -> (score x <= score r)%Q).

(** The count that [_summarize_utilization] reads for a field. *)
Definition count_in (stats : vmap doc) (k : value) : Q :=
  match vmap_get k stats with
  | Some stat => stat_count stat
  | None => 0%Q
  end.

(** The score that [_generate_residence_insights] reads for a residence. *)
Definition score_in (comparison : vmap doc) (k : value) : Q :=
  match vmap_get k comparison with
  | Some entry => health_score_of entry
  | None => 0%Q
  end.

Definition sum_Z (l : list Z) : Z := fold_right Z.add 0 l.

(** The group sizes of a grouping. *)
Definition group_sizes {A} (g : vmap (list A)) : list Z :=
  map (fun kl => Z.of_nat (List.length (snd kl))) g.

(** The participant counts written in a comparison. *)
Definition participant_counts (comparison : vmap doc) : list Z :=
  map (fun kv => doc_int "participant_count" (snd kv)) comparison.

(** The test returned [True]. *)
Definition holds (o : outcome bool) : bool :=
  match o with Ok true => true | _ => false end.

(** The score of the record, 100 when it has none, is below 80. *)
Definition low_adherence (r : dict) : bool :=
  holds (lt_int (get_or "adherence_score" r (VInt 100)) 80).

(** The missed doses of the record, 0 when it has none, are above 0. *)
Definition missed_doses (r : dict) : bool :=
  holds (gt_int (get_or "missed_doses" r (VInt 0)) 0).

(** The instants that [_get_date_range] collects: for every field whose
    name holds "date", in any case, and whose value is truthy, the instant
    that [to_datetime] reads in the value, if any. *)
Definition date_values (to_datetime : value -> option timestamp)
  (records : list dict) : list timestamp :=
  flat_map (fun record : dict =>
    flat_map (fun kv : string * value =>
      if (contains "date" (lower (fst kv)) && truthy (snd kv))%bool
      then match to_datetime (snd kv) with
           | Some t => [t]
           | None => []
           end
      else []) record) records.

(** A reading of dates for the examples: an [int] is its own instant, in
    no time zone. *)
Definition int_dates (v : value) : option timestamp :=
  match v with VInt z => Some (mk_timestamp z None) | _ => None end.

(** Another one: a text too is a timestamp, the instant 0 in the zone that
    the text names. *)
Definition zoned_dates (v : value) : option timestamp :=
  match v with
  | VInt z => Some (mk_timestamp z None)
  | VStr s => Some (mk_timestamp 0 (Some s))
  | _ => None
  end.



(** An [int] whose text is made of digits and that is beyond the range
    of a [float]. *)
Definition too_big (v : value) : bool :=
  match v with
  | VInt z => float_limit <=? z
  | _ => false
  end.

(** Some truthy value of a utilization field is such an [int]. *)
Definition overflows (records : list dict) : bool :=
  existsb (fun field => existsb too_big (present_values field records))
    healthcare_fields.

(** The interpreter prints an [int] of up to 4300 digits, and refuses a
    longer one. *)
Definition str_limit : Z := Eval vm_compute in (10 ^ 4300).

Definition ascii_value (v : value) : bool :=
  match v with
  | VStr s => ascii_text s
  | _ => true
  end.

Definition ascii_records (records : list dict) : bool :=
  forallb (fun record : dict =>
    forallb (fun kv : string * value => ascii_value (snd kv)) record)
    records.

(** The values whose text [str] gives the way [str_isdigit] reads it: the
    ASCII texts, the floats, [None], and the ints that the interpreter
    prints. *)
Definition printable (v : value) : bool :=
  match v with
  | VStr s => ascii_text s
  | VInt z => Z.abs z <? str_limit
  | _ => true
  end.

Definition printable_records (records : list dict) : bool :=
  forallb (fun record : dict =>
    forallb (fun kv : string * value => printable (snd kv)) record)
    records.

(** The dates are all aware or all naive. *)
Definition comparable (dates : list timestamp) : bool :=
  match dates with
  | [] => true
  | t :: rest => forallb (fun u => Bool.eqb (aware u) (aware t)) rest
  end.

(** No two of the dates are further apart than the greatest [Timedelta]. *)
Definition span_fits (dates : list timestamp) : bool :=
  forallb (fun a =>
    forallb (fun b => instant b - instant a <=? timedelta_max) dates) dates.

(** The dates of a group for which [_get_date_range] returns. *)
Definition date_range_returns (dates : list timestamp) : bool :=
  (comparable dates && span_fits dates)%bool.

(** The entry of a participant in the longitudinal document, when the
    date range of the group returns. *)
Definition participant_entry (order : list string -> list string)
  (to_datetime : value -> option timestamp)
  (strftime : timestamp -> string) (h : list dict)
  (g : value * list ref) : doc :=
  let records := map (deref h) (snd g) in
  DDict [skey "id" (DVal (fst g));
         skey "total_records" (DInt (List.length records));
         skey "date_range"
           match _get_date_range to_datetime strftime records with
           | Ok date_range => date_range
           | Raise _ => DVal VNone
           end;
         skey "trends" (DDict (_analyze_trends order records))].

(** The date range of every participant group returns. *)
Definition date_ranges_return (to_datetime : value -> option timestamp)
  (h : list dict) (groups : vmap (list ref)) : bool :=
  forallb (fun g : value * list ref =>
    date_range_returns (date_values to_datetime (map (deref h) (snd g))))
    groups.

(** * Properties *)

(** ** Reading numbers *)

Example float_12 : py_float (VStr "12") = Ok (12 # 1).
Proof. reflexivity. Qed.

Example float_7_5 : py_float (VStr "7.5") = Ok (15 # 2).
Proof. reflexivity. Qed.

Example float_neg3 : py_float (VStr "-3") = Ok (-3 # 1).
Proof. reflexivity. Qed.

Example float_exponent : py_float (VStr " 1.5e2 ") = Ok (150 # 1).
Proof. reflexivity. Qed.

Example float_grouped : py_float (VStr "1_000") = Ok (1000 # 1).
Proof. reflexivity. Qed.

Example float_abc : py_float (VStr "abc") = Raise ValueError.
Proof. reflexivity. Qed.

Example float_empty : py_float (VStr "") = Raise ValueError.
Proof. reflexivity. Qed.

Example float_bad_group : py_float (VStr "1__0") = Raise ValueError.
Proof. reflexivity. Qed.

Example float_none : py_float VNone = Raise TypeError.
Proof. reflexivity. Qed.

Example isdigit_12 : isdigit "12" = true.
Proof. reflexivity. Qed.

Example isdigit_7_5 : isdigit "7.5" = false.
Proof. reflexivity. Qed.

Example isdigit_empty : isdigit "" = false.
Proof. reflexivity. Qed.

(** ** Key equality is an equivalence *)

Lemma value_eqb_refl (a : value) : value_eqb a a = true.
Proof.
  destruct a as [|z|q|s]; simpl.
  - reflexivity.
  - apply Z.eqb_refl.
  - apply Qeq_bool_iff. reflexivity.
  - apply String.eqb_refl.
Qed.

Lemma value_eqb_sym (a b : value) : value_eqb a b = value_eqb b a.
Proof.
  destruct a as [|x|p|s], b as [|y|q|t]; simpl; try reflexivity.
  - apply Z.eqb_sym.
  - apply eq_true_iff_eq. rewrite !Qeq_bool_iff. split; intro H; now symmetry.
  - apply String.eqb_sym.
Qed.

Lemma value_eqb_class (a b : value) :
  value_eqb a b = true <-> same_class (key_class a) (key_class b).
Proof.
  destruct a as [|x|p|s], b as [|y|q|t]; simpl;
    try (split; [discriminate | contradiction]); try tauto.
  - rewrite Z.eqb_eq. unfold fofZ. now rewrite inject_Z_injective.
  - apply Qeq_bool_iff.
  - rewrite Qeq_bool_iff. split; intro H; now symmetry.
  - apply Qeq_bool_iff.
  - apply String.eqb_eq.
Qed.

Lemma value_eqb_trans (a b c : value) :
  value_eqb a b = true -> value_eqb b c = true -> value_eqb a c = true.
Proof.
  rewrite !value_eqb_class.
  destruct (key_class a) as [[p|s]|], (key_class b) as [[q|t]|],
    (key_class c) as [[r|u]|]; simpl; try tauto.
  - intros H1 H2. now rewrite H1.
  - congruence.
Qed.

Lemma value_eqb_false_l (a b c : value) :
  value_eqb a b = true -> value_eqb c a = false -> value_eqb c b = false.
Proof.
  intros Hab Hca. destruct (value_eqb c b) eqn:E; [|reflexivity].
  rewrite <- Hca. symmetry. apply value_eqb_trans with b; [exact E|].
  now rewrite value_eqb_sym.
Qed.

Lemma value_eqb_congr (a b c : value) :
  value_eqb a b = true -> value_eqb a c = value_eqb b c.
Proof.
  intros Hab. destruct (value_eqb b c) eqn:E.
  - now apply value_eqb_trans with b.
  - rewrite value_eqb_sym. apply value_eqb_false_l with b.
    + now rewrite value_eqb_sym.
    + now rewrite value_eqb_sym.
Qed.

Lemma filter_none {A} (p : A -> bool) (l : list A) :
  (forall x, In x l -> p x = false) -> filter p l = [].
Proof.
  induction l as [|x l IH]; simpl; intros H; [reflexivity|].
  rewrite (H x (or_introl eq_refl)). apply IH. intros y Hy. apply H. now right.
Qed.

(** ** Grouping *)

Section Grouping.

Context {A : Type} (key : A -> value).

Lemma group_by_snoc (xs : list A) (x : A) :
  group_by key (xs ++ [x]) = add_to_group key (group_by key xs) x.
Proof. unfold group_by. now rewrite fold_left_app. Qed.

Lemma add_to_group_perm (g : vmap (list A)) (x : A) :
  Permutation (List.concat (map snd (add_to_group key g x)))
    (x :: List.concat (map snd g)).
Proof.
  unfold add_to_group. induction g as [|[k l] g IH]; simpl.
  - constructor. constructor.
  - destruct (value_eqb (key x) k); simpl.
    + rewrite <- app_assoc. simpl.
      symmetry. apply Permutation_middle.
    + rewrite IH. symmetry. apply Permutation_middle.
Qed.

Lemma group_by_perm (xs : list A) :
  Permutation (List.concat (map snd (group_by key xs))) xs.
Proof.
  induction xs as [|x xs IH] using rev_ind.
  - constructor.
  - rewrite group_by_snoc, add_to_group_perm, IH.
    apply Permutation_cons_append.
Qed.

Lemma add_to_group_in (g : vmap (list A)) (x : A) (k : value) (l : list A) :
  distinct_keys g ->
  In (k, l) (add_to_group key g x) ->
  (value_eqb (key x) k = true /\
   ((exists l0, In (k, l0) g /\ l = l0 ++ [x]) \/
    (l = [x] /\ forall k' l', In (k', l') g -> value_eqb (key x) k' = false)))
  \/ (value_eqb (key x) k = false /\ In (k, l) g).
Proof.
  unfold add_to_group. induction g as [|[k0 l0] g IH]; simpl; intros Hd Hin.
  - destruct Hin as [E|[]]. inversion E; subst. left. split.
    + apply value_eqb_refl.
    + right. split; [reflexivity | intros ? ? []].
  - destruct Hd as [Hk0 Hd].
    destruct (value_eqb (key x) k0) eqn:E; simpl in Hin.
    + destruct Hin as [E1|Hin].
      * inversion E1; subst. left. split; [exact E|].
        left. exists l0. split; [now left | reflexivity].
      * right. split; [|now right].
        rewrite value_eqb_sym.
        apply value_eqb_false_l with k0.
        -- now rewrite value_eqb_sym.
        -- apply (Hk0 k l Hin).
    + destruct Hin as [E1|Hin].
      * inversion E1; subst. right. split; [exact E | now left].
      * destruct (IH Hd Hin) as [[Hk [[l1 [H1 H2]]|[H1 H2]]]|[Hk H1]].
        -- left. split; [exact Hk|]. left. exists l1.
           split; [now right | exact H2].
        -- left. split; [exact Hk|]. right. split; [exact H1|].
           intros k' l' [E2|Hin']; [inversion E2; subst; exact E|].
           apply (H2 k' l' Hin').
        -- right. split; [exact Hk | now right].
Qed.

Lemma add_to_group_keys (g : vmap (list A)) (x : A) (k : value) (l : list A) :
  In (k, l) (add_to_group key g x) ->
  (exists l0, In (k, l0) g) \/
  (k = key x /\ forall k' l', In (k', l') g -> value_eqb (key x) k' = false).
Proof.
  unfold add_to_group. induction g as [|[k0 l0] g IH]; simpl; intros Hin.
  - destruct Hin as [E|[]]. inversion E; subst. right.
    split; [reflexivity | intros ? ? []].
  - destruct (value_eqb (key x) k0) eqn:E; simpl in Hin.
    + destruct Hin as [E1|Hin].
      * inversion E1; subst. left. exists l0. now left.
      * left. exists l. now right.
    + destruct Hin as [E1|Hin].
      * inversion E1; subst. left. exists l. now left.
      * destruct (IH Hin) as [[l1 H1]|[H1 H2]].
        -- left. exists l1. now right.
        -- right. split; [exact H1|].
           intros k' l' [E2|Hin']; [inversion E2; subst; exact E|].
           apply (H2 k' l' Hin').
Qed.

Lemma add_to_group_distinct (g : vmap (list A)) (x : A) :
  distinct_keys g -> distinct_keys (add_to_group key g x).
Proof.
  unfold add_to_group. induction g as [|[k0 l0] g IH]; simpl; intros Hd.
  - split; [intros ? ? [] | exact I].
  - destruct Hd as [Hk0 Hd].
    destruct (value_eqb (key x) k0) eqn:E; simpl.
    + split; assumption.
    + split; [|now apply IH].
      intros k' a Hin.
      destruct (add_to_group_keys g x k' a Hin) as [[l1 H1]|[H1 _]].
      * apply (Hk0 k' l1 H1).
      * subst k'. exact E.
Qed.

Lemma add_to_group_has (g : vmap (list A)) (x : A) :
  exists k l, In (k, l) (add_to_group key g x) /\ value_eqb (key x) k = true.
Proof.
  unfold add_to_group. induction g as [|[k0 l0] g IH]; simpl.
  - exists (key x), [x]. split; [now left | apply value_eqb_refl].
  - destruct (value_eqb (key x) k0) eqn:E.
    + exists k0, (l0 ++ [x]). split; [now left | exact E].
    + destruct IH as [k [l [H1 H2]]]. exists k, l. split; [now right|exact H2].
Qed.

Lemma add_to_group_keeps (g : vmap (list A)) (x : A) (k : value) (l : list A) :
  In (k, l) g -> exists l', In (k, l') (add_to_group key g x).
Proof.
  unfold add_to_group. induction g as [|[k0 l0] g IH]; simpl; intros Hin.
  - destruct Hin.
  - destruct (value_eqb (key x) k0) eqn:E; destruct Hin as [E1|Hin].
    + inversion E1; subst. exists (l ++ [x]). now left.
    + exists l. now right.
    + inversion E1; subst. exists l. now left.
    + destruct (IH Hin) as [l' H']. exists l'. now right.
Qed.

Lemma group_by_groups (xs : list A) : groups_of key xs (group_by key xs).
Proof.
  induction xs as [|x xs [Hd [Hg Hc]]] using rev_ind.
  - repeat split; simpl; try tauto; intros; contradiction.
  - rewrite group_by_snoc. split; [now apply add_to_group_distinct|]. split.
    + intros k l Hin.
      destruct (add_to_group_in _ _ _ _ Hd Hin)
        as [[Hk [[l0 [H1 H2]]|[H1 H2]]]|[Hk H1]].
      * destruct (Hg k l0 H1) as [_ Hl0]. subst l. split.
        -- intro E. now apply app_eq_nil in E as [_ E].
        -- rewrite filter_app. simpl. rewrite Hk. now rewrite <- Hl0.
      * subst l. split; [discriminate|].
        rewrite filter_app. simpl. rewrite Hk.
        rewrite filter_none; [reflexivity|].
        intros y Hy. destruct (Hc y Hy) as [k' [l' [Hin' Hyk]]].
        rewrite value_eqb_sym, <- (value_eqb_congr _ _ _ Hk), value_eqb_sym.
        rewrite (value_eqb_congr _ _ _ Hyk), value_eqb_sym.
        apply (H2 k' l' Hin').
      * destruct (Hg k l H1) as [Hne Hl]. split; [exact Hne|].
        rewrite filter_app. simpl. rewrite Hk. now rewrite app_nil_r.
    + intros y Hy. apply in_app_or in Hy as [Hy|[Hy|[]]].
      * destruct (Hc y Hy) as [k [l [Hin Hk]]].
        destruct (add_to_group_keeps _ x _ _ Hin) as [l' Hin'].
        now exists k, l'.
      * subst y. apply add_to_group_has.
Qed.

End Grouping.

Lemma distinct_keys_same {A} (g : vmap A) (k1 k2 : value) (a1 a2 : A) :
  distinct_keys g -> In (k1, a1) g -> In (k2, a2) g ->
  value_eqb k1 k2 = true -> (k1, a1) = (k2, a2).
Proof.
  induction g as [|[k a] g IH]; simpl; intros Hd H1 H2 E; [contradiction|].
  destruct Hd as [Hk Hd]. destruct H1 as [H1|H1], H2 as [H2|H2].
  - congruence.
  - inversion H1; subst. rewrite value_eqb_sym in E.
    rewrite (Hk _ _ H2) in E. discriminate.
  - inversion H2; subst. rewrite (Hk _ _ H1) in E. discriminate.
  - now apply IH.
Qed.

Lemma group_by_exact {A} (key : A -> value) (xs : list A) :
  exact_partition key xs (group_by key xs).
Proof.
  destruct (group_by_groups key xs) as [Hd [Hg Hc]].
  split; [apply group_by_perm|]. split; [exact Hd|]. split; [exact Hg|]. split.
  - intros x Hx. destruct (Hc x Hx) as [k [l [Hin Hk]]].
    exists k, l. split; [exact Hin|].
    destruct (Hg k l Hin) as [_ Hl]. rewrite Hl. apply filter_In. now split.
  - intros x k1 l1 k2 l2 H1 H2 Hx1 Hx2.
    apply (distinct_keys_same _ _ _ _ _ Hd H1 H2).
    destruct (Hg _ _ H1) as [_ E1]. destruct (Hg _ _ H2) as [_ E2].
    rewrite E1 in Hx1. rewrite E2 in Hx2.
    apply filter_In in Hx1 as [_ Hx1]. apply filter_In in Hx2 as [_ Hx2].
    rewrite <- (value_eqb_congr _ _ _ Hx1). exact Hx2.
Qed.

Lemma group_of_key {A} (key : A -> value) (xs : list A) (x : A) (s : string) :
  In x xs -> key x = VStr s ->
  exists l, In (VStr s, l) (group_by key xs) /\ In x l.
Proof.
  intros Hx Hs.
  destruct (group_by_groups key xs) as [_ [Hg Hc]].
  destruct (Hc x Hx) as [k [l [Hin Hk]]].
  rewrite Hs in Hk. destruct k as [|z|q|t]; simpl in Hk; try discriminate.
  apply String.eqb_eq in Hk. subst t.
  exists l. split; [exact Hin|].
  destruct (Hg _ _ Hin) as [_ Hl]. rewrite Hl. apply filter_In.
  split; [exact Hx|]. rewrite Hs. apply value_eqb_refl.
Qed.

(** C4. Grouping by participant and grouping by residence each split the
    records of a non-empty collection exactly: the groups together hold
    every record as often as the input does, every record is in one group
    and one only, no group is empty, and a record that has none of the
    candidate key fields is in the group named "unknown". *)
Theorem grouping_is_an_exact_partition :
  forall (h : list dict) (data : list ref),
    data <> [] ->
    let by_participant := fun r => participant_key (deref h r) in
    let by_residence := fun r => residence_key (deref h r) in
    exact_partition by_participant data (group_by by_participant data) /\
    exact_partition by_residence data (group_by by_residence data) /\
    (forall r, In r data ->
       dict_mem "participant_id" (deref h r) = false ->
       dict_mem "record_id" (deref h r) = false ->
       exists l,
         In (VStr "unknown", l) (group_by by_participant data) /\ In r l) /\
    (forall r, In r data ->
       dict_mem "residence_type" (deref h r) = false ->
       dict_mem "location" (deref h r) = false ->
       exists l,
         In (VStr "unknown", l) (group_by by_residence data) /\ In r l).
Proof.
  intros h data _ by_participant by_residence.
  split; [apply group_by_exact|]. split; [apply group_by_exact|].
  split; intros r Hr H1 H2; apply group_of_key; try exact Hr.
  - unfold by_participant, participant_key, get_or, dict_mem in *.
    destruct (dict_get "participant_id" (deref h r)); [discriminate|].
    destruct (dict_get "record_id" (deref h r)); [discriminate|reflexivity].
  - unfold by_residence, residence_key, get_or, dict_mem in *.
    destruct (dict_get "residence_type" (deref h r)); [discriminate|].
    destruct (dict_get "location" (deref h r)); [discriminate|reflexivity].
Qed.

(** The partition on three records: two of participant "P1" and one with
    no key field. *)
Lemma grouping_is_an_exact_partition_witness :
  let h := [[("participant_id", VStr "P1")]; [("age", VInt 70)];
            [("participant_id", VStr "P1")]] in
  let by_participant := fun r => participant_key (deref h r) in
  group_by by_participant [0; 1; 2]%nat
    = [(VStr "P1", [0; 2]%nat); (VStr "unknown", [1%nat])] /\
  exact_partition by_participant [0; 1; 2]%nat
    (group_by by_participant [0; 1; 2]%nat).
Proof.
  split; [reflexivity|].
  apply (grouping_is_an_exact_partition
           [[("participant_id", VStr "P1")]; [("age", VInt 70)];
            [("participant_id", VStr "P1")]] [0; 1; 2]%nat).
  discriminate.
Defined.

(** ** Maps keyed by a scalar *)

Lemma vmap_upd_fresh {A} (k : value) (d : A) (f : A -> A) (m : vmap A) :
  vmap_get k m = None -> vmap_upd k d f m = m ++ [(k, f d)].
Proof.
  induction m as [|[k' a] m IH]; simpl; [reflexivity|].
  destruct (value_eqb k k'); [discriminate|].
  intros H. now rewrite IH.
Qed.

Lemma vmap_get_app {A} (k : value) (m1 m2 : vmap A) :
  vmap_get k (m1 ++ m2) =
  match vmap_get k m1 with Some a => Some a | None => vmap_get k m2 end.
Proof.
  induction m1 as [|[k' a] m1 IH]; simpl; [reflexivity|].
  now destruct (value_eqb k k').
Qed.

(** ** Trends *)

Section Trends.

Variable set_order : list string -> list string.
Hypothesis set_order_listing : set_listing set_order.
Variable records : list dict.

Lemma NoDup_firstn {A} (n : nat) (l : list A) : NoDup l -> NoDup (firstn n l).
Proof.
  intros H. rewrite <- (firstn_skipn n l) in H.
  now apply NoDup_app_remove_r in H.
Qed.

Lemma In_firstn {A} (n : nat) (l : list A) (x : A) :
  In x (firstn n l) -> In x l.
Proof.
  intros H. rewrite <- (firstn_skipn n l). apply in_or_app. now left.
Qed.

Lemma trend_fields_NoDup : NoDup (trend_fields set_order records).
Proof. apply NoDup_firstn, set_order_listing. Qed.

Lemma trend_fields_length :
  (List.length (trend_fields set_order records) <= 5)%nat.
Proof. apply firstn_le_length. Qed.

Lemma trend_fields_discovered (f : string) :
  In f (trend_fields set_order records) -> In f (discovered_fields records).
Proof.
  intros H. apply In_firstn in H.
  destruct (set_order_listing (discovered_fields records)) as [_ Hl].
  now apply Hl.
Qed.

Lemma discovered_candidate (f : string) :
  In f (discovered_fields records) <->
  exists record, In record records /\ holds_candidate f record.
Proof.
  unfold discovered_fields, holds_candidate. rewrite in_flat_map. split.
  - intros [record [Hr Hf]]. exists record. split; [exact Hr|].
    apply in_flat_map in Hf as [[k v] [Hkv Hf]]. simpl in Hf.
    destruct (is_candidate v) eqn:E; [|contradiction].
    destruct Hf as [Hf|[]]. subst k. exists v. split; [exact Hkv|].
    destruct v as [|z|q|s]; simpl in E; try discriminate; eauto 6.
  - intros [record [Hr [v [Hkv Hv]]]]. exists record. split; [exact Hr|].
    apply in_flat_map. exists (f, v). split; [exact Hkv|]. simpl.
    destruct Hv as [[z Hv]|[[q Hv]|[s [Hv Hs]]]]; subst v; simpl;
      try rewrite Hs; now left.
Qed.

Lemma trend_items_get_None (fields : list string) (f : string) :
  ~ In f fields -> vmap_get (VStr f) (trend_items records fields) = None.
Proof.
  induction fields as [|g fields IH]; simpl; intros Hn; [reflexivity|].
  unfold trend_items in *. simpl. rewrite vmap_get_app.
  rewrite IH by tauto.
  destruct (trend_entry (field_values g records)); simpl; [|reflexivity].
  destruct (String.eqb f g) eqn:E; [|reflexivity].
  apply String.eqb_eq in E. subst. tauto.
Qed.

Lemma trends_fold (fields : list string) (acc : vmap doc) :
  NoDup fields ->
  (forall f, In f fields -> vmap_get (VStr f) acc = None) ->
  fold_left (fun trends field =>
    match trend_entry (field_values field records) with
    | Some e => vmap_set (VStr field) e trends
    | None => trends
    end) fields acc = acc ++ trend_items records fields.
Proof.
  revert acc. induction fields as [|g fields IH]; simpl; intros acc Hn Hacc.
  - now rewrite app_nil_r.
  - inversion Hn as [|? ? Hg Hn']; subst.
    unfold trend_items. simpl. fold (trend_items records fields).
    destruct (trend_entry (field_values g records)) as [e|].
    + unfold vmap_set. rewrite vmap_upd_fresh by (apply Hacc; now left).
      rewrite IH; [now rewrite <- app_assoc | exact Hn' |].
      intros f Hf. rewrite vmap_get_app, Hacc by now right. simpl.
      destruct (String.eqb f g) eqn:E; [|reflexivity].
      apply String.eqb_eq in E. subst. contradiction.
    + apply IH; [exact Hn'|]. intros f Hf. apply Hacc. now right.
Qed.

(** [_analyze_trends] in closed form. *)
Lemma analyze_trends_items :
  _analyze_trends set_order records =
  trend_items records (trend_fields set_order records).
Proof.
  unfold _analyze_trends. rewrite trends_fold; [reflexivity | |].
  - apply trend_fields_NoDup.
  - reflexivity.
Qed.

Lemma trend_items_get (fields : list string) (f : string) :
  NoDup fields -> In f fields ->
  vmap_get (VStr f) (trend_items records fields) =
  trend_entry (field_values f records).
Proof.
  induction fields as [|g fields IH]; simpl; intros Hn Hin; [contradiction|].
  inversion Hn as [|? ? Hg Hn']; subst.
  unfold trend_items. simpl. fold (trend_items records fields).
  rewrite vmap_get_app. destruct Hin as [E|Hin].
  - subst g. destruct (trend_entry (field_values f records)); simpl.
    + now rewrite String.eqb_refl.
    + now apply trend_items_get_None.
  - assert (Hfg : String.eqb f g = false).
    { apply String.eqb_neq. intro; subst. contradiction. }
    destruct (trend_entry (field_values g records)); simpl;
      [rewrite Hfg|]; now apply IH.
Qed.

Lemma trend_items_keys (fields : list string) (k : value) :
  In k (map fst (trend_items records fields)) ->
  exists f, k = VStr f /\ In f fields /\
            trend_entry (field_values f records) <> None.
Proof.
  unfold trend_items. rewrite in_map_iff.
  intros [[k' e] [Hk Hin]]. simpl in Hk. subst k'.
  apply in_flat_map in Hin as [f [Hf Hin]].
  destruct (trend_entry (field_values f records)) eqn:E; [|contradiction].
  destruct Hin as [Hin|[]]. inversion Hin; subst.
  exists f. repeat split; [exact Hf | congruence].
Qed.

Lemma trend_items_length (fields : list string) :
  (List.length (trend_items records fields) <= List.length fields)%nat.
Proof.
  unfold trend_items. induction fields as [|g fields IH]; simpl; [lia|].
  rewrite length_app.
  destruct (trend_entry (field_values g records)); simpl; lia.
Qed.

End Trends.

Lemma dedup_listing (l : list string) :
  NoDup (dedup l) /\ forall x, In x (dedup l) <-> In x l.
Proof.
  induction l as [|a l [IHn IHi]]; simpl.
  - split; [constructor | tauto].
  - split.
    + constructor.
      * rewrite filter_In, String.eqb_refl. simpl. intros [_ H]. discriminate.
      * now apply NoDup_filter.
    + intros x. rewrite filter_In, IHi. split.
      * tauto.
      * intros [E|Hx]; [now left|].
        destruct (String.eqb a x) eqn:E.
        -- apply String.eqb_eq in E. now left.
        -- right. now split.
Qed.

Lemma discovery_order_listing : set_listing discovery_order.
Proof. intros l. apply dedup_listing. Qed.

Lemma reverse_order_listing : set_listing reverse_order.
Proof.
  intros l. unfold reverse_order. destruct (dedup_listing l) as [Hn Hi]. split.
  - now apply NoDup_rev.
  - intros x. rewrite <- in_rev. apply Hi.
Qed.

Lemma listing_length (order : list string -> list string) (l : list string) :
  set_listing order -> List.length (order l) = List.length (dedup l).
Proof.
  intros H. destruct (H l) as [Hn Hi]. destruct (dedup_listing l) as [Dn Di].
  apply Permutation_length, NoDup_Permutation; try assumption.
  intros x. now rewrite Hi, Di.
Qed.

Lemma listing_nil (order : list string -> list string) :
  set_listing order -> order [] = [].
Proof.
  intros H. destruct (H []) as [_ Hi].
  destruct (order []) as [|x r]; [reflexivity|].
  destruct (proj1 (Hi x) (or_introl eq_refl)).
Qed.

(** A field without an entry for lack of values is not a key of the
    result. *)
Lemma no_entry_no_key (order : list string -> list string)
  (records : list dict) (field : string) :
  set_listing order ->
  trend_entry (field_values field records) = None ->
  vmap_get (VStr field) (_analyze_trends order records) = None.
Proof.
  intros Ho He. rewrite (analyze_trends_items order Ho).
  destruct (in_dec string_dec field (trend_fields order records)) as [Hin|Hn].
  - rewrite trend_items_get;
      [exact He | now apply trend_fields_NoDup | exact Hin].
  - now apply trend_items_get_None.
Qed.

Lemma fgtb_lt (a b : Q) : fgtb a b = true <-> (b < a)%Q.
Proof.
  unfold fgtb. rewrite negb_true_iff. split.
  - intros H. apply Qnot_le_lt. intro Hle.
    apply Qle_bool_iff in Hle. congruence.
  - intros H. destruct (Qle_bool a b) eqn:E; [|reflexivity].
    apply Qle_bool_iff in E. now apply Qlt_not_le in H.
Qed.

Lemma fzero_eq (a : Q) : fzero a = true <-> (a == 0)%Q.
Proof. apply Qeq_bool_iff. Qed.

Lemma listing_single (order : list string -> list string) (x : string)
  (l : list string) :
  set_listing order -> In x l -> (forall y, In y l -> y = x) ->
  order l = [x].
Proof.
  intros H Hx Hall. destruct (H l) as [Hn Hi].
  destruct (order l) as [|a [|b r]].
  - apply Hi in Hx. contradiction.
  - f_equal. apply Hall, Hi. now left.
  - exfalso.
    assert (Ha : a = x) by (apply Hall, Hi; now left).
    assert (Hb : b = x) by (apply Hall, Hi; right; now left).
    subst. inversion Hn as [|? ? Hnot _]; subst. apply Hnot. now left.
Qed.

(** The trends of records that hold one field only. *)
Lemma trends_of_one_field (order : list string -> list string)
  (records : list dict) (x : string) :
  set_listing order ->
  In x (discovered_fields records) ->
  (forall y, In y (discovered_fields records) -> y = x) ->
  _analyze_trends order records =
  match trend_entry (field_values x records) with
  | Some e => [(VStr x, e)]
  | None => []
  end.
Proof.
  intros Ho Hx Hall. unfold _analyze_trends, trend_fields.
  rewrite (listing_single order x _ Ho Hx Hall). cbn [firstn fold_left].
  destruct (trend_entry (field_values x records)); reflexivity.
Qed.

(** C5. Fewer than two values give no trend entry, and the field is then
    not a key of the trends; [5, 5] gives "decreasing" with change 0;
    [0, 10] gives "increasing" with change 0; with two values or more the
    direction is "increasing" when the last value is greater than the first
    and "decreasing" otherwise, and the change is
    (last - first) / first * 100 when the first value is not zero, 0 when it
    is.  The trends hold that entry for every field the loop visits: two
    records with 5 in one field give that field "decreasing" and 0, two
    records with "0" and 10 give it "increasing" and 0, whatever the order
    of the set.  The values of a field are those of its truthy values that
    [float] converts; the statements about them are for records whose texts
    are ASCII and are not read by [float] as [inf] or [nan]. *)
Theorem trend_of_first_and_last :
  (forall values, (List.length values < 2)%nat -> trend_entry values = None) /\
  (forall order records field,
     set_listing order ->
     finite_records records = true ->
     (List.length (field_values field records) < 2)%nat ->
     vmap_get (VStr field) (_analyze_trends order records) = None) /\
  trend_entry [5 # 1; 5 # 1] =
    Some (DDict [skey "trend" (DStr "decreasing");
                 skey "change_percent" (DFloat 0);
                 skey "values" (DList [DFloat (5 # 1); DFloat (5 # 1)])]) /\
  trend_entry [0 # 1; 10 # 1] =
    Some (DDict [skey "trend" (DStr "increasing");
                 skey "change_percent" (DVal (VInt 0));
                 skey "values" (DList [DFloat (0 # 1); DFloat (10 # 1)])]) /\
  (forall values,
     (2 <= List.length values)%nat ->
     let first := hd 0%Q values in
     let final := last values 0%Q in
     exists e,
       trend_entry values = Some e /\
       ((first < final)%Q -> doc_get "trend" e = Some (DStr "increasing")) /\
       (~ (first < final)%Q -> doc_get "trend" e = Some (DStr "decreasing")) /\
       (~ (first == 0)%Q ->
          exists c, doc_get "change_percent" e = Some (DFloat c) /\
                    (c == (final - first) / first * (100 # 1))%Q) /\
       ((first == 0)%Q -> doc_get "change_percent" e = Some (DVal (VInt 0)))) /\
  (forall order records field,
     set_listing order ->
     finite_records records = true ->
     In field (trend_fields order records) ->
     (2 <= List.length (field_values field records))%nat ->
     let first := hd 0%Q (field_values field records) in
     let final := last (field_values field records) 0%Q in
     exists e,
       vmap_get (VStr field) (_analyze_trends order records) = Some e /\
       trend_entry (field_values field records) = Some e /\
       ((first < final)%Q -> doc_get "trend" e = Some (DStr "increasing")) /\
       (~ (first < final)%Q -> doc_get "trend" e = Some (DStr "decreasing")) /\
       (~ (first == 0)%Q ->
          exists c, doc_get "change_percent" e = Some (DFloat c) /\
                    (c == (final - first) / first * (100 # 1))%Q) /\
       ((first == 0)%Q -> doc_get "change_percent" e = Some (DVal (VInt 0)))) /\
  (forall order,
     set_listing order ->
     _analyze_trends order [[("x", VInt 5)]; [("x", VInt 5)]] =
       [(VStr "x",
         DDict [skey "trend" (DStr "decreasing");
                skey "change_percent" (DFloat 0);
                skey "values" (DList [DFloat (5 # 1); DFloat (5 # 1)])])]) /\
  (forall order,
     set_listing order ->
     _analyze_trends order [[("x", VStr "0")]; [("x", VInt 10)]] =
       [(VStr "x",
         DDict [skey "trend" (DStr "increasing");
                skey "change_percent" (DVal (VInt 0));
                skey "values" (DList [DFloat (0 # 1); DFloat (10 # 1)])])]).
Proof.
  assert (Hshort : forall values,
             (List.length values < 2)%nat -> trend_entry values = None).
  { intros values H. unfold trend_entry.
    destruct (Nat.ltb_spec 1 (List.length values)); [lia | reflexivity]. }
  assert (Hlong : forall values,
     (2 <= List.length values)%nat ->
     let first := hd 0%Q values in
     let final := last values 0%Q in
     exists e,
       trend_entry values = Some e /\
       ((first < final)%Q -> doc_get "trend" e = Some (DStr "increasing")) /\
       (~ (first < final)%Q -> doc_get "trend" e = Some (DStr "decreasing")) /\
       (~ (first == 0)%Q ->
          exists c, doc_get "change_percent" e = Some (DFloat c) /\
                    (c == (final - first) / first * (100 # 1))%Q) /\
       ((first == 0)%Q -> doc_get "change_percent" e = Some (DVal (VInt 0)))).
  { intros values H first final. unfold trend_entry.
    destruct (Nat.ltb_spec 1 (List.length values)); [|lia].
    fold first final. eexists. split; [reflexivity|].
    unfold doc_get, skey. simpl. repeat split.
    - intros Hlt. apply fgtb_lt in Hlt. now rewrite Hlt.
    - intros Hn. destruct (fgtb final first) eqn:E; [|reflexivity].
      apply fgtb_lt in E. contradiction.
    - intros Hnz. destruct (fzero first) eqn:E.
      + apply fzero_eq in E. contradiction.
      + simpl. eexists. split; [reflexivity|].
        unfold fmul, fdiv, fsub. now rewrite !Qred_correct.
    - intros Hz. apply fzero_eq in Hz. now rewrite Hz. }
  split; [exact Hshort|]. split.
  { intros order records field Ho _ H. apply no_entry_no_key; auto. }
  split; [reflexivity|]. split; [reflexivity|].
  split; [exact Hlong|]. split.
  { intros order records field Ho _ Hin H first final.
    destruct (Hlong _ H) as [e [He Hrest]]. exists e.
    split; [|split; [exact He | exact Hrest]].
    rewrite (analyze_trends_items order Ho), <- He.
    apply trend_items_get; [now apply trend_fields_NoDup | exact Hin]. }
  split; intros order Ho.
  - rewrite (trends_of_one_field order _ "x" Ho); [reflexivity | now left |].
    intros y [Hy|[Hy|[]]]; now subst.
  - rewrite (trends_of_one_field order _ "x" Ho); [reflexivity | now left |].
    intros y [Hy|[Hy|[]]]; now subst.
Qed.

(** The trend of [2, 3]: increasing, by 50 percent, also as the entry of a
    field of two records; no trend for [7], nor for a field that one record
    alone holds. *)
Lemma trend_of_first_and_last_witness :
  (exists e c,
     trend_entry [2 # 1; 3 # 1] = Some e /\
     doc_get "trend" e = Some (DStr "increasing") /\
     doc_get "change_percent" e = Some (DFloat c) /\ (c == 50 # 1)%Q) /\
  trend_entry [7 # 1] = None /\
  vmap_get (VStr "x")
    (_analyze_trends discovery_order [[("x", VInt 7)]; [("y", VInt 1)]])
    = None /\
  (exists e c,
     vmap_get (VStr "x")
       (_analyze_trends discovery_order
          [[("x", VInt 2); ("y", VStr "n/a")]; [("x", VStr "3")]])
       = Some e /\
     doc_get "trend" e = Some (DStr "increasing") /\
     doc_get "change_percent" e = Some (DFloat c) /\ (c == 50 # 1)%Q) /\
  map fst (_analyze_trends reverse_order [[("x", VInt 5)]; [("x", VInt 5)]])
    = [VStr "x"].
Proof.
  destruct trend_of_first_and_last
    as [Hshort [Hkey [_ [_ [H [Hfield [H55 _]]]]]]].
  split; [|split; [|split; [|split]]].
  - destruct (H [2 # 1; 3 # 1]) as [e [He [Hup [_ [Hc _]]]]].
    + simpl. lia.
    + destruct Hc as [c [Hc Hv]].
      * simpl. intro E. discriminate E.
      * exists e, c. split; [exact He|]. split.
        -- apply Hup. reflexivity.
        -- split; [exact Hc|]. rewrite Hv. reflexivity.
  - apply Hshort. simpl. lia.
  - apply Hkey; [exact discovery_order_listing | reflexivity |]. simpl. lia.
  - destruct (Hfield discovery_order
                [[("x", VInt 2); ("y", VStr "n/a")]; [("x", VStr "3")]] "x")
      as [e [He [_ [Hup [_ [Hc _]]]]]].
    + exact discovery_order_listing.
    + reflexivity.
    + simpl. tauto.
    + simpl. lia.
    + destruct Hc as [c [Hc Hv]].
      * simpl. intro E. discriminate E.
      * exists e, c. split; [exact He|]. split.
        -- apply Hup. reflexivity.
        -- split; [exact Hc|]. rewrite Hv. reflexivity.
  - rewrite (H55 reverse_order reverse_order_listing). reflexivity.
Defined.

(** C6, as stated, fails.  With six numeric fields [a] to [f] and a set
    that lists its elements last-discovered first, the five fields taken are
    [f] to [b], not the first five discovered; with a set that lists them in
    discovery order they are [a] to [e].  Both orders are listings of the
    set, so the five fields are not fixed by the input. *)
Lemma trend_cap_not_discovery_order :
  set_listing reverse_order /\
  set_listing discovery_order /\
  firstn 5 (dedup (discovered_fields six_fields)) = ["a"; "b"; "c"; "d"; "e"] /\
  map fst (_analyze_trends reverse_order six_fields)
    = [VStr "f"; VStr "e"; VStr "d"; VStr "c"; VStr "b"] /\
  map fst (_analyze_trends discovery_order six_fields)
    = [VStr "a"; VStr "b"; VStr "c"; VStr "d"; VStr "e"] /\
  ~ (forall order, set_listing order ->
       forall records,
         trend_fields order records
           = firstn 5 (dedup (discovered_fields records))).
Proof.
  split; [exact reverse_order_listing|].
  split; [exact discovery_order_listing|].
  split; [reflexivity|]. split; [reflexivity|]. split; [reflexivity|].
  intros H. specialize (H reverse_order reverse_order_listing six_fields).
  discriminate H.
Qed.

(** C6, amended. The fields visited by the trend loop are at most five, all
    different, each one held by some record with a number or a string of
    digits; they are the first five in the order in which the set of
    candidate names lists them, and all the candidate names when those are
    five or fewer.  The trends have an entry for each visited field with two
    values or more, in that order, and for no other field. *)
Theorem trend_cap_follows_set_order :
  forall order, set_listing order ->
  forall records,
    let fields := trend_fields order records in
    fields = firstn 5 (order (discovered_fields records)) /\
    (List.length fields <= 5)%nat /\
    NoDup fields /\
    (forall f, In f fields ->
       exists record, In record records /\ holds_candidate f record) /\
    ((List.length (dedup (discovered_fields records)) <= 5)%nat ->
     forall f, In f (discovered_fields records) -> In f fields) /\
    _analyze_trends order records = trend_items records fields /\
    (List.length (_analyze_trends order records) <= 5)%nat.
Proof.
  intros order Ho records fields.
  split; [reflexivity|].
  split; [apply trend_fields_length|].
  split; [now apply trend_fields_NoDup|].
  split.
  { intros f Hf. apply discovered_candidate.
    now apply (trend_fields_discovered order Ho). }
  split.
  { intros Hlen f Hf. unfold fields, trend_fields.
    rewrite firstn_all2 by (rewrite (listing_length order _ Ho); exact Hlen).
    now apply Ho. }
  split; [now apply analyze_trends_items|].
  rewrite (analyze_trends_items order Ho).
  etransitivity; [apply trend_items_length | apply trend_fields_length].
Qed.

(** On the six-field sample, under the reversed listing. *)
Lemma trend_cap_follows_set_order_witness :
  trend_fields reverse_order six_fields = ["f"; "e"; "d"; "c"; "b"] /\
  _analyze_trends reverse_order six_fields
    = trend_items six_fields (trend_fields reverse_order six_fields).
Proof.
  split; [reflexivity|].
  apply (trend_cap_follows_set_order reverse_order reverse_order_listing
           six_fields).
Defined.

(** C9. A field has a trend only if some record holds it as an [int], a
    [float] or a string made of digits.  A field that every record holds
    as a string that is not made of digits is not visited and has no trend,
    even when [float] reads those strings: "7.5" and "-3" are not made of
    digits, [float] reads them as 7.5 and -3, two such values would make a
    trend entry, and the trends of two records holding them are empty. *)
Theorem trend_candidates_need_digits :
  forall order, set_listing order ->
  forall records f,
    (In (VStr f) (map fst (_analyze_trends order records)) ->
     exists record, In record records /\ holds_candidate f record) /\
    ((forall record v, In record records -> In (f, v) record ->
        exists s, v = VStr s /\ isdigit s = false) ->
     ~ In f (trend_fields order records) /\
     vmap_get (VStr f) (_analyze_trends order records) = None) /\
    (isdigit "7.5" = false /\ isdigit "-3" = false /\
     py_float (VStr "7.5") = Ok (15 # 2) /\
     py_float (VStr "-3") = Ok (-3 # 1) /\
     field_values "x" [[("x", VStr "7.5")]; [("x", VStr "-3")]]
       = [15 # 2; -3 # 1] /\
     trend_entry [15 # 2; -3 # 1] <> None /\
     _analyze_trends order [[("x", VStr "7.5")]; [("x", VStr "-3")]] = []).
Proof.
  intros order Ho records f. split; [|split].
  - intros Hin. rewrite (analyze_trends_items order Ho) in Hin.
    apply trend_items_keys in Hin as [g [Hg [Hin _]]].
    inversion Hg; subst g.
    apply discovered_candidate. now apply (trend_fields_discovered order Ho).
  - intros Hall.
    assert (Hn : ~ In f (trend_fields order records)).
    { intros Hin. apply (trend_fields_discovered order Ho) in Hin.
      apply discovered_candidate in Hin as [record [Hr [v [Hv Hc]]]].
      destruct (Hall record v Hr Hv) as [s [Hs Hd]]. subst v.
      destruct Hc as [[z Hc]|[[q Hc]|[s' [Hc Hd']]]]; try discriminate.
      inversion Hc; subst. congruence. }
    split; [exact Hn|].
    rewrite (analyze_trends_items order Ho). now apply trend_items_get_None.
  - repeat split; try reflexivity; try discriminate.
    rewrite (analyze_trends_items order Ho).
    unfold trend_fields. simpl. now rewrite (listing_nil order Ho).
Qed.

(** On two records that hold [x] as "7.5" and "-3", in discovery order. *)
Lemma trend_candidates_need_digits_witness :
  ~ In "x" (trend_fields discovery_order
              [[("x", VStr "7.5")]; [("x", VStr "-3")]]) /\
  vmap_get (VStr "x")
    (_analyze_trends discovery_order
       [[("x", VStr "7.5")]; [("x", VStr "-3")]]) = None.
Proof.
  apply (trend_candidates_need_digits discovery_order discovery_order_listing
           [[("x", VStr "7.5")]; [("x", VStr "-3")]] "x").
  intros record v [Hr|[Hr|[]]] Hv; subst record;
    destruct Hv as [Hv|[]]; inversion Hv; subst; eexists; split; reflexivity.
Defined.

(** ** The empty collection *)

Lemma init_empty (h : list dict) :
  self_data (__init__ h None) = [] /\ self_data (__init__ h (Some [])) = [].
Proof. split; reflexivity. Qed.

(** C2, as stated, fails: on the empty collection the longitudinal analysis
    returns a document of two keys, "message" and "participants". *)
Lemma longitudinal_empty_has_two_keys :
  exists d,
    run (analyze_longitudinal_data discovery_order no_dates no_text) []
      = Ok d /\
    doc_keys d = [VStr "message"; VStr "participants"] /\
    doc_keys d <> [VStr "message"].
Proof.
  eexists. split; [reflexivity|]. split; [reflexivity | discriminate].
Qed.

(** C2, amended. On an empty collection the utilization, sleep, medication
    and residence analyses return a document whose only key is "message";
    the longitudinal analysis returns the message and, under
    "participants", an empty list.  The state is left as it was. *)
Theorem empty_collection_documents :
  forall order to_datetime strftime (s : state),
    self_data s = [] ->
    analyze_longitudinal_data order to_datetime strftime s
      = (Ok (DDict [skey "message" (DStr "Nenhum dado disponível");
                    skey "participants" (DList [])]), s) /\
    analyze_healthcare_utilization s
      = (Ok (DDict [skey "message" (DStr "Nenhum dado disponível")]), s) /\
    analyze_sleep_patterns s
      = (Ok (DDict [skey "message" (DStr "Nenhum dado disponível")]), s) /\
    analyze_medication_adherence s
      = (Ok (DDict [skey "message" (DStr "Nenhum dado disponível")]), s) /\
    analyze_residence_comparison s
      = (Ok (DDict [skey "message" (DStr "Nenhum dados disponível")]), s).
Proof.
  intros order to_datetime strftime s H.
  unfold analyze_longitudinal_data, analyze_healthcare_utilization,
    analyze_sleep_patterns, analyze_medication_adherence,
    analyze_residence_comparison, reads, bind, read_data, ret.
  rewrite H. repeat split.
Qed.

(** The engine built with no data, and the one built with an empty list. *)
Lemma empty_collection_documents_witness :
  doc_keys_of (analyze_sleep_patterns (__init__ [] None))
    = [VStr "message"] /\
  doc_keys_of (analyze_residence_comparison (__init__ [] (Some [])))
    = [VStr "message"].
Proof.
  destruct (empty_collection_documents discovery_order no_dates no_text
              (__init__ [] None) eq_refl) as [_ [_ [H1 _]]].
  destruct (empty_collection_documents discovery_order no_dates no_text
              (__init__ [] (Some [])) eq_refl) as [_ [_ [_ [_ H2]]]].
  rewrite H1, H2. split; reflexivity.
Defined.

(** ** Mixed values in one field *)

(** C3, as stated, fails on both analyses it names.  The sleep analysis
    does average [12, 7.5], but its distribution counts the two converted
    values cut to integers and has no entry for "abc".  The utilization
    analysis counts three raw values, not four, and averages the values
    whose text is made of digits, here 12 alone, so its average is not the
    mean of [12, 7.5]. *)
Lemma mixed_field_counterexample :
  let absent := [("participant_id", VStr "P4")] in
  let sleep := run analyze_sleep_patterns (mixed "sleep_quality" absent) in
  let visits :=
    run analyze_healthcare_utilization (mixed "healthcare_visits" absent) in
  doc_at ["sleep_quality_stats"; "distribution"] sleep
    = Some (DDict [(VInt 12, DInt 1); (VInt 7, DInt 1)]) /\
  doc_at ["sleep_quality_stats"; "distribution"] sleep
    <> Some (counter_doc (Counter four_raw_values)) /\
  doc_at ["utilization_stats"; "healthcare_visits"; "distribution"] visits
    <> Some (counter_doc (Counter four_raw_values)) /\
  doc_at ["utilization_stats"; "healthcare_visits"; "average"] visits
    = Some (DFloat (12 # 1)) /\
  doc_at ["utilization_stats"; "healthcare_visits"; "average"] visits
    <> Some (DFloat (np_mean [12 # 1; 15 # 2])).
Proof.
  cbv zeta. repeat split; try reflexivity; vm_compute; discriminate.
Qed.

(** C3, amended. For a field holding "12", "abc", 7.5 and nothing over four
    records, whichever way the fourth lacks it: the sleep analysis takes
    the mean and the median over [12, 7.5], both 9.75, and its distribution
    counts those two values cut to integers, 12 and 7; the utilization
    analysis counts the three values present, and its distribution counts
    each of them once, "abc" among them. *)
Theorem mixed_field_statistics :
  forall missing_quality missing_visits,
    In missing_quality (missing_variants "sleep_quality") ->
    In missing_visits (missing_variants "healthcare_visits") ->
    scores_of "sleep_quality"
      (extraction sleep_fields (mixed "sleep_quality" missing_quality))
      = [12 # 1; 15 # 2] /\
    np_mean [12 # 1; 15 # 2] = 39 # 4 /\
    np_median [12 # 1; 15 # 2] = 39 # 4 /\
    doc_at ["sleep_quality_stats"]
      (run analyze_sleep_patterns (mixed "sleep_quality" missing_quality))
      = Some mixed_quality_stats /\
    present_values "healthcare_visits"
      (mixed "healthcare_visits" missing_visits)
      = [VStr "12"; VStr "abc"; VFloat (15 # 2)] /\
    doc_at ["utilization_stats"; "healthcare_visits"; "count"]
      (run analyze_healthcare_utilization
         (mixed "healthcare_visits" missing_visits))
      = Some (DInt 3) /\
    doc_at ["utilization_stats"; "healthcare_visits"; "distribution"]
      (run analyze_healthcare_utilization
         (mixed "healthcare_visits" missing_visits))
      = Some mixed_visit_distribution.
Proof.
  intros mq mv Hq Hv. simpl in Hq, Hv.
  destruct Hq as [Hq|[Hq|[Hq|[]]]], Hv as [Hv|[Hv|[Hv|[]]]]; subst mq mv;
    repeat split; vm_compute; reflexivity.
Qed.

(** With the fourth record holding [None] for the field. *)
Lemma mixed_field_statistics_witness :
  doc_at ["sleep_quality_stats"]
    (run analyze_sleep_patterns
       (mixed "sleep_quality" [("sleep_quality", VNone)]))
    = Some mixed_quality_stats /\
  doc_at ["utilization_stats"; "healthcare_visits"; "distribution"]
    (run analyze_healthcare_utilization
       (mixed "healthcare_visits" [("healthcare_visits", VNone)]))
    = Some mixed_visit_distribution.
Proof.
  destruct (mixed_field_statistics
              [("sleep_quality", VNone)] [("healthcare_visits", VNone)])
    as [_ [_ [_ [H1 [_ [_ H2]]]]]].
  - simpl. right. left. reflexivity.
  - simpl. right. left. reflexivity.
  - split; [exact H1 | exact H2].
Defined.

(** ** Values the engine does not coerce *)

(** C1 fails on the code: the medication and the residence analyses raise
    on text where a number is expected.  [_identify_adherence_risks] orders
    the raw "missed_doses" against 0 and
    [_generate_adherence_recommendations] the raw "adherence_score" against
    80, with no conversion and no handler, although
    [_calculate_adherence_stats] reads the same records through
    [float] under [try]; [_calculate_residence_metrics] and
    [_analyze_residence_demographics] hand the raw "health_score" and "age"
    to [np.mean]. *)
Theorem text_where_number_expected_raises :
  run analyze_medication_adherence [[("missed_doses", VStr "2")]]
    = Raise TypeError /\
  run analyze_medication_adherence [[("adherence_score", VStr "abc")]]
    = Raise TypeError /\
  run analyze_residence_comparison [[("health_score", VStr "abc")]]
    = Raise TypeError /\
  run analyze_residence_comparison [[("age", VStr "70")]]
    = Raise TypeError /\
  _calculate_adherence_stats [[("adherence_score", VStr "abc")]]
    = DDict [skey "average_adherence" (DVal (VInt 0));
             skey "high_adherence_percent" (DVal (VInt 0));
             skey "low_adherence_count" (DVal (VInt 0))].
Proof. repeat split. Qed.

(** ** Residence insights *)

Lemma group_by_fold_single {A} (key : A -> value) (k : value)
  (ys l : list A) :
  (forall y, In y ys -> value_eqb (key y) k = true) ->
  fold_left (add_to_group key) ys [(k, l)] = [(k, l ++ ys)].
Proof.
  revert l. induction ys as [|y ys IH]; intros l H; simpl.
  - now rewrite app_nil_r.
  - unfold add_to_group at 2. simpl. rewrite (H y (or_introl eq_refl)).
    rewrite IH by (intros; apply H; now right).
    now rewrite <- app_assoc.
Qed.

Lemma group_by_single {A} (key : A -> value) (x : A) (xs : list A) :
  (forall y, In y xs -> value_eqb (key y) (key x) = true) ->
  group_by key (x :: xs) = [(key x, x :: xs)].
Proof.
  intros H. unfold group_by. simpl.
  change (fold_left (add_to_group key) xs [(key x, [x])] = [(key x, x :: xs)]).
  now rewrite group_by_fold_single.
Qed.

Lemma np_mean_values_raise (vs : list value) (e : exn) :
  np_mean_values vs = Raise e -> e = TypeError.
Proof.
  unfold np_mean_values.
  assert (H : forall e', omap number vs = Raise e' -> e' = TypeError).
  { induction vs as [|v vs IH]; simpl; [discriminate|]. intros e'.
    destruct v as [|z|q|s]; simpl; try (intros E; now inversion E);
      destruct (omap number vs); simpl; try discriminate;
      intros E; inversion E; subst; now apply IH. }
  destruct (omap number vs); simpl; [discriminate|].
  intros E. inversion E; subst. now apply H.
Qed.

Lemma residence_metrics_raise (records : list dict) (e : exn) :
  _calculate_residence_metrics records = Raise e -> e = TypeError.
Proof.
  unfold _calculate_residence_metrics.
  destruct (map _ _) as [|v vs]; simpl; [discriminate|].
  destruct (np_mean_values (v :: vs)) eqn:E; simpl; [discriminate|].
  intros E'. inversion E'; subst. now apply np_mean_values_raise in E.
Qed.

Lemma residence_demographics_raise (records : list dict) (e : exn) :
  _analyze_residence_demographics records = Raise e -> e = TypeError.
Proof.
  unfold _analyze_residence_demographics.
  destruct (map (fun r => get_or "age" r (VInt 0)) _) as [|v vs]; simpl;
    [discriminate|].
  destruct (np_mean_values (v :: vs)) eqn:E; simpl; [discriminate|].
  intros E'. inversion E'; subst. now apply np_mean_values_raise in E.
Qed.

(** C10. No insight is made from a comparison of fewer than two groups,
    both are made from a comparison of two or more; so when all the records
    of a non-empty collection resolve to one residence, the residence
    analysis returns a document that counts one residence and has an empty
    list of insights, unless [np.mean] raised on the health scores or the
    ages. *)
Theorem single_residence_has_no_insights :
  (forall comparison,
     (List.length comparison <= 1)%nat ->
     _generate_residence_insights comparison = []) /\
  (forall comparison,
     (2 <= List.length comparison)%nat ->
     List.length (_generate_residence_insights comparison) = 2%nat) /\
  (forall (s : state),
     self_data s <> [] ->
     (forall r r', In r (self_data s) -> In r' (self_data s) ->
        value_eqb (residence_key (deref (heap s) r'))
                  (residence_key (deref (heap s) r)) = true) ->
     fst (analyze_residence_comparison s) = Raise TypeError \/
     exists d,
       fst (analyze_residence_comparison s) = Ok d /\
       doc_get "total_residences" d = Some (DInt 1) /\
       doc_get "insights" d = Some (DList [])).
Proof.
  split; [|split].
  - intros comparison H. unfold _generate_residence_insights.
    destruct (Nat.ltb_spec 1 (List.length comparison)); [lia | reflexivity].
  - intros comparison H. unfold _generate_residence_insights.
    destruct (Nat.ltb_spec 1 (List.length comparison)); [reflexivity | lia].
  - intros s Hne Hsame. unfold analyze_residence_comparison, reads.
    cbn [fst].
    destruct (self_data s) as [|r0 rest] eqn:Hdata; [contradiction|].
    rewrite (group_by_single (fun r => residence_key (deref (heap s) r)))
      by (intros y Hy; apply Hsame; [now left | now right]).
    cbn [comparison_loop].
    destruct (_calculate_residence_metrics _) as [m|e] eqn:Em; cbn [obind].
    + destruct (_analyze_residence_demographics _) as [g|e] eqn:Eg;
        cbn [obind].
      * right. eexists. split; [reflexivity|]. split; reflexivity.
      * left. now rewrite (residence_demographics_raise _ _ Eg).
    + left. now rewrite (residence_metrics_raise _ _ Em).
Qed.

(** Two records of one care home. *)
Lemma single_residence_has_no_insights_witness :
  let records := [[("residence_type", VStr "lar"); ("health_score", VInt 7)];
                  [("residence_type", VStr "lar"); ("health_score", VInt 9)]] in
  exists d,
    run analyze_residence_comparison records = Ok d /\
    doc_get "total_residences" d = Some (DInt 1) /\
    doc_get "insights" d = Some (DList []).
Proof.
  cbv zeta.
  destruct single_residence_has_no_insights as [_ [_ H]].
  destruct (H (engine_of [[("residence_type", VStr "lar");
                           ("health_score", VInt 7)];
                          [("residence_type", VStr "lar");
                           ("health_score", VInt 9)]])) as [E|E].
  - discriminate.
  - intros r r' [Hr|[Hr|[]]] [Hr'|[Hr'|[]]]; subst r r'; reflexivity.
  - discriminate E.
  - exact E.
Defined.

(** ** Falsy values *)

Lemma dict_get_del_same (f : string) (d : dict) :
  dict_get f (dict_del f d) = None.
Proof.
  unfold dict_del. induction d as [|[k v] d IH]; simpl; [reflexivity|].
  destruct (String.eqb f k) eqn:E; simpl; [exact IH|]. now rewrite E.
Qed.

Lemma dict_get_del_other (f g : string) (d : dict) :
  f <> g -> dict_get g (dict_del f d) = dict_get g d.
Proof.
  intros Hfg. unfold dict_del. induction d as [|[k v] d IH]; simpl;
    [reflexivity|].
  destruct (String.eqb f k) eqn:E; simpl.
  - apply String.eqb_eq in E. subst k.
    destruct (String.eqb g f) eqn:E'; [|exact IH].
    apply String.eqb_eq in E'. congruence.
  - now rewrite IH.
Qed.

Lemma get_or_treat_other (f g : string) (d : dict) (dflt : value) :
  f <> g -> get_or g (treat_absent f d) dflt = get_or g d dflt.
Proof.
  intros Hfg. unfold treat_absent, get_or.
  destruct (truthy (get f d)); [reflexivity|].
  now rewrite dict_get_del_other.
Qed.

Lemma get_treat_other (f g : string) (d : dict) :
  f <> g -> get g (treat_absent f d) = get g d.
Proof. apply get_or_treat_other. Qed.

Lemma treat_absent_truthy (f : string) (r : dict) :
  truthy (get f r) = true -> treat_absent f r = r.
Proof. intros H. unfold treat_absent. now rewrite H. Qed.

Lemma treat_absent_falsy (f : string) (r : dict) :
  truthy (get f r) = false -> truthy (get f (treat_absent f r)) = false.
Proof.
  intros H. unfold treat_absent. rewrite H.
  unfold get, get_or. now rewrite dict_get_del_same.
Qed.

(** The truthy values of the field, with what [get] gives by default, are
    the same after the falsy ones are deleted. *)
Lemma truthy_values_treat (f : string) (dflt : value) (records : list dict) :
  map (fun r => get_or f r dflt)
    (filter (fun r => truthy (get f r)) (map (treat_absent f) records))
  = map (fun r => get_or f r dflt)
      (filter (fun r => truthy (get f r)) records).
Proof.
  induction records as [|r records IH]; simpl; [reflexivity|].
  destruct (truthy (get f r)) eqn:E.
  - rewrite (treat_absent_truthy f r E), E. simpl. now rewrite IH.
  - now rewrite (treat_absent_falsy f r E).
Qed.

Lemma truthy_values_other (f g : string) (dflt : value)
  (records : list dict) :
  f <> g ->
  map (fun r => get_or g r dflt)
    (filter (fun r => truthy (get g r)) (map (treat_absent f) records))
  = map (fun r => get_or g r dflt)
      (filter (fun r => truthy (get g r)) records).
Proof.
  intros Hfg. induction records as [|r records IH]; simpl; [reflexivity|].
  rewrite (get_treat_other f g r Hfg).
  destruct (truthy (get g r)); simpl; [|exact IH].
  now rewrite IH, get_or_treat_other.
Qed.

Lemma present_values_as_map (f : string) (records : list dict) :
  present_values f records =
  map (fun r => get_or f r VNone) (filter (fun r => truthy (get f r)) records).
Proof.
  unfold present_values. induction records as [|r records IH]; simpl;
    [reflexivity|].
  fold (get f r). destruct (truthy (get f r)); simpl; now rewrite IH.
Qed.

Lemma present_values_treat (f : string) (records : list dict) :
  present_values f (map (treat_absent f) records) = present_values f records.
Proof. rewrite !present_values_as_map. apply truthy_values_treat. Qed.

Lemma present_values_other (f g : string) (records : list dict) :
  f <> g ->
  present_values g (map (treat_absent f) records) = present_values g records.
Proof.
  intros H. rewrite !present_values_as_map. now apply truthy_values_other.
Qed.

Lemma field_stats_treat (f g : string) (records : list dict) :
  field_stats g (map (treat_absent f) records) = field_stats g records.
Proof.
  unfold field_stats. destruct (string_dec f g) as [E|N].
  - subst g. now rewrite present_values_treat.
  - now rewrite present_values_other.
Qed.

Lemma utilization_loop_treat (f : string) (fields : list string)
  (records : list dict) (acc : vmap doc) :
  utilization_loop fields (map (treat_absent f) records) acc
  = utilization_loop fields records acc.
Proof.
  revert acc. induction fields as [|g fields IH]; intros acc; simpl;
    [reflexivity|].
  rewrite field_stats_treat.
  destruct (field_stats g records) as [[e|]|]; simpl; auto.
Qed.

Lemma deref_treat (f : string) (h : list dict) (r : ref) :
  deref (map (treat_absent f) h) r = treat_absent f (deref h r).
Proof.
  unfold deref. change (@nil (string * value)) with (treat_absent f []) at 1.
  apply map_nth.
Qed.

Lemma map_deref_treat (f : string) (h : list dict) (refs : list ref) :
  map (deref (map (treat_absent f) h)) refs
  = map (treat_absent f) (map (deref h) refs).
Proof.
  rewrite map_map. apply map_ext. intros r. apply deref_treat.
Qed.

Lemma residence_metrics_treat (f : string) (records : list dict) :
  _calculate_residence_metrics (map (treat_absent f) records)
  = _calculate_residence_metrics records.
Proof.
  unfold _calculate_residence_metrics. destruct (string_dec f "health_score").
  - subst f. now rewrite truthy_values_treat.
  - now rewrite truthy_values_other.
Qed.

Lemma residence_demographics_treat (f : string) (records : list dict) :
  f <> "gender" ->
  _analyze_residence_demographics (map (treat_absent f) records)
  = _analyze_residence_demographics records.
Proof.
  intros Hg. unfold _analyze_residence_demographics.
  rewrite length_map, (truthy_values_other f "gender") by exact Hg.
  destruct (string_dec f "age").
  - subst f. now rewrite truthy_values_treat.
  - now rewrite truthy_values_other.
Qed.

Lemma group_by_ext {A} (key key' : A -> value) (xs : list A) :
  (forall x, key x = key' x) -> group_by key xs = group_by key' xs.
Proof.
  intros H. unfold group_by.
  generalize (@nil (value * list A)) as acc.
  induction xs as [|x xs IH]; intros acc; simpl; [reflexivity|].
  now rewrite H, IH.
Qed.

Lemma comparison_loop_treat (f : string) (h : list dict)
  (groups : vmap (list ref)) (acc : vmap doc) :
  f <> "gender" ->
  comparison_loop (map (treat_absent f) h) groups acc
  = comparison_loop h groups acc.
Proof.
  intros Hg. revert acc.
  induction groups as [|[k refs] groups IH]; intros acc; simpl; [reflexivity|].
  rewrite map_deref_treat, residence_metrics_treat,
    residence_demographics_treat, length_map by exact Hg.
  destruct (_calculate_residence_metrics _); simpl; [|reflexivity].
  destruct (_analyze_residence_demographics _); simpl; [|reflexivity].
  apply IH.
Qed.

Lemma participant_or_none_treat (f : string) (records : list dict) :
  f <> "participant_id" -> f <> "record_id" ->
  map participant_or_none (map (treat_absent f) records)
  = map participant_or_none records.
Proof.
  intros H1 H2. rewrite map_map. apply map_ext. intros r.
  unfold participant_or_none.
  now rewrite (get_treat_other f "record_id"), get_or_treat_other.
Qed.

Lemma utilization_treat (f : string) (s : state) :
  In f healthcare_fields ->
  fst (analyze_healthcare_utilization (with_absent f s))
  = fst (analyze_healthcare_utilization s).
Proof.
  intros Hf. unfold analyze_healthcare_utilization, reads, with_absent.
  cbn [heap self_data fst].
  destruct (self_data s) as [|r0 rest]; [reflexivity|]. cbv beta iota.
  rewrite map_deref_treat, utilization_loop_treat.
  rewrite participant_or_none_treat; [reflexivity | |];
    intro E; subst f; simpl in Hf;
    repeat (destruct Hf as [Hf|Hf]; [discriminate Hf|]); exact Hf.
Qed.

Lemma residence_treat (f : string) (s : state) :
  f = "health_score" \/ f = "age" ->
  fst (analyze_residence_comparison (with_absent f s))
  = fst (analyze_residence_comparison s).
Proof.
  intros Hf. unfold analyze_residence_comparison, reads, with_absent.
  cbn [heap self_data fst].
  destruct (self_data s) as [|r0 rest]; [reflexivity|]. cbv beta iota.
  rewrite (group_by_ext
             (fun r => residence_key (deref (map (treat_absent f) (heap s)) r))
             (fun r => residence_key (deref (heap s) r))).
  - rewrite comparison_loop_treat; [reflexivity|].
    destruct Hf; subst f; discriminate.
  - intros r. rewrite deref_treat. unfold residence_key.
    rewrite (get_or_treat_other f "location"), get_or_treat_other;
      [reflexivity | |]; destruct Hf; subst f; discriminate.
Qed.

Lemma truthy_values_drop (f : string) (dflt : value) (r : dict)
  (before after : list dict) :
  truthy (get f r) = false ->
  map (fun r => get_or f r dflt)
    (filter (fun r => truthy (get f r)) (before ++ r :: after))
  = map (fun r => get_or f r dflt)
      (filter (fun r => truthy (get f r)) (before ++ after)).
Proof.
  intros H. rewrite !filter_app. cbn [filter]. now rewrite H.
Qed.

(** C8. A falsy value counts as an absent one.  0, 0.0, the empty string
    and [None] are falsy; a record whose value for a field is falsy adds
    nothing to the values the utilization analysis takes for that field;
    deleting a utilization field wherever it is falsy changes nothing in the
    document of the utilization analysis, and deleting "health_score" or
    "age" wherever it is falsy changes nothing in the document of the
    residence analysis, nor in the metrics and demographics of a group.
    The record is excluded, not counted as a zero: taking it out of the
    collection leaves the count, the average and the distribution of the
    field as they are, and likewise the health metrics and the average age
    of its group.  Visits of 0 and 2 have count 1, average 2 and
    distribution {2: 1}; health scores of 0 and 8 have mean 8, and ages of
    0 and 70 have mean 70. *)
Theorem falsy_values_count_as_absent :
  (truthy (VInt 0) = false /\ truthy (VFloat 0) = false /\
   truthy (VStr "") = false /\ truthy VNone = false) /\
  (forall field r records,
     truthy (get field r) = false ->
     present_values field (r :: records) = present_values field records) /\
  (forall field records,
     field_stats field (map (treat_absent field) records)
     = field_stats field records) /\
  (forall field s,
     In field healthcare_fields ->
     fst (analyze_healthcare_utilization (with_absent field s))
     = fst (analyze_healthcare_utilization s)) /\
  (forall records,
     _calculate_residence_metrics (map (treat_absent "health_score") records)
     = _calculate_residence_metrics records) /\
  (forall records,
     _analyze_residence_demographics (map (treat_absent "age") records)
     = _analyze_residence_demographics records) /\
  (forall s,
     fst (analyze_residence_comparison (with_absent "health_score" s))
     = fst (analyze_residence_comparison s)) /\
  (forall s,
     fst (analyze_residence_comparison (with_absent "age" s))
     = fst (analyze_residence_comparison s)) /\
  (forall field r before after,
     truthy (get field r) = false ->
     field_stats field (before ++ r :: after)
     = field_stats field (before ++ after)) /\
  (forall r before after,
     truthy (get "health_score" r) = false ->
     _calculate_residence_metrics (before ++ r :: after)
     = _calculate_residence_metrics (before ++ after)) /\
  (forall r before after,
     truthy (get "age" r) = false ->
     average_age (before ++ r :: after) = average_age (before ++ after)) /\
  field_stats "emergency_visits"
    [[("emergency_visits", VInt 0)]; [("emergency_visits", VInt 2)]]
  = Ok (Some (DDict [skey "count" (DInt 1);
                     skey "average" (DFloat (2 # 1));
                     skey "distribution" (DDict [(VInt 2, DInt 1)])])) /\
  doc_at ["utilization_stats"; "emergency_visits"]
    (run analyze_healthcare_utilization
       [[("emergency_visits", VStr "")]; [("emergency_visits", VInt 2)]])
  = Some (DDict [skey "count" (DInt 1);
                 skey "average" (DFloat (2 # 1));
                 skey "distribution" (DDict [(VInt 2, DInt 1)])]) /\
  doc_at ["comparison"; "unknown"; "health_metrics"; "health_score_avg"]
    (run analyze_residence_comparison zero_and_real)
  = Some (DFloat (8 # 1)) /\
  doc_at ["comparison"; "unknown"; "demographics"; "average_age"]
    (run analyze_residence_comparison zero_and_real)
  = Some (DFloat (70 # 1)).
Proof.
  split; [repeat split|].
  split.
  { intros field r records H. unfold present_values. simpl. now rewrite H. }
  split; [intros; apply field_stats_treat|].
  split; [intros; now apply utilization_treat|].
  split; [intros; apply residence_metrics_treat|].
  split; [intros; apply residence_demographics_treat; discriminate|].
  split; [intros; apply residence_treat; auto|].
  split; [intros; apply residence_treat; auto|].
  split.
  { intros field r before after H. unfold field_stats.
    rewrite !present_values_as_map.
    now rewrite (truthy_values_drop field VNone r before after H). }
  split.
  { intros r before after H. unfold _calculate_residence_metrics.
    now rewrite (truthy_values_drop "health_score" (VInt 0) r before after H). }
  split.
  { intros r before after H. unfold average_age.
    unfold _analyze_residence_demographics.
    rewrite (truthy_values_drop "age" (VInt 0) r before after H).
    destruct (map _ (filter _ (before ++ after))) as [|a ages];
      [reflexivity|].
    cbn [obind]. destruct (np_mean_values (a :: ages)); reflexivity. }
  split; [reflexivity|]. split; [reflexivity|].
  split; reflexivity.
Qed.

(** A visit count of 0 and a health score of 0 next to real ones. *)
Lemma falsy_values_count_as_absent_witness :
  present_values "emergency_visits"
    [[("emergency_visits", VInt 0)]; [("emergency_visits", VInt 2)]]
    = [VInt 2] /\
  run analyze_healthcare_utilization
    [[("emergency_visits", VInt 0)]; [("emergency_visits", VInt 2)]]
  = run analyze_healthcare_utilization
      [[]; [("emergency_visits", VInt 2)]] /\
  run analyze_residence_comparison
    [[("health_score", VInt 0); ("age", VInt 0)];
     [("health_score", VInt 8); ("age", VInt 70)]]
  = run analyze_residence_comparison
      [[]; [("health_score", VInt 8); ("age", VInt 70)]] /\
  field_stats "emergency_visits"
    [[("emergency_visits", VInt 3)]; [("emergency_visits", VFloat 0)];
     [("emergency_visits", VInt 1)]]
  = field_stats "emergency_visits"
      [[("emergency_visits", VInt 3)]; [("emergency_visits", VInt 1)]] /\
  _calculate_residence_metrics
    [[("health_score", VInt 0)]; [("health_score", VInt 8)]]
  = _calculate_residence_metrics [[("health_score", VInt 8)]] /\
  average_age [[("age", VInt 70)]; [("age", VNone)]]
  = average_age [[("age", VInt 70)]].
Proof.
  destruct falsy_values_count_as_absent
    as [_ [H1 [_ [H2 [_ [_ [H3 [H4 [H5 [H6 [H7 _]]]]]]]]]]].
  split; [|split; [|split; [|split; [|split]]]].
  - rewrite H1; reflexivity.
  - symmetry.
    apply (H2 "emergency_visits"
             (engine_of [[("emergency_visits", VInt 0)];
                         [("emergency_visits", VInt 2)]])).
    simpl. tauto.
  - unfold run. rewrite <- H3, <- H4. reflexivity.
  - apply (H5 "emergency_visits" [("emergency_visits", VFloat 0)]
             [[("emergency_visits", VInt 3)]]
             [[("emergency_visits", VInt 1)]]).
    reflexivity.
  - apply (H6 [("health_score", VInt 0)] [] [[("health_score", VInt 8)]]).
    reflexivity.
  - apply (H7 [("age", VNone)] [[("age", VInt 70)]] []). reflexivity.
Defined.

(** ** The heap under extraction *)

Lemma heap_upd_last (h : list dict) (d : dict) (f : dict -> dict) :
  heap_upd (List.length h) f (h ++ [d]) = h ++ [f d].
Proof. induction h as [|x h IH]; simpl; [reflexivity | now rewrite IH]. Qed.

Lemma deref_app_old (h more : list dict) (r : ref) :
  (r < List.length h)%nat -> deref (h ++ more) r = deref h r.
Proof. intros H. unfold deref. now apply app_nth1. Qed.

Lemma deref_app_new (h more : list dict) (d : dict) :
  deref (h ++ d :: more) (List.length h) = d.
Proof. unfold deref. apply nth_middle. Qed.

Lemma copy_fields_spec (fields : list string) (h : list dict) (d : dict)
  (src : ref) (sd pd : list ref) :
  (src < List.length h)%nat ->
  copy_fields fields src (List.length h) (mkState (h ++ [d]) sd pd)
  = (Ok tt,
     mkState (h ++ [fold_left (copy_step (deref h src)) fields d]) sd pd).
Proof.
  intros Hsrc. revert d. induction fields as [|f fields IH]; intros d.
  - reflexivity.
  - cbn [copy_fields fold_left]. unfold bind at 1, load at 1. cbn [heap].
    rewrite deref_app_old by exact Hsrc.
    unfold copy_step at 2.
    destruct (dict_mem f (deref h src)).
    + unfold bind at 1, store. cbn [heap self_data processed_data].
      rewrite heap_upd_last. apply IH.
    + unfold bind at 1, ret. apply IH.
Qed.

Lemma dict_set_not_empty (k : string) (v : value) (d : dict) :
  is_empty (dict_set k v d) = false.
Proof.
  destruct d as [|[k' v'] d]; simpl; [reflexivity|].
  now destruct (String.eqb k k').
Qed.

Lemma extracted_empty (fields : list string) (record : dict) :
  is_empty (extracted fields record)
  = is_empty (fold_left (copy_step record) fields []).
Proof.
  unfold extracted.
  destruct (fold_left (copy_step record) fields []) as [|kv d] eqn:E;
    [reflexivity|].
  apply dict_set_not_empty.
Qed.

Lemma extract_domain_spec (fields : list string) (h : list dict)
  (src : ref) (sd pd : list ref) :
  (src < List.length h)%nat ->
  extract_domain fields src (mkState h sd pd)
  = (Ok (if is_empty (extracted fields (deref h src)) then None
         else Some (List.length h)),
     mkState (h ++ [extracted fields (deref h src)]) sd pd).
Proof.
  intros Hsrc. unfold extract_domain.
  unfold bind at 1, new_dict. cbn [heap self_data processed_data].
  unfold bind at 1. rewrite copy_fields_spec by exact Hsrc.
  unfold bind at 1, load at 1. cbn [heap]. rewrite deref_app_new.
  rewrite extracted_empty. unfold extracted.
  destruct (fold_left (copy_step (deref h src)) fields []) as [|kv d] eqn:E.
  - reflexivity.
  - unfold bind at 1, load. cbn [heap].
    rewrite deref_app_old by exact Hsrc.
    unfold bind, store, ret. cbn [heap self_data processed_data is_empty].
    now rewrite heap_upd_last.
Qed.

Lemma extract_all_spec (fields : list string) (h : list dict)
  (data : list ref) (sd pd : list ref) :
  (forall r, In r data -> (r < List.length h)%nat) ->
  forall pre,
    extract_all fields data (mkState (h ++ pre) sd pd)
    = (Ok (kept_refs fields h (List.length h + List.length pre) data),
       mkState
         (h ++ pre ++ map (fun r => extracted fields (deref h r)) data)
         sd pd).
Proof.
  induction data as [|src rest IH]; intros Hdata pre.
  - simpl. now rewrite app_nil_r.
  - cbn [extract_all kept_refs map]. unfold bind at 1.
    assert (Hsrc : (src < List.length h)%nat) by (apply Hdata; now left).
    rewrite extract_domain_spec by (rewrite length_app; lia).
    rewrite deref_app_old by exact Hsrc.
    rewrite <- app_assoc.
    unfold bind at 1.
    rewrite IH by (intros; apply Hdata; now right).
    rewrite !length_app. cbn [List.length].
    replace (List.length h + (List.length pre + 1))%nat
      with (S (List.length h + List.length pre)) by lia.
    rewrite <- app_assoc. cbn [app].
    unfold ret.
    destruct (is_empty (extracted fields (deref h src))); reflexivity.
Qed.

Lemma load_all_spec (refs : list ref) (s : state) :
  load_all refs s = (Ok (map (deref (heap s)) refs), s).
Proof.
  induction refs as [|r refs IH]; [reflexivity|].
  cbn [load_all map]. unfold bind at 1, load at 1.
  unfold bind at 1. rewrite IH. reflexivity.
Qed.

Lemma kept_refs_hold (fields : list string) (h : list dict)
  (data : list ref) :
  forall pre post,
    map (deref (h ++ pre ++ map (fun r => extracted fields (deref h r)) data
                  ++ post))
        (kept_refs fields h (List.length h + List.length pre) data)
    = extraction fields (map (deref h) data).
Proof.
  induction data as [|src rest IH]; intros pre post; [reflexivity|].
  cbn [kept_refs map]. unfold extraction. cbn [map filter].
  fold (extraction fields (map (deref h) rest)).
  rewrite map_app.
  replace (h ++ pre ++ (extracted fields (deref h src)
                          :: map (fun r => extracted fields (deref h r)) rest)
             ++ post)
    with (h ++ (pre ++ [extracted fields (deref h src)])
            ++ map (fun r => extracted fields (deref h r)) rest ++ post)
    by (now rewrite <- !app_assoc).
  replace (S (List.length h + List.length pre))
    with (List.length h
          + List.length (pre ++ [extracted fields (deref h src)]))%nat
    by (rewrite length_app; simpl; lia).
  rewrite IH.
  destruct (is_empty (extracted fields (deref h src))) eqn:E;
    cbn [negb map app]; [reflexivity|].
  f_equal.
  replace (h ++ (pre ++ [extracted fields (deref h src)])
             ++ map (fun r => extracted fields (deref h r)) rest ++ post)
    with ((h ++ pre) ++ extracted fields (deref h src)
            :: (map (fun r => extracted fields (deref h r)) rest ++ post))
    by (now rewrite <- !app_assoc).
  rewrite <- length_app. apply deref_app_new.
Qed.

Lemma extract_all_fresh (fields : list string) (h : list dict)
  (data sd pd : list ref) :
  (forall r, In r data -> (r < List.length h)%nat) ->
  extract_all fields data (mkState h sd pd)
  = (Ok (kept_refs fields h (List.length h) data),
     mkState (h ++ map (fun r => extracted fields (deref h r)) data) sd pd).
Proof.
  intros Hdata. pose proof (extract_all_spec fields h data sd pd Hdata []) as H.
  cbn [app List.length] in H. now rewrite app_nil_r, Nat.add_0_r in H.
Qed.

Lemma kept_refs_fresh (fields : list string) (h : list dict)
  (data : list ref) :
  map (deref (h ++ map (fun r => extracted fields (deref h r)) data))
      (kept_refs fields h (List.length h) data)
  = extraction fields (map (deref h) data).
Proof.
  pose proof (kept_refs_hold fields h data [] []) as H.
  cbn [app List.length] in H. now rewrite app_nil_r, Nat.add_0_r in H.
Qed.

(** The heap after an extraction over the records of [s]: one more dict
    per record. *)
Lemma sleep_refines (s : state) :
  wf_state s ->
  analyze_sleep_patterns s
  = (sleep_document (map (deref (heap s)) (self_data s)),
     after_extraction sleep_fields s).
Proof.
  destruct s as [h sd pd]. unfold wf_state, after_extraction.
  cbn [heap self_data processed_data]. intros Hwf.
  unfold analyze_sleep_patterns. unfold bind at 1, read_data.
  cbn [self_data]. destruct sd as [|r0 rest].
  - unfold ret. cbn [map]. now rewrite app_nil_r.
  - unfold bind at 1. rewrite extract_all_fresh by exact Hwf.
    unfold bind at 1. rewrite load_all_spec. cbn [heap].
    rewrite kept_refs_fresh.
    unfold sleep_document. cbn [map].
    unfold bind, lift, ret.
    destruct (_analyze_sleep_quality _); reflexivity.
Qed.

Lemma medication_refines (s : state) :
  wf_state s ->
  analyze_medication_adherence s
  = (medication_document (map (deref (heap s)) (self_data s)),
     after_extraction medication_fields s).
Proof.
  destruct s as [h sd pd]. unfold wf_state, after_extraction.
  cbn [heap self_data processed_data]. intros Hwf.
  unfold analyze_medication_adherence. unfold bind at 1, read_data.
  cbn [self_data]. destruct sd as [|r0 rest].
  - unfold ret. cbn [map]. now rewrite app_nil_r.
  - unfold bind at 1. rewrite extract_all_fresh by exact Hwf.
    unfold bind at 1. rewrite load_all_spec. cbn [heap].
    rewrite kept_refs_fresh.
    unfold medication_document. cbn [map].
    unfold bind, lift, ret.
    destruct (_identify_adherence_risks _); [|reflexivity].
    destruct (_generate_adherence_recommendations _); reflexivity.
Qed.

(** ** What an analysis reads *)

Lemma map_deref_agree (data : list ref) (h h' : list dict) :
  agree data h h' -> map (deref h) data = map (deref h') data.
Proof. intros H. apply map_ext_in. exact H. Qed.

Lemma omap_ext_in {A B} (f g : A -> outcome B) (l : list A) :
  (forall x, In x l -> f x = g x) -> omap f l = omap g l.
Proof.
  induction l as [|x l IH]; intros H; cbn [omap]; [reflexivity|].
  rewrite (H x (or_introl eq_refl)), IH; [reflexivity|].
  intros y Hy. apply H. now right.
Qed.

Lemma group_by_ext_in {A} (key key' : A -> value) (xs : list A) :
  (forall x, In x xs -> key x = key' x) -> group_by key xs = group_by key' xs.
Proof.
  unfold group_by. generalize (@nil (value * list A)) as acc.
  induction xs as [|x xs IH]; intros acc H; simpl; [reflexivity|].
  rewrite (H x (or_introl eq_refl)). apply IH. intros y Hy. apply H. now right.
Qed.

Lemma group_members {A} (key : A -> value) (xs : list A) (k : value)
  (l : list A) (x : A) :
  In (k, l) (group_by key xs) -> In x l -> In x xs.
Proof.
  intros Hin Hx. destruct (group_by_groups key xs) as [_ [Hg _]].
  destruct (Hg k l Hin) as [_ Hl]. rewrite Hl in Hx.
  now apply filter_In in Hx.
Qed.

Lemma agree_sub (data sub : list ref) (h h' : list dict) :
  agree data h h' -> (forall r, In r sub -> In r data) -> agree sub h h'.
Proof. intros H Hs r Hr. apply H, Hs, Hr. Qed.

Lemma comparison_loop_agree (data : list ref) (h h' : list dict)
  (groups : vmap (list ref)) (acc : vmap doc) :
  agree data h h' ->
  (forall k l r, In (k, l) groups -> In r l -> In r data) ->
  comparison_loop h groups acc = comparison_loop h' groups acc.
Proof.
  intros Ha. revert acc.
  induction groups as [|[k refs] groups IH]; intros acc Hg; [reflexivity|].
  cbn [comparison_loop].
  rewrite (map_deref_agree refs h h')
    by (apply (agree_sub data); [exact Ha|];
        intros r Hr; apply (Hg k refs r); [now left | exact Hr]).
  destruct (_calculate_residence_metrics _); [|reflexivity].
  destruct (_analyze_residence_demographics _); [|reflexivity].
  cbn [obind]. apply IH. intros k' l r Hin Hr.
  apply (Hg k' l r); [now right | exact Hr].
Qed.

Section Stability.

Variable order : list string -> list string.
Variable to_datetime : value -> option timestamp.
Variable strftime : timestamp -> string.

Lemma longitudinal_agree (data pd pd' : list ref) (h h' : list dict) :
  agree data h h' ->
  fst (analyze_longitudinal_data order to_datetime strftime
         (mkState h' data pd'))
  = fst (analyze_longitudinal_data order to_datetime strftime
           (mkState h data pd)).
Proof.
  intros Ha. unfold analyze_longitudinal_data, reads.
  cbn [fst heap self_data]. destruct data as [|r0 rest] eqn:Hdata;
    [reflexivity|]. rewrite <- Hdata in *. clear Hdata.
  rewrite (group_by_ext_in (fun r => participant_key (deref h' r))
             (fun r => participant_key (deref h r)))
    by (intros r Hr; now rewrite (Ha r Hr)).
  f_equal.
  apply omap_ext_in. intros [k l] Hin. cbn [fst snd].
  rewrite (map_deref_agree l h h'); [reflexivity|].
  apply (agree_sub data); [exact Ha|].
  intros r Hr. apply (group_members _ _ _ _ _ Hin Hr).
Qed.

Lemma utilization_agree (data pd pd' : list ref) (h h' : list dict) :
  agree data h h' ->
  fst (analyze_healthcare_utilization (mkState h' data pd'))
  = fst (analyze_healthcare_utilization (mkState h data pd)).
Proof.
  intros Ha. unfold analyze_healthcare_utilization, reads.
  cbn [fst heap self_data]. now rewrite (map_deref_agree data h h').
Qed.

Lemma residence_agree (data pd pd' : list ref) (h h' : list dict) :
  agree data h h' ->
  fst (analyze_residence_comparison (mkState h' data pd'))
  = fst (analyze_residence_comparison (mkState h data pd)).
Proof.
  intros Ha. unfold analyze_residence_comparison, reads.
  cbn [fst heap self_data]. destruct data as [|r0 rest] eqn:Hdata;
    [reflexivity|]. rewrite <- Hdata in *. clear Hdata.
  rewrite (group_by_ext_in (fun r => residence_key (deref h' r))
             (fun r => residence_key (deref h r)))
    by (intros r Hr; now rewrite (Ha r Hr)).
  rewrite (comparison_loop_agree data h h'); [reflexivity | exact Ha |].
  intros k l r Hin Hr. apply (group_members _ _ _ _ _ Hin Hr).
Qed.

Lemma unchanged_refl (s : state) : unchanged s s.
Proof. repeat split. apply firstn_all. Qed.

Lemma unchanged_after_extraction (fields : list string) (s : state) :
  unchanged s (after_extraction fields s).
Proof.
  unfold unchanged, after_extraction. cbn [heap self_data processed_data].
  repeat split. rewrite firstn_app, firstn_all, Nat.sub_diag. cbn [firstn].
  apply app_nil_r.
Qed.

Lemma unchanged_agree (s s' : state) :
  wf_state s -> unchanged s s' ->
  self_data s' = self_data s /\
  wf_state s' /\
  agree (self_data s) (heap s) (heap s').
Proof.
  intros Hwf [Hsd [_ Hh]]. split; [exact Hsd|].
  assert (Hsplit : heap s' = heap s ++ skipn (List.length (heap s)) (heap s')).
  { rewrite <- Hh at 1. symmetry. apply firstn_skipn. }
  split.
  - intros r Hr. rewrite Hsd in Hr. rewrite Hsplit, length_app.
    specialize (Hwf r Hr). lia.
  - intros r Hr. rewrite Hsplit. symmetry. apply deref_app_old. now apply Hwf.
Qed.

(** The result of an analysis on a state that was left unchanged. *)
Lemma analysis_stable (analysis : M doc) (s s' : state) :
  In analysis (analyses order to_datetime strftime) ->
  wf_state s -> unchanged s s' ->
  fst (analysis s') = fst (analysis s).
Proof.
  intros Hin Hwf Hun.
  destruct (unchanged_agree s s' Hwf Hun) as [Hsd [Hwf' Ha]].
  destruct s as [h sd pd], s' as [h' sd' pd'].
  cbn [self_data heap] in *. subst sd'.
  unfold analyses in Hin. cbn [In] in Hin.
  destruct Hin as [E|[E|[E|[E|[E|[]]]]]]; subst analysis.
  - now apply longitudinal_agree.
  - now apply utilization_agree.
  - rewrite !sleep_refines by assumption. cbn [fst heap self_data].
    now rewrite (map_deref_agree sd h h').
  - rewrite !medication_refines by assumption. cbn [fst heap self_data].
    now rewrite (map_deref_agree sd h h').
  - now apply residence_agree.
Qed.

Lemma analysis_unchanged (analysis : M doc) (s : state) :
  In analysis (analyses order to_datetime strftime) ->
  wf_state s -> unchanged s (snd (analysis s)).
Proof.
  intros Hin Hwf. unfold analyses in Hin. cbn [In] in Hin.
  destruct Hin as [E|[E|[E|[E|[E|[]]]]]]; subst analysis;
    try apply unchanged_refl.
  - rewrite sleep_refines by assumption. apply unchanged_after_extraction.
  - rewrite medication_refines by assumption. apply unchanged_after_extraction.
Qed.

End Stability.

(** C7. On an engine whose records are objects of the heap, each of the
    five analyses leaves every one of those objects as it was and at its
    address, and leaves the engine's two lists of records as they were; what
    it adds to the heap are dicts of its own.  The result of an analysis is
    the same after any analysis has run, itself included: a second call on
    the same input returns an equal document, or raises the same
    exception. *)
Theorem analyses_leave_the_records_unchanged :
  forall order to_datetime strftime (s : state),
    wf_state s ->
    forall analysis,
      In analysis (analyses order to_datetime strftime) ->
      unchanged s (snd (analysis s)) /\
      fst (analysis (snd (analysis s))) = fst (analysis s) /\
      (forall other,
         In other (analyses order to_datetime strftime) ->
         fst (analysis (snd (other s))) = fst (analysis s)).
Proof.
  intros order to_datetime strftime s Hwf analysis Hin.
  split; [now apply (analysis_unchanged order to_datetime strftime)|].
  split.
  - apply (analysis_stable order to_datetime strftime); auto.
    now apply (analysis_unchanged order to_datetime strftime).
  - intros other Ho.
    apply (analysis_stable order to_datetime strftime); auto.
    now apply (analysis_unchanged order to_datetime strftime).
Qed.

Lemma engine_of_wf (records : list dict) : wf_state (engine_of records).
Proof.
  unfold wf_state, engine_of, __init__. intros r.
  destruct (seq 0 (List.length records)) as [|x l] eqn:E;
    cbv beta iota zeta; cbn [self_data heap]; [contradiction|].
  intros Hr. change (In r (x :: l)) in Hr. rewrite <- E in Hr.
  apply in_seq in Hr. lia.
Qed.

(** Two records, one with a sleep field: the sleep analysis, which writes
    to dicts of its own. *)
Lemma analyses_leave_the_records_unchanged_witness :
  let s := engine_of [[("sleep_quality", VStr "6")]; [("age", VInt 70)]] in
  heap (snd (analyze_sleep_patterns s))
    = [[("sleep_quality", VStr "6")]; [("age", VInt 70)];
       [("sleep_quality", VStr "6"); ("participant_id", VNone)]; []] /\
  unchanged s (snd (analyze_sleep_patterns s)) /\
  fst (analyze_sleep_patterns (snd (analyze_sleep_patterns s)))
    = fst (analyze_sleep_patterns s).
Proof.
  cbv zeta. split; [reflexivity|].
  destruct (analyses_leave_the_records_unchanged
              discovery_order no_dates no_text
              (engine_of [[("sleep_quality", VStr "6")]; [("age", VInt 70)]])
              (engine_of_wf _) analyze_sleep_patterns) as [H1 [H2 _]].
  - simpl. tauto.
  - split; [exact H1 | exact H2].
Defined.

(** ** Converting the values whose text is made of digits *)

Lemma digit_not_space (c : ascii) : is_digit c = true -> is_space c = false.
Proof.
  unfold is_digit, is_space. intros H.
  apply andb_true_iff in H as [H1 H2].
  apply Nat.leb_le in H1. apply Nat.leb_le in H2.
  apply orb_false_iff. split.
  - apply Nat.eqb_neq. lia.
  - apply andb_false_iff. right. apply Nat.leb_gt. lia.
Qed.

Lemma digit_not_sign (c : ascii) (r : string) :
  is_digit c = true -> read_sign (String c r) = (false, String c r).
Proof.
  destruct c as [[] [] [] [] [] [] [] []]; intros H;
    try discriminate H; reflexivity.
Qed.

Lemma rstrip_digits (s : string) : all_digits s = true -> rstrip s = s.
Proof.
  induction s as [|c r IH]; [reflexivity|]. simpl. intros H.
  apply andb_true_iff in H as [Hc Hr]. rewrite (IH Hr).
  destruct r; [|reflexivity]. now rewrite (digit_not_space c Hc).
Qed.

Lemma read_all_digits (s : string) :
  all_digits s = true ->
  forall acc n, exists acc',
    read_digits s acc n = (acc', (n + String.length s)%nat, EmptyString).
Proof.
  induction s as [|c r IH]; cbn [read_digits all_digits String.length];
    intros H acc n.
  - exists acc. now rewrite Nat.add_0_r.
  - apply andb_true_iff in H as [Hc Hr]. rewrite Hc.
    destruct (IH Hr (10 * acc + digit_val c) (S n)) as [acc' E].
    exists acc'. rewrite E. f_equal. f_equal. lia.
Qed.

Lemma float_of_digits (s : string) :
  isdigit s = true -> exists q, float_of_string s = Some q.
Proof.
  destruct s as [|c r]; [discriminate|]. unfold isdigit. intros H.
  pose proof H as H'. simpl in H'. apply andb_true_iff in H' as [Hc Hr].
  unfold float_of_string, strip.
  replace (lstrip (String c r)) with (String c r)
    by (simpl; now rewrite (digit_not_space c Hc)).
  rewrite (rstrip_digits _ H), (digit_not_sign c r Hc).
  destruct (read_all_digits _ H 0 0%nat) as [ip E]. rewrite E.
  cbn [String.length Nat.add read_exponent]. eexists. reflexivity.
Qed.

Lemma float_limit_pos : 0 < float_limit.
Proof. reflexivity. Qed.

Lemma too_big_digit (v : value) : too_big v = true -> str_isdigit v = true.
Proof.
  destruct v as [|z|q|s]; cbn [too_big str_isdigit]; try discriminate.
  intros H. apply Z.leb_le in H. apply Z.leb_le.
  pose proof float_limit_pos. lia.
Qed.

(** [float] of a value whose text is made of digits: it converts, unless
    it is an [int] beyond the range of a [float]. *)
Lemma float_of_digit_value (v : value) :
  str_isdigit v = true ->
  if too_big v then py_float v = Raise OverflowError
  else exists q, py_float v = Ok q.
Proof.
  destruct v as [|z|q|s]; cbn [str_isdigit too_big py_float];
    try discriminate; intros H.
  - apply Z.leb_le in H. rewrite (Z.abs_eq z H).
    destruct (Z.leb_spec float_limit z) as [Hz|Hz];
      destruct (Z.ltb_spec z float_limit); try lia; eauto.
  - destruct (float_of_digits s H) as [q E]. rewrite E. eauto.
Qed.

Lemma floats_of_digit_values (vs : list value) :
  if existsb too_big vs
  then omap py_float (filter str_isdigit vs) = Raise OverflowError
  else exists qs, omap py_float (filter str_isdigit vs) = Ok qs.
Proof.
  induction vs as [|v vs IH]; cbn [existsb filter]; [cbn; eauto|].
  destruct (str_isdigit v) eqn:E.
  - pose proof (float_of_digit_value v E) as Hv. cbn [omap].
    destruct (too_big v); cbn [orb].
    + now rewrite Hv.
    + destruct Hv as [q Hq]. rewrite Hq. cbn [obind].
      destruct (existsb too_big vs).
      * now rewrite IH.
      * destruct IH as [qs Hqs]. rewrite Hqs. cbn [obind]. eauto.
  - destruct (too_big v) eqn:T.
    + apply too_big_digit in T. congruence.
    + exact IH.
Qed.

Lemma too_big_among_digits (vs : list value) :
  existsb too_big vs = true -> existsb str_isdigit vs = true.
Proof.
  rewrite !existsb_exists. intros [v [Hin Hv]]. exists v.
  split; [exact Hin | now apply too_big_digit].
Qed.

(** The statistics of a field: an [OverflowError] when one of its truthy
    values is an [int] beyond the range of a [float], an entry or none
    otherwise. *)
Lemma field_stats_outcome (field : string) (records : list dict) :
  if existsb too_big (present_values field records)
  then field_stats field records = Raise OverflowError
  else exists e, field_stats field records = Ok e.
Proof.
  unfold field_stats.
  destruct (present_values field records) as [|v vs] eqn:E; [cbn; eauto|].
  pose proof (floats_of_digit_values (v :: vs)) as Hf.
  destruct (existsb too_big (v :: vs)) eqn:T.
  - rewrite (too_big_among_digits _ T), Hf. reflexivity.
  - destruct (existsb str_isdigit (v :: vs)); [|cbn; eauto].
    destruct Hf as [qs Hq]. rewrite Hq. cbn. eauto.
Qed.

Lemma utilization_loop_outcome (fields : list string) (records : list dict)
  (acc : vmap doc) :
  if existsb (fun f => existsb too_big (present_values f records)) fields
  then utilization_loop fields records acc = Raise OverflowError
  else exists stats, utilization_loop fields records acc = Ok stats.
Proof.
  revert acc. induction fields as [|f fields IH]; intros acc;
    cbn [existsb utilization_loop]; [eauto|].
  pose proof (field_stats_outcome f records) as Hf.
  destruct (existsb too_big (present_values f records)); cbn [orb].
  - now rewrite Hf.
  - destruct Hf as [e He]. rewrite He. cbn [obind]. apply IH.
Qed.

(** * Further properties *)

(** ** Dicts *)

Lemma dict_get_set_same (k : string) (v : value) (d : dict) :
  dict_get k (dict_set k v d) = Some v.
Proof.
  induction d as [|[k' v'] d IH]; simpl.
  - now rewrite String.eqb_refl.
  - destruct (String.eqb k k') eqn:E; simpl; rewrite E; [reflexivity|exact IH].
Qed.

Lemma dict_get_set_other (k k' : string) (v : value) (d : dict) :
  k <> k' -> dict_get k' (dict_set k v d) = dict_get k' d.
Proof.
  intros Hk. induction d as [|[k0 v0] d IH]; simpl.
  - apply String.eqb_neq in Hk. rewrite String.eqb_sym in Hk. now rewrite Hk.
  - destruct (String.eqb k k0) eqn:E; simpl.
    + apply String.eqb_eq in E. subst k0.
      destruct (String.eqb k' k) eqn:E'; [|reflexivity].
      apply String.eqb_eq in E'. congruence.
    + now rewrite IH.
Qed.

Lemma dict_get_of_mem (k : string) (d : dict) :
  dict_mem k d = true -> dict_get k d = Some (get k d).
Proof.
  unfold dict_mem, get, get_or. now destruct (dict_get k d).
Qed.

Lemma dict_get_not_mem (k : string) (d : dict) :
  dict_mem k d = false -> dict_get k d = None.
Proof. unfold dict_mem. now destruct (dict_get k d). Qed.

(** ** What the extraction loop copies *)

Lemma copied_get (record : dict) (fields : list string) (d : dict)
  (f : string) :
  dict_get f (fold_left (copy_step record) fields d) =
  if (existsb (String.eqb f) fields && dict_mem f record)%bool
  then dict_get f record
  else dict_get f d.
Proof.
  revert d. induction fields as [|g fields IH]; intros d; [reflexivity|].
  cbn [fold_left existsb]. rewrite IH. unfold copy_step.
  destruct (String.eqb f g) eqn:E.
  - apply String.eqb_eq in E. subst g. cbn [orb].
    destruct (dict_mem f record) eqn:Hm.
    + rewrite dict_get_set_same, <- dict_get_of_mem by exact Hm.
      now destruct (existsb (String.eqb f) fields).
    + now rewrite andb_false_r.
  - cbn [orb]. destruct (dict_mem g record); [|reflexivity].
    rewrite dict_get_set_other; [reflexivity|].
    intro; subst. now rewrite String.eqb_refl in E.
Qed.

Lemma copied_empty (record : dict) (fields : list string) (d : dict) :
  is_empty (fold_left (copy_step record) fields d) =
  (is_empty d && negb (has_any fields record))%bool.
Proof.
  unfold has_any. revert d.
  induction fields as [|g fields IH]; intros d; cbn [fold_left existsb].
  - now rewrite andb_true_r.
  - rewrite IH. unfold copy_step. destruct (dict_mem g record); cbn [orb negb].
    + now rewrite dict_set_not_empty, andb_false_r.
    + reflexivity.
Qed.

Lemma extracted_is_empty (fields : list string) (record : dict) :
  is_empty (extracted fields record) = negb (has_any fields record).
Proof. rewrite extracted_empty, copied_empty. reflexivity. Qed.

Lemma existsb_eqb_In (f : string) (fields : list string) :
  existsb (String.eqb f) fields = true <-> In f fields.
Proof.
  rewrite existsb_exists. split.
  - intros [g [Hg E]]. apply String.eqb_eq in E. now subst.
  - intros H. exists f. split; [exact H | apply String.eqb_refl].
Qed.

Lemma extracted_get (fields : list string) (record : dict) (f : string) :
  has_any fields record = true ->
  f <> "participant_id" ->
  dict_get f (extracted fields record) =
  if existsb (String.eqb f) fields then dict_get f record else None.
Proof.
  intros Hany Hf. unfold extracted.
  destruct (fold_left (copy_step record) fields []) as [|kv d] eqn:E.
  - pose proof (copied_empty record fields []) as H. rewrite E, Hany in H.
    discriminate H.
  - rewrite dict_get_set_other by congruence.
    rewrite <- E, copied_get.
    destruct (existsb (String.eqb f) fields); [|reflexivity].
    cbn [andb]. destruct (dict_mem f record) eqn:Hm; [reflexivity|].
    cbn [dict_get]. symmetry. now apply dict_get_not_mem.
Qed.

Lemma extracted_participant (fields : list string) (record : dict) :
  has_any fields record = true ->
  dict_get "participant_id" (extracted fields record)
  = Some (participant_or_none record).
Proof.
  intros Hany. unfold extracted.
  destruct (fold_left (copy_step record) fields []) as [|kv d] eqn:E.
  - pose proof (copied_empty record fields []) as H. rewrite E, Hany in H.
    discriminate H.
  - apply dict_get_set_same.
Qed.

(** X3. One turn of the extraction loop of the sleep and medication
    analyses, on a record of the heap and an allow-list that does not name
    "participant_id".  A record with none of the fields gives no dict.  A
    record with one at least gives a new dict, at the first free address,
    that holds every allow-listed field of the record with the value the
    record has for it, holds the participant under "participant_id" (the
    record's "participant_id", else its "record_id", else [None]), and holds
    nothing else. *)
Theorem extraction_keeps_the_allowed_fields :
  forall (fields : list string) (h : list dict) (src : ref)
         (sd pd : list ref),
    (src < List.length h)%nat ->
    ~ In "participant_id" fields ->
    let record := deref h src in
    let result := extract_domain fields src (mkState h sd pd) in
    (has_any fields record = false -> fst result = Ok None) /\
    (has_any fields record = true ->
     fst result = Ok (Some (List.length h)) /\
     let d := deref (heap (snd result)) (List.length h) in
     (forall f, In f fields -> dict_get f d = dict_get f record) /\
     dict_get "participant_id" d = Some (participant_or_none record) /\
     (forall f, ~ In f fields -> f <> "participant_id" ->
        dict_get f d = None)).
Proof.
  intros fields h src sd pd Hsrc Hpid record result.
  unfold result. rewrite extract_domain_spec by exact Hsrc.
  fold record. cbn [fst snd heap]. rewrite extracted_is_empty.
  split; intros Hany; rewrite Hany; cbn [negb]; [reflexivity|].
  split; [reflexivity|]. rewrite deref_app_new.
  split; [|split].
  - intros f Hf. rewrite extracted_get; [|exact Hany|].
    + now rewrite (proj2 (existsb_eqb_In f fields) Hf).
    + intro; subst. contradiction.
  - now apply extracted_participant.
  - intros f Hf Hn. rewrite extracted_get by assumption.
    destruct (existsb (String.eqb f) fields) eqn:E; [|reflexivity].
    apply existsb_eqb_In in E. contradiction.
Qed.

(** A record with a sleep field, an age and a record id. *)
Lemma extraction_keeps_the_allowed_fields_witness :
  let h := [[("age", VInt 70); ("sleep_quality", VStr "6");
             ("record_id", VStr "R1")]] in
  let result := extract_domain sleep_fields 0%nat (mkState h [0%nat] []) in
  fst result = Ok (Some 1%nat) /\
  dict_get "sleep_quality" (deref (heap (snd result)) 1%nat)
    = Some (VStr "6") /\
  dict_get "participant_id" (deref (heap (snd result)) 1%nat)
    = Some (VStr "R1") /\
  dict_get "age" (deref (heap (snd result)) 1%nat) = None.
Proof.
  cbv zeta.
  destruct (extraction_keeps_the_allowed_fields sleep_fields
              [[("age", VInt 70); ("sleep_quality", VStr "6");
                ("record_id", VStr "R1")]] 0%nat [0%nat] [])
    as [_ H].
  - simpl. lia.
  - simpl. intuition discriminate.
  - destruct H as [H1 [H2 [H3 H4]]]; [reflexivity|].
    split; [exact H1|]. split; [|split].
    + refine (eq_trans (H2 "sleep_quality" _) _); [simpl; tauto|reflexivity].
    + refine (eq_trans H3 _). reflexivity.
    + refine (H4 "age" _ _); [simpl; intuition discriminate | discriminate].
Defined.

Lemma extraction_length (fields : list string) (records : list dict) :
  List.length (extraction fields records)
  = List.length (filter (has_any fields) records).
Proof.
  unfold extraction. induction records as [|r records IH]; [reflexivity|].
  cbn [map filter]. rewrite extracted_is_empty, negb_involutive.
  destruct (has_any fields r); cbn [List.length]; now rewrite IH.
Qed.

Lemma has_none_no_field (fields : list string) (f : string) (r : dict) :
  In f fields -> has_any fields r = false -> dict_mem f r = false.
Proof.
  intros Hf Hany. destruct (dict_mem f r) eqn:E; [|reflexivity].
  assert (H : has_any fields r = true)
    by (apply existsb_exists; exists f; now split).
  congruence.
Qed.

(** The scores that are not finite are those of the records themselves:
    the extraction copies the field as it is. *)
Lemma nonfinite_scores_extraction (fields : list string) (f : string)
  (records : list dict) :
  In f fields -> f <> "participant_id" ->
  nonfinite_scores f (extraction fields records) = nonfinite_scores f records.
Proof.
  intros Hf Hp. unfold extraction, nonfinite_scores.
  induction records as [|r records IH]; [reflexivity|].
  cbn [map filter flat_map]. rewrite extracted_is_empty, negb_involutive.
  destruct (has_any fields r) eqn:Hany.
  - cbn [flat_map]. rewrite IH. f_equal.
    unfold dict_mem, get, get_or.
    rewrite extracted_get by assumption.
    now rewrite (proj2 (existsb_eqb_In f fields) Hf).
  - rewrite (has_none_no_field fields f r Hf Hany). exact IH.
Qed.

(** X4. On a non-empty collection of records with ASCII texts, the sleep
    analysis returns unless the "sleep_quality" of some record is a text
    that [float] reads as [inf] or [nan]; the first such text decides the
    exception, [OverflowError] for [inf] and [ValueError] for [nan].  When
    it returns, "total_sleep_records" is the number of records that have at
    least one of the six sleep fields, whatever the value, and the three
    pattern flags are all true when that number is greater than 5 and all
    false otherwise.  When the medication analysis returns,
    "total_medication_records" is the number of records that have at least
    one of the six medication fields. *)
Theorem domain_totals_count_records_with_a_field :
  forall (s : state),
    wf_state s ->
    self_data s <> [] ->
    let records := map (deref (heap s)) (self_data s) in
    ascii_records records = true ->
    let n := List.length (filter (has_any sleep_fields) records) in
    let m := List.length (filter (has_any medication_fields) records) in
    (nonfinite_scores "sleep_quality" records = [] ->
     doc_at ["total_sleep_records"] (fst (analyze_sleep_patterns s))
       = Some (DInt n) /\
     doc_at ["patterns"] (fst (analyze_sleep_patterns s))
       = Some (DDict [skey "consistent_bedtime" (DBool (5 <? n)%nat);
                      skey "regular_wake_time" (DBool (5 <? n)%nat);
                      skey "adequate_duration" (DBool (5 <? n)%nat)])) /\
    (forall more,
       nonfinite_scores "sleep_quality" records = Infinite :: more ->
       fst (analyze_sleep_patterns s) = Raise OverflowError) /\
    (forall more,
       nonfinite_scores "sleep_quality" records = NotANumber :: more ->
       fst (analyze_sleep_patterns s) = Raise ValueError) /\
    (forall d, fst (analyze_medication_adherence s) = Ok d ->
       doc_get "total_medication_records" d = Some (DInt m)).
Proof.
  intros s Hwf Hne records _ n m.
  rewrite sleep_refines, medication_refines by exact Hwf. cbn [fst].
  fold records. unfold n, m. rewrite <- !extraction_length.
  assert (Hrec : records <> []).
  { unfold records. destruct (self_data s); [contradiction | discriminate]. }
  assert (Hscores :
            nonfinite_scores "sleep_quality" (extraction sleep_fields records)
            = nonfinite_scores "sleep_quality" records).
  { apply nonfinite_scores_extraction; [now left | discriminate]. }
  destruct records as [|r0 rest] eqn:E; [contradiction|].
  unfold sleep_document, _analyze_sleep_quality. rewrite Hscores.
  split; [|split; [|split]].
  - intros H. rewrite H.
    destruct (scores_of "sleep_quality" _); split; reflexivity.
  - intros more H. now rewrite H.
  - intros more H. now rewrite H.
  - intros d. unfold medication_document.
    destruct (_identify_adherence_risks _); cbn [obind]; [|discriminate].
    destruct (_generate_adherence_recommendations _); cbn [obind];
      [|discriminate].
    intros Hd. inversion Hd. reflexivity.
Qed.

(** Seven records, six of them with a sleep field; and two records whose
    sleep quality is not a finite number. *)
Lemma domain_totals_count_records_with_a_field_witness :
  let r := [("bedtime", VStr "23:00")] in
  let s := engine_of [r; r; [("age", VInt 70)]; r; r; r; r] in
  (doc_at ["total_sleep_records"] (fst (analyze_sleep_patterns s))
     = Some (DInt 6) /\
   doc_at ["patterns"; "consistent_bedtime"] (fst (analyze_sleep_patterns s))
     = Some (DBool true)) /\
  run analyze_sleep_patterns
    [[("sleep_quality", VInt 7)]; [("sleep_quality", VStr "-Infinity")];
     [("sleep_quality", VStr "nan")]] = Raise OverflowError /\
  run analyze_sleep_patterns
    [[("sleep_quality", VStr " NaN ")]; [("sleep_quality", VStr "1e999")]]
    = Raise ValueError.
Proof.
  cbv zeta. split; [|split].
  - destruct (domain_totals_count_records_with_a_field
                (engine_of [[("bedtime", VStr "23:00")];
                            [("bedtime", VStr "23:00")];
                            [("age", VInt 70)];
                            [("bedtime", VStr "23:00")];
                            [("bedtime", VStr "23:00")];
                            [("bedtime", VStr "23:00")];
                            [("bedtime", VStr "23:00")]]))
      as [H _].
    + apply engine_of_wf.
    + discriminate.
    + reflexivity.
    + destruct H as [H1 H2]; [reflexivity|].
      split; [exact H1|]. reflexivity.
  - destruct (domain_totals_count_records_with_a_field
                (engine_of [[("sleep_quality", VInt 7)];
                            [("sleep_quality", VStr "-Infinity")];
                            [("sleep_quality", VStr "nan")]]))
      as [_ [H _]].
    + apply engine_of_wf.
    + discriminate.
    + reflexivity.
    + apply (H [NotANumber]). reflexivity.
  - destruct (domain_totals_count_records_with_a_field
                (engine_of [[("sleep_quality", VStr " NaN ")];
                            [("sleep_quality", VStr "1e999")]]))
      as [_ [_ [H _]]].
    + apply engine_of_wf.
    + discriminate.
    + reflexivity.
    + apply (H [Infinite]). reflexivity.
Defined.

(** ** When the medication analysis returns *)

Lemma count_where_cases {A} (p : A -> outcome bool) (l : list A) :
  (forall x e, p x = Raise e -> e = TypeError) ->
  if forallb (fun x => is_ok (p x)) l
  then exists n, count_where p l = Ok n
  else count_where p l = Raise TypeError.
Proof.
  intros Hp. induction l as [|x l IH]; cbn [forallb count_where]; [eauto|].
  destruct (p x) as [b|e] eqn:E; cbn [is_ok andb obind].
  - destruct (forallb (fun x => is_ok (p x)) l).
    + destruct IH as [n Hn]. rewrite Hn. cbn [obind]. eauto.
    + now rewrite IH.
  - now rewrite (Hp x e E).
Qed.

Lemma forallb_pointwise {A} (p q : A -> bool) (l : list A) :
  (forall x, p x = q x) -> forallb p l = forallb q l.
Proof.
  intros H. induction l as [|x l IH]; [reflexivity|].
  cbn [forallb]. now rewrite H, IH.
Qed.

Lemma ordering_ok (f : string) (default n : Z) (r : dict)
  (cmp : value -> Z -> outcome bool) :
  cmp = gt_int \/ cmp = lt_int ->
  is_ok (cmp (get_or f r (VInt default)) n) = number_or_absent f r.
Proof.
  intros [E|E]; subst cmp; unfold number_or_absent, get_or, gt_int, lt_int;
    destruct (dict_get f r) as [[|z|q|s]|]; reflexivity.
Qed.

Lemma ordering_raise (v : value) (n : Z) (e : exn)
  (cmp : value -> Z -> outcome bool) :
  cmp = gt_int \/ cmp = lt_int -> cmp v n = Raise e -> e = TypeError.
Proof.
  intros [E|E]; subst cmp; unfold gt_int, lt_int;
    destruct v as [|z|q|s]; simpl; intros H; now inversion H.
Qed.

Lemma number_or_absent_extracted (fields : list string) (f : string)
  (r : dict) :
  In f fields -> f <> "participant_id" -> has_any fields r = true ->
  number_or_absent f (extracted fields r) = number_or_absent f r.
Proof.
  intros Hf Hp Hany. unfold number_or_absent.
  rewrite extracted_get by assumption.
  now rewrite (proj2 (existsb_eqb_In f fields) Hf).
Qed.

Lemma number_or_absent_without (fields : list string) (f : string)
  (r : dict) :
  In f fields -> has_any fields r = false -> number_or_absent f r = true.
Proof.
  intros Hf Hany. unfold number_or_absent.
  rewrite dict_get_not_mem; [reflexivity|].
  unfold has_any in Hany.
  destruct (dict_mem f r) eqn:E; [|reflexivity].
  rewrite <- Hany. symmetry. apply existsb_exists. now exists f.
Qed.

Lemma forallb_extraction (fields : list string) (f : string)
  (records : list dict) :
  In f fields -> f <> "participant_id" ->
  forallb (number_or_absent f) (extraction fields records)
  = forallb (number_or_absent f) records.
Proof.
  intros Hf Hp. unfold extraction.
  induction records as [|r records IH]; [reflexivity|].
  cbn [map filter forallb]. rewrite extracted_is_empty, negb_involutive.
  destruct (has_any fields r) eqn:Hany; cbn [forallb].
  - now rewrite IH, number_or_absent_extracted.
  - now rewrite IH, (number_or_absent_without fields f r Hf Hany).
Qed.

(** X2. On a non-empty collection the medication analysis returns a
    document exactly when every record that has "missed_doses" has it as an
    [int] or a [float], and likewise for "adherence_score"; when one record
    has either as text or as [None], it raises [TypeError]. *)
Theorem medication_returns_on_numbers_only :
  forall (s : state),
    wf_state s ->
    self_data s <> [] ->
    let records := map (deref (heap s)) (self_data s) in
    if (forallb (number_or_absent "missed_doses") records
        && forallb (number_or_absent "adherence_score") records)%bool
    then exists d, fst (analyze_medication_adherence s) = Ok d
    else fst (analyze_medication_adherence s) = Raise TypeError.
Proof.
  intros s Hwf Hne records.
  rewrite medication_refines by exact Hwf. cbn [fst]. fold records.
  assert (Hrec : records <> []).
  { unfold records. destruct (self_data s); [contradiction | discriminate]. }
  unfold medication_document.
  destruct records as [|r0 rest] eqn:E; [contradiction|]. rewrite <- E.
  rewrite <- (forallb_extraction medication_fields "missed_doses" records),
    <- (forallb_extraction medication_fields "adherence_score" records);
    try (simpl; tauto); try discriminate.
  set (adherence_data := extraction medication_fields records).
  unfold _identify_adherence_risks, _generate_adherence_recommendations.
  pose proof (count_where_cases
                (fun r => gt_int (get_or "missed_doses" r (VInt 0)) 0)
                adherence_data
                (fun x e => ordering_raise _ _ e gt_int (or_introl eq_refl)))
    as H1.
  pose proof (count_where_cases
                (fun r => lt_int (get_or "adherence_score" r (VInt 100)) 80)
                adherence_data
                (fun x e => ordering_raise _ _ e lt_int (or_intror eq_refl)))
    as H2.
  rewrite (forallb_pointwise _ (number_or_absent "missed_doses")) in H1
    by (intros r; apply ordering_ok; now left).
  rewrite (forallb_pointwise _ (number_or_absent "adherence_score")) in H2
    by (intros r; apply ordering_ok; now right).
  destruct (forallb (number_or_absent "missed_doses") adherence_data).
  - destruct H1 as [n1 H1]. rewrite H1. cbn [obind andb].
    destruct adherence_data as [|a rest'] eqn:Ea.
    + cbn [forallb obind]. eauto.
    + rewrite <- Ea in *.
      destruct (forallb (number_or_absent "adherence_score") adherence_data).
      * destruct H2 as [n2 H2]. rewrite H2. cbn [obind]. eauto.
      * rewrite H2. reflexivity.
  - rewrite H1. reflexivity.
Qed.

(** A score given as text, and the same score given as a number. *)
Lemma medication_returns_on_numbers_only_witness :
  run analyze_medication_adherence [[("adherence_score", VStr "85")]]
    = Raise TypeError /\
  exists d,
    run analyze_medication_adherence [[("adherence_score", VInt 85)]] = Ok d.
Proof.
  split.
  - apply (medication_returns_on_numbers_only
             (engine_of [[("adherence_score", VStr "85")]])).
    + apply engine_of_wf.
    + discriminate.
  - apply (medication_returns_on_numbers_only
             (engine_of [[("adherence_score", VInt 85)]])).
    + apply engine_of_wf.
    + discriminate.
Defined.

(** ** When the utilization analysis returns *)

(** X1. On records whose texts are ASCII and whose ints the interpreter
    prints, the utilization analysis returns a document unless some truthy
    value of one of the six utilization fields is an [int] of
    2^1024 - 2^970 or more, and then it raises [OverflowError]: the one
    conversion it makes outside a handler, [float(v)], is made on the
    values whose text is made of digits, and each of those converts unless
    it is an [int] beyond the range of a [float]. *)
Theorem utilization_raises_only_on_overflow :
  forall (s : state),
    let records := map (deref (heap s)) (self_data s) in
    printable_records records = true ->
    if overflows records
    then fst (analyze_healthcare_utilization s) = Raise OverflowError
    else exists d, fst (analyze_healthcare_utilization s) = Ok d.
Proof.
  intros s records _. subst records.
  unfold analyze_healthcare_utilization, reads, overflows. cbn [fst].
  destruct (self_data s) as [|r0 rest]; [cbn; eauto|]. cbv beta iota.
  pose proof (utilization_loop_outcome healthcare_fields
                (map (deref (heap s)) (r0 :: rest)) []) as H.
  destruct (existsb _ healthcare_fields).
  - now rewrite H.
  - destruct H as [stats E]. rewrite E. cbn [obind]. eauto.
Qed.

(** A visit count given as text of digits, and one that is the least
    [int] out of the range of a [float]. *)
Lemma utilization_raises_only_on_overflow_witness :
  (exists d,
     run analyze_healthcare_utilization
       [[("emergency_visits", VStr "0012")];
        [("emergency_visits", VInt (- float_limit))]] = Ok d) /\
  run analyze_healthcare_utilization
    [[("emergency_visits", VStr "0012")];
     [("emergency_visits", VInt float_limit)]] = Raise OverflowError.
Proof.
  split.
  - apply (utilization_raises_only_on_overflow
             (engine_of [[("emergency_visits", VStr "0012")];
                         [("emergency_visits", VInt (- float_limit))]])).
    reflexivity.
  - apply (utilization_raises_only_on_overflow
             (engine_of [[("emergency_visits", VStr "0012")];
                         [("emergency_visits", VInt float_limit)]])).
    reflexivity.
Defined.

(** ** Percentages *)

Lemma percent_bounds (k n : nat) :
  (k <= n)%nat -> (0 < n)%nat ->
  (0 <= fmul (fdiv (fofnat k) (fofnat n)) (100 # 1) <= 100 # 1)%Q.
Proof.
  intros Hk Hn. unfold fmul, fdiv, fofnat. rewrite !Qred_correct.
  destruct n as [|m]; [lia|].
  unfold Qdiv, Qinv, Qmult, Qle, inject_Z. cbn [Qnum Qden Z.of_nat].
  split.
  - simpl. lia.
  - simpl.
    assert (H : (Z.of_nat k <= Z.pos (Pos.of_succ_nat m))%Z)
      by (rewrite Zpos_P_of_succ_nat; lia).
    nia.
Qed.

(** X5. The share of sleep durations within the recommended range and the
    share of adherence scores of 80 or more are percentages: numbers from 0
    to 100, on every list of records; and the count of scores below 50 is at
    most the number of records. *)
Theorem percentages_are_within_0_and_100 :
  forall (records : list dict),
    let within :=
      doc_number (doc_get_or "within_range_percent"
                    (_analyze_sleep_duration records) (DVal VNone)) in
    let high :=
      doc_number (doc_get_or "high_adherence_percent"
                    (_calculate_adherence_stats records) (DVal VNone)) in
    let low := doc_int "low_adherence_count"
                 (_calculate_adherence_stats records) in
    (0 <= within <= 100 # 1)%Q /\
    (0 <= high <= 100 # 1)%Q /\
    0 <= low <= Z.of_nat (List.length records).
Proof.
  intros records. cbv zeta.
  unfold _analyze_sleep_duration, _calculate_adherence_stats.
  split; [|split].
  - destruct (scores_of "sleep_duration" records) as [|q qs] eqn:E.
    + unfold doc_get_or, doc_get, doc_number. simpl. split; discriminate.
    + rewrite <- E. unfold doc_get_or, doc_get. simpl.
      apply percent_bounds; [apply filter_length_le|].
      rewrite E. simpl. lia.
  - destruct (scores_of "adherence_score" records) as [|q qs] eqn:E.
    + unfold doc_get_or, doc_get, doc_number. simpl. split; discriminate.
    + rewrite <- E. unfold doc_get_or, doc_get. simpl.
      apply percent_bounds; [apply filter_length_le|].
      rewrite E. simpl. lia.
  - destruct (scores_of "adherence_score" records) as [|q qs] eqn:E.
    + unfold doc_int, doc_get. simpl. lia.
    + rewrite <- E. unfold doc_int, doc_get, DInt. simpl.
      split; [lia|]. apply inj_le.
      etransitivity; [apply filter_length_le|].
      unfold scores_of. clear E.
      induction records as [|r records IH]; simpl; [lia|].
      rewrite length_app.
      assert (H : (List.length
                     (if dict_mem "adherence_score" r
                      then float_or_skip (get "adherence_score" r)
                      else []) <= 1)%nat).
      { destruct (dict_mem "adherence_score" r); [|simpl; lia].
        unfold float_or_skip.
        destruct (py_float (get "adherence_score" r)); simpl; lia. }
      lia.
Qed.

(** ** Lookup after update, and counters *)

Lemma vmap_get_congr {A} (k x : value) (m : vmap A) :
  value_eqb k x = true -> vmap_get k m = vmap_get x m.
Proof.
  intros H. induction m as [|[k' a] m IH]; [reflexivity|].
  cbn [vmap_get]. now rewrite (value_eqb_congr k x k' H), IH.
Qed.

Lemma vmap_get_upd {A} (k x : value) (d : A) (f : A -> A) (m : vmap A) :
  vmap_get k (vmap_upd x d f m) =
  if value_eqb k x
  then Some (f match vmap_get x m with Some a => a | None => d end)
  else vmap_get k m.
Proof.
  induction m as [|[k' a] m IH]; cbn [vmap_upd vmap_get].
  - reflexivity.
  - destruct (value_eqb x k') eqn:Ex; cbn [vmap_get].
    + destruct (value_eqb k x) eqn:Ek.
      * now rewrite (value_eqb_congr k x k' Ek), Ex.
      * destruct (value_eqb k k') eqn:Ek'; [|reflexivity].
        rewrite value_eqb_sym in Ex.
        rewrite (value_eqb_trans k k' x Ek' Ex) in Ek. discriminate.
    + rewrite IH. destruct (value_eqb k x) eqn:Ek; [|reflexivity].
      now rewrite (value_eqb_congr k x k' Ek), Ex.
Qed.

Lemma vmap_upd_keys {A} (k : value) (d : A) (f : A -> A) (m : vmap A)
  (k' : value) (a : A) :
  In (k', a) (vmap_upd k d f m) ->
  (exists a0, In (k', a0) m) \/
  (k' = k /\ forall k0 a0, In (k0, a0) m -> value_eqb k k0 = false).
Proof.
  induction m as [|[k0 a0] m IH]; cbn [vmap_upd]; intros Hin.
  - destruct Hin as [E|[]]. inversion E; subst. right.
    split; [reflexivity | intros ? ? []].
  - destruct (value_eqb k k0) eqn:E.
    + destruct Hin as [E1|Hin].
      * inversion E1; subst. left. exists a0. now left.
      * left. exists a. now right.
    + destruct Hin as [E1|Hin].
      * inversion E1; subst. left. exists a. now left.
      * destruct (IH Hin) as [[a1 H1]|[H1 H2]].
        -- left. exists a1. now right.
        -- right. split; [exact H1|].
           intros k1 a1 [E2|Hin']; [inversion E2; subst; exact E|].
           apply (H2 k1 a1 Hin').
Qed.

Lemma vmap_upd_distinct {A} (k : value) (d : A) (f : A -> A) (m : vmap A) :
  distinct_keys m -> distinct_keys (vmap_upd k d f m).
Proof.
  induction m as [|[k0 a0] m IH]; cbn [vmap_upd distinct_keys]; intros Hd.
  - split; [intros ? ? [] | exact I].
  - destruct Hd as [Hk0 Hd]. destruct (value_eqb k k0) eqn:E;
      cbn [distinct_keys].
    + split; assumption.
    + split; [|now apply IH].
      intros k' a Hin.
      destruct (vmap_upd_keys k d f m k' a Hin) as [[a1 H1]|[H1 _]].
      * apply (Hk0 k' a1 H1).
      * subst k'. exact E.
Qed.

Lemma Counter_snoc (xs : list value) (x : value) :
  Counter (xs ++ [x]) = vmap_upd x O S (Counter xs).
Proof. unfold Counter. now rewrite fold_left_app. Qed.

Lemma vmap_upd_sum (k : value) (m : vmap nat) :
  list_sum (map snd (vmap_upd k O S m)) = S (list_sum (map snd m)).
Proof.
  induction m as [|[k' n] m IH]; cbn [vmap_upd].
  - reflexivity.
  - destruct (value_eqb k k'); cbn [map snd]; unfold list_sum in *;
      cbn [fold_right]; [lia|].
    rewrite IH. lia.
Qed.

Lemma Counter_distinct (xs : list value) : distinct_keys (Counter xs).
Proof.
  induction xs as [|x xs IH] using rev_ind; [exact I|].
  rewrite Counter_snoc. now apply vmap_upd_distinct.
Qed.

Lemma Counter_sum (xs : list value) :
  list_sum (map snd (Counter xs)) = List.length xs.
Proof.
  induction xs as [|x xs IH] using rev_ind; [reflexivity|].
  rewrite Counter_snoc, vmap_upd_sum, IH, length_app. simpl. lia.
Qed.

Lemma Counter_get (xs : list value) (k : value) :
  vmap_get k (Counter xs) =
  match occurrences k xs with
  | O => None
  | n => Some n
  end.
Proof.
  unfold occurrences. induction xs as [|x xs IH] using rev_ind;
    [reflexivity|].
  rewrite Counter_snoc, vmap_get_upd, filter_app, length_app.
  cbn [filter]. destruct (value_eqb k x) eqn:E; cbn [List.length].
  - rewrite <- (vmap_get_congr k x _ E), IH.
    destruct (List.length (filter (fun x0 => value_eqb k x0) xs)) as [|n];
      [reflexivity|].
    replace (S n + 1)%nat with (S (S n)) by lia. reflexivity.
  - rewrite IH, Nat.add_0_r. reflexivity.
Qed.

(** ** The utilization statistics *)

Lemma field_stats_none (f : string) (records : list dict) :
  present_values f records = [] -> field_stats f records = Ok None.
Proof. intros H. unfold field_stats. now rewrite H. Qed.

Lemma field_stats_some (f : string) (records : list dict) :
  present_values f records <> [] ->
  existsb too_big (present_values f records) = false ->
  exists average,
    field_stats f records =
    Ok (Some (DDict
      [skey "count" (DInt (List.length (present_values f records)));
       skey "average" average;
       skey "distribution"
         (counter_doc (Counter (present_values f records)))])).
Proof.
  intros H T. unfold field_stats.
  destruct (present_values f records) as [|v vs] eqn:E; [contradiction|].
  pose proof (floats_of_digit_values (v :: vs)) as Hf. rewrite T in Hf.
  destruct (existsb str_isdigit (v :: vs)).
  - destruct Hf as [qs Hq]. rewrite Hq. cbn [obind]. eauto.
  - cbn [obind]. eauto.
Qed.

Lemma field_stats_entry (f : string) (records : list dict) (e : doc) :
  field_stats f records = Ok (Some e) ->
  present_values f records <> [] /\
  exists average,
    e = DDict
      [skey "count" (DInt (List.length (present_values f records)));
       skey "average" average;
       skey "distribution"
         (counter_doc (Counter (present_values f records)))].
Proof.
  unfold field_stats.
  destruct (present_values f records) as [|v vs] eqn:E; [discriminate|].
  intros H. split; [discriminate|].
  destruct (if existsb str_isdigit (v :: vs) then _ else _) as [average|];
    cbn [obind] in H; [|discriminate H].
  exists average. now inversion H.
Qed.

Lemma has_values_spec (records : list dict) (f : string) :
  (has_values records f = true <-> present_values f records <> []) /\
  (has_values records f = false <-> present_values f records = []).
Proof.
  unfold has_values. destruct (present_values f records); cbn [is_nil negb];
    split; split; intros H; try reflexivity; try discriminate;
    try contradiction; congruence.
Qed.

Lemma stats_items_get_None (records : list dict) (fields : list string)
  (f : string) :
  ~ In f fields -> vmap_get (VStr f) (stats_items records fields) = None.
Proof.
  unfold stats_items.
  induction fields as [|g fields IH]; cbn [flat_map]; intros Hn;
    [reflexivity|].
  rewrite vmap_get_app, IH by (cbn [In] in Hn; tauto).
  destruct (field_stats g records) as [[e|]|]; cbn [vmap_get value_eqb];
    try reflexivity.
  destruct (String.eqb f g) eqn:E; [|reflexivity].
  apply String.eqb_eq in E. subst. cbn [In] in Hn. tauto.
Qed.

Lemma utilization_fold (fields : list string) (records : list dict)
  (acc : vmap doc) :
  NoDup fields ->
  (forall f, In f fields -> vmap_get (VStr f) acc = None) ->
  existsb (fun f => existsb too_big (present_values f records)) fields
    = false ->
  utilization_loop fields records acc
  = Ok (acc ++ stats_items records fields).
Proof.
  revert acc. induction fields as [|g fields IH]; intros acc Hn Hacc Hbig.
  - cbn. now rewrite app_nil_r.
  - inversion Hn as [|? ? Hg Hn']; subst.
    cbn [existsb] in Hbig. apply orb_false_iff in Hbig as [Hbig Hbig'].
    cbn [utilization_loop]. unfold stats_items. cbn [flat_map].
    fold (stats_items records fields).
    pose proof (field_stats_outcome g records) as He. rewrite Hbig in He.
    destruct He as [e He]. rewrite He. cbn [obind].
    destruct e as [e|].
    + unfold vmap_set. rewrite vmap_upd_fresh by (apply Hacc; now left).
      rewrite IH; [now rewrite <- app_assoc | exact Hn' | | exact Hbig'].
      intros f Hf. rewrite vmap_get_app, Hacc by now right.
      cbn [vmap_get value_eqb].
      destruct (String.eqb f g) eqn:E; [|reflexivity].
      apply String.eqb_eq in E. subst. contradiction.
    + apply IH; [exact Hn' | | exact Hbig'].
      intros f Hf. apply Hacc. now right.
Qed.

Lemma stats_items_keys (records : list dict) (fields : list string) :
  existsb (fun f => existsb too_big (present_values f records)) fields
    = false ->
  map fst (stats_items records fields)
  = map VStr (filter (has_values records) fields).
Proof.
  unfold stats_items. induction fields as [|g fields IH]; [reflexivity|].
  cbn [existsb]. intros Hbig. apply orb_false_iff in Hbig as [Hbig Hbig'].
  cbn [flat_map filter]. rewrite map_app, (IH Hbig').
  destruct (has_values records g) eqn:E.
  - apply has_values_spec in E.
    destruct (field_stats_some g records E Hbig) as [avg H]. now rewrite H.
  - apply has_values_spec in E. now rewrite (field_stats_none g records E).
Qed.

Lemma no_overflow_in (records : list dict) (fields : list string)
  (f : string) :
  existsb (fun f => existsb too_big (present_values f records)) fields
    = false ->
  In f fields -> existsb too_big (present_values f records) = false.
Proof.
  intros H Hf. destruct (existsb too_big (present_values f records)) eqn:E;
    [|reflexivity].
  assert (H' : existsb (fun f => existsb too_big (present_values f records))
                 fields = true)
    by (apply existsb_exists; exists f; now split).
  congruence.
Qed.

Lemma stats_items_get (records : list dict) (fields : list string)
  (f : string) :
  NoDup fields -> In f fields ->
  vmap_get (VStr f) (stats_items records fields) =
  match field_stats f records with
  | Ok (Some e) => Some e
  | _ => None
  end.
Proof.
  unfold stats_items.
  induction fields as [|g fields IH]; intros Hn Hin; [contradiction|].
  inversion Hn as [|? ? Hg Hn']; subst. cbn [flat_map].
  rewrite vmap_get_app. destruct Hin as [E|Hin].
  - subst g. destruct (field_stats f records) as [[e|]|];
      cbn [vmap_get value_eqb].
    + now rewrite String.eqb_refl.
    + now apply stats_items_get_None.
    + now apply stats_items_get_None.
  - assert (Hfg : String.eqb f g = false).
    { apply String.eqb_neq. intro; subst. contradiction. }
    destruct (field_stats g records) as [[e|]|]; cbn [vmap_get value_eqb];
      [rewrite Hfg| |]; now apply IH.
Qed.

Lemma healthcare_fields_NoDup : NoDup healthcare_fields.
Proof.
  unfold healthcare_fields.
  repeat (constructor; [simpl; intuition discriminate|]). constructor.
Qed.

(** X6. On a non-empty collection of records whose texts are ASCII and
    whose ints the interpreter prints, and where no truthy value of a
    utilization field is an [int] beyond the range of a [float],
    "utilization_stats" has an entry for each of the six utilization fields
    that has a truthy value in some record, in the order of the allow-list,
    and for no other key.  The entry's count is the number of records with
    a truthy value for the field and its distribution is the counter of
    those values.  The summary is the sentence for "no utilization data"
    exactly when there is no entry. *)
Theorem utilization_stats_cover_the_fields_with_values :
  forall (s : state),
    self_data s <> [] ->
    let records := map (deref (heap s)) (self_data s) in
    printable_records records = true ->
    overflows records = false ->
    exists stats,
      doc_at ["utilization_stats"] (fst (analyze_healthcare_utilization s))
        = Some (DDict stats) /\
      map fst stats
        = map VStr (filter (has_values records) healthcare_fields) /\
      (forall f,
         In f healthcare_fields -> present_values f records <> [] ->
         exists average,
           vmap_get (VStr f) stats =
           Some (DDict
             [skey "count" (DInt (List.length (present_values f records)));
              skey "average" average;
              skey "distribution"
                (counter_doc (Counter (present_values f records)))])) /\
      (doc_at ["summary"] (fst (analyze_healthcare_utilization s))
         = Some (DStr "Nenhum dado de utilização disponível")
       <-> stats = []).
Proof.
  intros s Hne records _ Hbig. subst records.
  unfold analyze_healthcare_utilization, reads. cbn [fst].
  destruct (self_data s) as [|r0 rest] eqn:Hdata; [contradiction|].
  cbv beta iota. rewrite <- Hdata in *.
  set (records := map (deref (heap s)) (self_data s)) in *.
  exists (stats_items records healthcare_fields).
  rewrite (utilization_fold healthcare_fields records [])
    by (try apply healthcare_fields_NoDup; try exact Hbig; reflexivity).
  cbn [app obind].
  split; [reflexivity|]. split; [now apply stats_items_keys|]. split.
  - intros f Hf Hv.
    destruct (field_stats_some f records Hv
                (no_overflow_in records healthcare_fields f Hbig Hf))
      as [avg H].
    exists avg.
    rewrite stats_items_get, H;
      [reflexivity | apply healthcare_fields_NoDup | exact Hf].
  - change (Some (_summarize_utilization
                    (stats_items records healthcare_fields))
            = Some (DStr "Nenhum dado de utilização disponível")
            <-> stats_items records healthcare_fields = []).
    unfold _summarize_utilization.
    destruct (stats_items records healthcare_fields); split; intros H;
      try reflexivity; discriminate H.
Qed.

(** Two visits recorded as numbers, one as 0. *)
Lemma utilization_stats_cover_the_fields_with_values_witness :
  let records := [[("emergency_visits", VInt 2)];
                  [("emergency_visits", VInt 0)];
                  [("emergency_visits", VInt 2)]] in
  exists stats,
    doc_at ["utilization_stats"]
      (run analyze_healthcare_utilization records) = Some (DDict stats) /\
    map fst stats = [VStr "emergency_visits"].
Proof.
  cbv zeta.
  destruct (utilization_stats_cover_the_fields_with_values
              (engine_of [[("emergency_visits", VInt 2)];
                          [("emergency_visits", VInt 0)];
                          [("emergency_visits", VInt 2)]]))
    as [stats [H1 [H2 _]]].
  - discriminate.
  - reflexivity.
  - reflexivity.
  - exists stats. split; [exact H1 | exact H2].
Defined.

(** X7. In an entry of the utilization statistics, the distribution has
    one key for each distinct value, as Python compares keys; the number
    under a key is the number of records that hold that value for the
    field; and the numbers add up to the entry's count. *)
Theorem distribution_counts_add_up_to_count :
  forall (field : string) (records : list dict) (e : doc),
    field_stats field records = Ok (Some e) ->
    exists dist,
      doc_get "distribution" e = Some (counter_doc dist) /\
      doc_get "count" e = Some (DInt (list_sum (map snd dist))) /\
      distinct_keys dist /\
      (forall v,
         vmap_get v dist =
         match occurrences v (present_values field records) with
         | O => None
         | n => Some n
         end).
Proof.
  intros field records e He.
  destruct (field_stats_entry field records e He) as [_ [avg H]]. subst e.
  exists (Counter (present_values field records)).
  split; [reflexivity|]. split; [|split].
  - now rewrite Counter_sum.
  - apply Counter_distinct.
  - intros k. apply Counter_get.
Qed.

(** Two visits as the number 2, one as the number 2.0, one as text. *)
Lemma distribution_counts_add_up_to_count_witness :
  exists e dist,
    field_stats "emergency_visits"
      [[("emergency_visits", VInt 2)]; [("emergency_visits", VStr "2")];
       [("emergency_visits", VFloat (2 # 1))]] = Ok (Some e) /\
    doc_get "distribution" e = Some (counter_doc dist) /\
    vmap_get (VInt 2) dist = Some 2%nat /\
    vmap_get (VStr "2") dist = Some 1%nat /\
    doc_get "count" e = Some (DInt 3).
Proof.
  eexists.
  destruct (distribution_counts_add_up_to_count "emergency_visits"
              [[("emergency_visits", VInt 2)]; [("emergency_visits", VStr "2")];
               [("emergency_visits", VFloat (2 # 1))]] _ eq_refl)
    as [dist [H1 [H2 [_ H3]]]].
  exists dist. split; [reflexivity|]. split; [exact H1|].
  split; [|split].
  - rewrite H3. reflexivity.
  - rewrite H3. reflexivity.
  - reflexivity.
Defined.

(** ** The first element of greatest score *)

Lemma fgtb_false (a b : Q) : fgtb a b = false <-> (a <= b)%Q.
Proof.
  unfold fgtb. rewrite negb_false_iff. apply Qle_bool_iff.
Qed.

Lemma max_by_from_first {A} (score : A -> Q) (l : list A) :
  forall (before : list A) (best : A) (mid : list A),
    (forall x, In x before -> (score x < score best)%Q) ->
    (forall x, In x mid -> (score x <= score best)%Q) ->
    first_greatest score (before ++ best :: mid ++ l)
      (max_by_from score best l).
Proof.
  induction l as [|x l IH]; intros before best mid Hb Hm.
  - exists before, mid. rewrite app_nil_r. repeat split; assumption.
  - cbn [max_by_from]. destruct (fgtb (score x) (score best)) eqn:E.
    + apply fgtb_lt in E.
      replace (before ++ best :: mid ++ x :: l)
        with ((before ++ best :: mid) ++ x :: [] ++ l)
        by (rewrite <- app_assoc; reflexivity).
      apply IH; [|intros ? []].
      intros y Hy. apply in_app_or in Hy as [Hy|[Hy|Hy]].
      * apply Qlt_trans with (score best); auto.
      * now subst y.
      * apply Qle_lt_trans with (score best); auto.
    + apply fgtb_false in E.
      replace (before ++ best :: mid ++ x :: l)
        with (before ++ best :: (mid ++ [x]) ++ l)
        by (rewrite <- app_assoc; reflexivity).
      apply IH; [exact Hb|].
      intros y Hy. apply in_app_or in Hy as [Hy|[Hy|[]]]; [auto|].
      now subst y.
Qed.

Lemma max_by_first {A} (score : A -> Q) (x : A) (l : list A) :
  exists r, max_by score (x :: l) = Some r /\
            first_greatest score (x :: l) r.
Proof.
  exists (max_by_from score x l). split; [reflexivity|].
  apply (max_by_from_first score l [] x []); intros ? [].
Qed.

(** X8. When there are utilization statistics, the summary sentence names
    as most common a field of the statistics whose count is the greatest,
    and the first such field in the order of the statistics: the fields
    before it have a smaller count, those after it a count no greater. *)
Theorem most_common_is_first_of_greatest_count :
  forall (stats : vmap doc),
    stats <> [] ->
    exists total field,
      _summarize_utilization stats
      = DText [Lit "Total de "; Fmt (VInt total);
               Lit " utilizações registradas. Mais comum: "; Fmt field] /\
      first_greatest (count_in stats) (map fst stats) field.
Proof.
  intros stats Hne. unfold _summarize_utilization.
  destruct stats as [|p rest]; [contradiction|]. cbv beta iota.
  set (st := p :: rest).
  assert (Hk : map fst st = fst p :: map fst rest) by reflexivity.
  rewrite Hk.
  destruct (max_by_first (count_in st) (fst p) (map fst rest))
    as [r [Hr Hf]].
  exists (py_int (fsum (map (fun kv => stat_count (snd kv)) st))), r.
  split; [|exact Hf].
  unfold count_in in Hr. now rewrite Hr.
Qed.

(** Three fields, the last two with the greatest count. *)
Lemma most_common_is_first_of_greatest_count_witness :
  let stats := [(VStr "a", DDict [skey "count" (DInt 1)]);
                (VStr "b", DDict [skey "count" (DInt 4)]);
                (VStr "c", DDict [skey "count" (DInt 4)])] in
  exists total field,
    _summarize_utilization stats
    = DText [Lit "Total de "; Fmt (VInt total);
             Lit " utilizações registradas. Mais comum: "; Fmt field] /\
    first_greatest (count_in stats) (map fst stats) field.
Proof.
  cbv zeta. apply most_common_is_first_of_greatest_count. discriminate.
Defined.

(** X9. From a comparison of two residences or more, the first insight
    names a residence of the comparison whose health-score average is the
    greatest, and the first such residence in the order of the comparison;
    the second insight gives the number of residences compared. *)
Theorem best_residence_is_first_of_greatest_score :
  forall (comparison : vmap doc),
    (2 <= List.length comparison)%nat ->
    exists best total,
      _generate_residence_insights comparison
      = [DText [Lit "Melhor performance de saúde: "; Fmt best];
         DText [Lit "Total de "; Fmt (VInt total);
                Lit " participantes distribuídos entre ";
                DNat (List.length comparison); Lit " residências"]] /\
      first_greatest (score_in comparison) (map fst comparison) best.
Proof.
  intros comparison Hlen. unfold _generate_residence_insights.
  destruct (Nat.ltb_spec 1 (List.length comparison)); [|lia].
  destruct comparison as [|p rest]; [simpl in Hlen; lia|].
  set (cmp := p :: rest) in *.
  assert (Hk : map fst cmp = fst p :: map fst rest) by reflexivity.
  rewrite Hk.
  destruct (max_by_first (score_in cmp) (fst p) (map fst rest))
    as [r [Hr Hf]].
  exists r,
    (py_int (fsum (map (fun kv => participant_count_of (snd kv)) cmp))).
  split; [|exact Hf].
  unfold score_in in Hr. now rewrite Hr.
Qed.

(** Two residences with the same average: the first one is named. *)
Lemma best_residence_is_first_of_greatest_score_witness :
  let entry := DDict [skey "participant_count" (DInt 2);
                      skey "health_metrics"
                        (DDict [skey "health_score_avg" (DFloat (7 # 1))])] in
  exists total,
    _generate_residence_insights [(VStr "lar", entry); (VStr "casa", entry)]
    = [DText [Lit "Melhor performance de saúde: "; Fmt (VStr "lar")];
       DText [Lit "Total de "; Fmt (VInt total);
              Lit " participantes distribuídos entre ";
              DNat 2; Lit " residências"]].
Proof.
  cbv zeta.
  destruct (best_residence_is_first_of_greatest_score
              [(VStr "lar",
                DDict [skey "participant_count" (DInt 2);
                       skey "health_metrics"
                         (DDict [skey "health_score_avg" (DFloat (7 # 1))])]);
               (VStr "casa",
                DDict [skey "participant_count" (DInt 2);
                       skey "health_metrics"
                         (DDict [skey "health_score_avg" (DFloat (7 # 1))])])])
    as [best [total [H _]]].
  - simpl. lia.
  - exists total. rewrite H. inversion H. reflexivity.
Defined.

(** ** Group sizes *)

Lemma sum_Z_app (a b : list Z) : sum_Z (a ++ b) = sum_Z a + sum_Z b.
Proof.
  unfold sum_Z. induction a as [|x a IH]; cbn [app fold_right]; [lia|].
  rewrite IH. lia.
Qed.

Lemma group_sizes_sum {A} (g : vmap (list A)) :
  sum_Z (group_sizes g) = Z.of_nat (List.length (List.concat (map snd g))).
Proof.
  unfold group_sizes, sum_Z.
  induction g as [|[k l] g IH]; cbn [map fold_right List.concat snd];
    [reflexivity|].
  rewrite IH, length_app. lia.
Qed.

Lemma group_by_sizes {A} (key : A -> value) (xs : list A) :
  sum_Z (group_sizes (group_by key xs)) = Z.of_nat (List.length xs).
Proof.
  rewrite group_sizes_sum. f_equal.
  apply Permutation_length, group_by_perm.
Qed.

Lemma Qred_inject_Z (z : Z) : Qred (inject_Z z) = inject_Z z.
Proof.
  unfold Qred, inject_Z.
  pose proof (Z.ggcd_gcd z 1) as Hg.
  pose proof (Z.ggcd_correct_divisors z 1) as Hd.
  destruct (Z.ggcd z 1) as [g [aa bb]]. cbn [fst snd] in *.
  rewrite Z.gcd_1_r in Hg. subst g. destruct Hd as [Ha Hb].
  replace aa with z by lia. replace bb with 1 by lia. reflexivity.
Qed.

Lemma fadd_inject_Z (a b : Z) :
  fadd (inject_Z a) (inject_Z b) = inject_Z (a + b).
Proof.
  unfold fadd. rewrite <- (Qred_inject_Z (a + b)). apply Qred_complete.
  rewrite inject_Z_plus. reflexivity.
Qed.

Lemma fsum_inject_Z (zs : list Z) :
  fsum (map inject_Z zs) = inject_Z (sum_Z zs).
Proof.
  unfold fsum.
  assert (H : forall a, fold_left fadd (map inject_Z zs) (inject_Z a)
                        = inject_Z (a + sum_Z zs)).
  { induction zs as [|z zs IH]; intros a; cbn [map fold_left sum_Z fold_right].
    - now rewrite Z.add_0_r.
    - rewrite fadd_inject_Z, IH. unfold sum_Z. f_equal. lia. }
  apply (H 0).
Qed.

Lemma py_int_inject_Z (z : Z) : py_int (inject_Z z) = z.
Proof. unfold py_int, inject_Z. cbn [Qnum Qden]. apply Z.quot_1_r. Qed.

(** ** The residence comparison, entry by entry *)

Lemma comparison_fold (h : list dict) (groups : vmap (list ref)) :
  forall (acc comparison : vmap doc),
    distinct_keys groups ->
    (forall k l, In (k, l) groups -> vmap_get k acc = None) ->
    comparison_loop h groups acc = Ok comparison ->
    exists entries,
      comparison = acc ++ entries /\
      map fst entries = map fst groups /\
      participant_counts entries = group_sizes groups.
Proof.
  induction groups as [|[k refs] groups IH]; intros acc comparison Hd Hacc.
  - cbn [comparison_loop]. intros E. inversion E; subst.
    exists []. now rewrite app_nil_r.
  - cbn [comparison_loop].
    destruct (_calculate_residence_metrics _) as [m|]; cbn [obind];
      [|discriminate].
    destruct (_analyze_residence_demographics _) as [g|]; cbn [obind];
      [|discriminate].
    unfold vmap_set. rewrite vmap_upd_fresh by (apply (Hacc k refs); now left).
    destruct Hd as [Hk Hd]. intros E.
    apply IH in E; [|exact Hd|].
    + destruct E as [entries [E1 [E2 E3]]].
      eexists (_ :: entries). split; [|split].
      * rewrite E1, <- app_assoc. reflexivity.
      * cbn [map fst]. now rewrite E2.
      * unfold participant_counts, group_sizes in *. cbn [map snd].
        rewrite E3, length_map. reflexivity.
    + intros k' l' Hin. rewrite vmap_get_app.
      rewrite (Hacc k' l') by now right.
      cbn [vmap_get]. now rewrite (Hk k' l' Hin).
Qed.

Lemma participant_count_of_int (e : doc) (z : Z) :
  doc_get "participant_count" e = Some (DVal (VInt z)) ->
  participant_count_of e = inject_Z z /\ doc_int "participant_count" e = z.
Proof.
  intros H. unfold participant_count_of, doc_get_or, doc_int.
  now rewrite H.
Qed.

Lemma comparison_fold_counts (h : list dict) (groups : vmap (list ref)) :
  forall (acc comparison : vmap doc),
    comparison_loop h groups acc = Ok comparison ->
    map (fun kv => participant_count_of (snd kv)) acc
      = map inject_Z (participant_counts acc) ->
    map (fun kv => participant_count_of (snd kv)) comparison
      = map inject_Z (participant_counts comparison).
Proof.
  induction groups as [|[k refs] groups IH]; intros acc comparison.
  - cbn [comparison_loop]. intros E. now inversion E.
  - cbn [comparison_loop].
    destruct (_calculate_residence_metrics _) as [m|]; cbn [obind];
      [|discriminate].
    destruct (_analyze_residence_demographics _) as [g|]; cbn [obind];
      [|discriminate].
    intros E Hacc. apply IH in E; [exact E|]. clear E IH.
    unfold vmap_set, participant_counts in *.
    induction acc as [|[k' e'] acc IHa]; cbn [vmap_upd map snd].
    + reflexivity.
    + cbn [map snd] in Hacc. inversion Hacc as [[H1 H2]].
      destruct (value_eqb k k'); cbn [map snd].
      * rewrite H2. f_equal.
      * rewrite H1. f_equal. now apply IHa.
Qed.

(** X10. When the residence analysis returns, the comparison has one entry
    for each residence group, in the order of the groups, and
    "total_residences" is their number; the participant counts of the
    entries add up to the number of records; and with two residences or
    more, the second insight states that number of records and the number
    of residences. *)
Theorem residence_counts_add_up_to_the_records :
  forall (s : state) (d : doc),
    self_data s <> [] ->
    fst (analyze_residence_comparison s) = Ok d ->
    let groups :=
      group_by (fun r => residence_key (deref (heap s) r)) (self_data s) in
    exists comparison,
      doc_get "comparison" d = Some (DDict comparison) /\
      map fst comparison = map fst groups /\
      doc_get "total_residences" d = Some (DInt (List.length comparison)) /\
      sum_Z (participant_counts comparison)
        = Z.of_nat (List.length (self_data s)) /\
      ((2 <= List.length comparison)%nat ->
       exists best,
         doc_get "insights" d =
         Some (DList
           [DText [Lit "Melhor performance de saúde: "; Fmt best];
            DText [Lit "Total de ";
                   Fmt (VInt (Z.of_nat (List.length (self_data s))));
                   Lit " participantes distribuídos entre ";
                   DNat (List.length comparison); Lit " residências"]])).
Proof.
  intros s d Hne. unfold analyze_residence_comparison, reads. cbn [fst].
  destruct (self_data s) as [|r0 rest] eqn:Hdata; [contradiction|].
  cbv beta iota. rewrite <- Hdata.
  set (groups := group_by (fun r => residence_key (deref (heap s) r))
                          (self_data s)).
  destruct (comparison_loop (heap s) groups []) as [comparison|] eqn:E;
    cbn [obind]; [|discriminate].
  intros Hd. inversion Hd; subst d. clear Hd. cbv zeta.
  pose proof (comparison_fold_counts _ _ _ _ E eq_refl) as Hq.
  apply comparison_fold in E.
  - destruct E as [entries [E1 [E2 E3]]]. cbn [app] in E1. subst entries.
    assert (Hlen : List.length comparison = List.length groups).
    { rewrite <- (length_map fst comparison), E2. apply length_map. }
    assert (Hsum : sum_Z (participant_counts comparison)
                   = Z.of_nat (List.length (self_data s))).
    { rewrite E3. apply group_by_sizes. }
    exists comparison. split; [reflexivity|]. split; [exact E2|].
    split; [now rewrite Hlen|]. split; [exact Hsum|].
    intros H2.
    set (best := match max_by (score_in comparison) (map fst comparison) with
                 | Some k => k
                 | None => VNone
                 end).
    exists best.
    change (Some (DList (_generate_residence_insights comparison)) = Some
      (DList
         [DText [Lit "Melhor performance de saúde: "; Fmt best];
          DText [Lit "Total de ";
                 Fmt (VInt (Z.of_nat (List.length (self_data s))));
                 Lit " participantes distribuídos entre ";
                 DNat (List.length comparison); Lit " residências"]])).
    unfold _generate_residence_insights.
    destruct (Nat.ltb_spec 1 (List.length comparison)); [|lia].
    rewrite Hq, fsum_inject_Z, py_int_inject_Z, Hsum. reflexivity.
  - apply group_by_groups.
  - reflexivity.
Qed.

(** Three records in two residences. *)
Lemma residence_counts_add_up_to_the_records_witness :
  exists d comparison,
    run analyze_residence_comparison
      [[("location", VStr "lar")]; [("location", VStr "casa")];
       [("location", VStr "lar")]] = Ok d /\
    doc_get "comparison" d = Some (DDict comparison) /\
    map fst comparison = [VStr "lar"; VStr "casa"] /\
    sum_Z (participant_counts comparison) = 3.
Proof.
  eexists.
  destruct (residence_counts_add_up_to_the_records
              (engine_of [[("location", VStr "lar")];
                          [("location", VStr "casa")];
                          [("location", VStr "lar")]]) _
              ltac:(discriminate) eq_refl)
    as [comparison [H1 [H2 [_ [H3 _]]]]].
  exists comparison. split; [reflexivity|]. split; [exact H1|].
  split; [exact H2 | exact H3].
Defined.

(** ** The date range *)

Lemma py_min_cases (rest : list timestamp) :
  forall best,
    if forallb (fun u => Bool.eqb (aware u) (aware best)) rest
    then exists lo,
           py_min best rest = Ok lo /\ In lo (best :: rest) /\
           forall t, In t (best :: rest) -> instant lo <= instant t
    else py_min best rest = Raise TypeError.
Proof.
  induction rest as [|t rest IH]; intros best; cbn [forallb py_min].
  - exists best. split; [reflexivity|]. split; [now left|].
    intros t [E|[]]. subst. lia.
  - destruct (Bool.eqb (aware t) (aware best)) eqn:E; cbn [andb];
      [|reflexivity].
    apply eqb_prop in E.
    set (b := if instant t <? instant best then t else best).
    assert (Hb : aware b = aware best)
      by (unfold b; destruct (instant t <? instant best); congruence).
    assert (Hle : instant b <= instant t /\ instant b <= instant best)
      by (unfold b; destruct (Z.ltb_spec (instant t) (instant best)); lia).
    assert (Hin : In b [best; t])
      by (unfold b; destruct (instant t <? instant best);
          [right; now left | now left]).
    specialize (IH b). rewrite Hb in IH.
    destruct (forallb (fun u => Bool.eqb (aware u) (aware best)) rest);
      [|exact IH].
    destruct IH as [lo [Hlo [Hmem Hmin]]]. exists lo.
    split; [exact Hlo|]. split.
    + destruct Hmem as [Hmem|Hmem]; [|right; now right].
      subst lo. destruct Hin as [Hin|[Hin|[]]]; rewrite <- Hin;
        [now left | right; now left].
    + intros u [Hu|[Hu|Hu]].
      * subst u. specialize (Hmin b (or_introl eq_refl)). lia.
      * subst u. specialize (Hmin b (or_introl eq_refl)). lia.
      * apply Hmin. now right.
Qed.

Lemma py_max_cases (rest : list timestamp) :
  forall best,
    if forallb (fun u => Bool.eqb (aware u) (aware best)) rest
    then exists hi,
           py_max best rest = Ok hi /\ In hi (best :: rest) /\
           forall t, In t (best :: rest) -> instant t <= instant hi
    else py_max best rest = Raise TypeError.
Proof.
  induction rest as [|t rest IH]; intros best; cbn [forallb py_max].
  - exists best. split; [reflexivity|]. split; [now left|].
    intros t [E|[]]. subst. lia.
  - destruct (Bool.eqb (aware t) (aware best)) eqn:E; cbn [andb];
      [|reflexivity].
    apply eqb_prop in E.
    set (b := if instant best <? instant t then t else best).
    assert (Hb : aware b = aware best)
      by (unfold b; destruct (instant best <? instant t); congruence).
    assert (Hle : instant t <= instant b /\ instant best <= instant b)
      by (unfold b; destruct (Z.ltb_spec (instant best) (instant t)); lia).
    assert (Hin : In b [best; t])
      by (unfold b; destruct (instant best <? instant t);
          [right; now left | now left]).
    specialize (IH b). rewrite Hb in IH.
    destruct (forallb (fun u => Bool.eqb (aware u) (aware best)) rest);
      [|exact IH].
    destruct IH as [hi [Hhi [Hmem Hmax]]]. exists hi.
    split; [exact Hhi|]. split.
    + destruct Hmem as [Hmem|Hmem]; [|right; now right].
      subst hi. destruct Hin as [Hin|[Hin|[]]]; rewrite <- Hin;
        [now left | right; now left].
    + intros u [Hu|[Hu|Hu]].
      * subst u. specialize (Hmax b (or_introl eq_refl)). lia.
      * subst u. specialize (Hmax b (or_introl eq_refl)). lia.
      * apply Hmax. now right.
Qed.

Lemma span_fits_spec (dates : list timestamp) (lo hi : timestamp) :
  In lo dates -> In hi dates ->
  (forall t, In t dates -> instant lo <= instant t <= instant hi) ->
  span_fits dates = (instant hi - instant lo <=? timedelta_max).
Proof.
  intros Hlo Hhi Hall. unfold span_fits.
  destruct (Z.leb_spec (instant hi - instant lo) timedelta_max) as [H|H].
  - apply forallb_forall. intros a Ha. apply forallb_forall. intros b Hb.
    apply Z.leb_le. pose proof (Hall a Ha). pose proof (Hall b Hb). lia.
  - destruct (forallb _ dates) eqn:E; [|reflexivity].
    rewrite forallb_forall in E. specialize (E lo Hlo).
    rewrite forallb_forall in E. specialize (E hi Hhi).
    apply Z.leb_le in E. lia.
Qed.

(** The date range of the records whose dates are comparable. *)
Lemma date_range_of_comparable
  (to_datetime : value -> option timestamp)
  (strftime : timestamp -> string) (records : list dict) :
  let dates := date_values to_datetime records in
  dates <> [] -> comparable dates = true ->
  exists lo hi,
    In lo dates /\ In hi dates /\
    (forall t, In t dates -> instant lo <= instant t <= instant hi) /\
    span_fits dates = (instant hi - instant lo <=? timedelta_max) /\
    _get_date_range to_datetime strftime records =
      if instant hi - instant lo <=? timedelta_max
      then Ok (DDict
             [skey "start_date" (DStr (strftime lo));
              skey "end_date" (DStr (strftime hi));
              skey "duration_days"
                (DVal (VInt ((instant hi - instant lo) / day)))])
      else Raise ValueError.
Proof.
  intros dates Hne Hc. unfold _get_date_range.
  fold (date_values to_datetime records). fold dates.
  destruct dates as [|t ts]; [contradiction|]. cbn [comparable] in Hc.
  pose proof (py_min_cases ts t) as Hmin. rewrite Hc in Hmin.
  pose proof (py_max_cases ts t) as Hmax. rewrite Hc in Hmax.
  destruct Hmin as [lo [Hlo [Hlo_in Hlo_le]]].
  destruct Hmax as [hi [Hhi [Hhi_in Hhi_le]]].
  exists lo, hi. split; [exact Hlo_in|]. split; [exact Hhi_in|].
  assert (Hall : forall u, In u (t :: ts) ->
                   instant lo <= instant u <= instant hi)
    by (intros u Hu; split; [now apply Hlo_le | now apply Hhi_le]).
  split; [exact Hall|].
  split; [now apply span_fits_spec|].
  rewrite Hlo, Hhi. cbn [obind]. unfold days_between.
  destruct (instant hi - instant lo <=? timedelta_max); reflexivity.
Qed.

(** [_get_date_range] returns exactly on the dates that are comparable
    and within the span of a [Timedelta]. *)
Lemma date_range_outcome (to_datetime : value -> option timestamp)
  (strftime : timestamp -> string) (records : list dict) :
  if date_range_returns (date_values to_datetime records)
  then exists d, _get_date_range to_datetime strftime records = Ok d
  else exists e, _get_date_range to_datetime strftime records = Raise e.
Proof.
  unfold date_range_returns.
  destruct (date_values to_datetime records) as [|t ts] eqn:E.
  - unfold _get_date_range. fold (date_values to_datetime records).
    rewrite E. cbn. eauto.
  - destruct (comparable (t :: ts)) eqn:Hc; cbn [andb].
    + destruct (date_range_of_comparable to_datetime strftime records)
        as [lo [hi [_ [_ [_ [Hs H]]]]]];
        [rewrite E; discriminate | now rewrite E |].
      rewrite E in Hs. rewrite Hs, H.
      destruct (instant hi - instant lo <=? timedelta_max); eauto.
    + unfold _get_date_range. fold (date_values to_datetime records).
      rewrite E. cbn [comparable] in Hc.
      pose proof (py_min_cases ts t) as Hmin. rewrite Hc in Hmin.
      rewrite Hmin. cbn. eauto.
Qed.

(** X14. The date range of a group of records.  The dates taken are those
    that [to_datetime] reads in the truthy values of the fields whose name
    holds "date", in any case.  With no such date, the start and the end
    are [None] and the duration is 0.  With dates of which some have a time
    zone and some have none, the date range raises [TypeError].  Otherwise
    there are an earliest and a latest of those dates; when they are
    further apart than the greatest [Timedelta], the date range raises
    [ValueError]; when they are not, the start and the end are their texts
    and the duration is the whole number of days between the two, never
    negative. *)
Theorem date_range_spans_the_dates :
  forall (to_datetime : value -> option timestamp)
         (strftime : timestamp -> string) (records : list dict),
    let dates := date_values to_datetime records in
    (forall t,
       In t dates <->
       exists record k v,
         In record records /\ In (k, v) record /\
         contains "date" (lower k) = true /\ truthy v = true /\
         to_datetime v = Some t) /\
    (dates = [] ->
     _get_date_range to_datetime strftime records
     = Ok (DDict [skey "start_date" (DVal VNone);
                  skey "end_date" (DVal VNone);
                  skey "duration_days" (DVal (VInt 0))])) /\
    (comparable dates = false ->
     _get_date_range to_datetime strftime records = Raise TypeError) /\
    (dates <> [] -> comparable dates = true ->
     exists lo hi,
       In lo dates /\ In hi dates /\
       (forall t, In t dates -> instant lo <= instant t <= instant hi) /\
       0 <= (instant hi - instant lo) / day /\
       _get_date_range to_datetime strftime records
       = if instant hi - instant lo <=? timedelta_max
         then Ok (DDict
                [skey "start_date" (DStr (strftime lo));
                 skey "end_date" (DStr (strftime hi));
                 skey "duration_days"
                   (DVal (VInt ((instant hi - instant lo) / day)))])
         else Raise ValueError).
Proof.
  intros to_datetime strftime records dates. split; [|split; [|split]].
  - intros t. unfold dates, date_values. rewrite in_flat_map. split.
    + intros [record [Hr Ht]]. apply in_flat_map in Ht as [[k v] [Hkv Ht]].
      cbn [fst snd] in Ht.
      destruct (contains "date" (lower k)) eqn:Ec; [|contradiction].
      destruct (truthy v) eqn:Ev; [|contradiction]. cbn [andb] in Ht.
      destruct (to_datetime v) as [t'|] eqn:Et; [|contradiction].
      destruct Ht as [Ht|[]]. subst t'.
      exists record, k, v. repeat split; assumption.
    + intros [record [k [v [Hr [Hkv [Ec [Ev Et]]]]]]].
      exists record. split; [exact Hr|]. apply in_flat_map.
      exists (k, v). split; [exact Hkv|]. cbn [fst snd].
      rewrite Ec, Ev, Et. now left.
  - intros E. unfold _get_date_range. fold (date_values to_datetime records).
    fold dates. now rewrite E.
  - intros Hc. unfold _get_date_range.
    fold (date_values to_datetime records). fold dates.
    destruct dates as [|t ts]; [discriminate Hc|]. cbn [comparable] in Hc.
    pose proof (py_min_cases ts t) as Hmin. rewrite Hc in Hmin.
    now rewrite Hmin.
  - intros Hne Hc.
    destruct (date_range_of_comparable to_datetime strftime records Hne Hc)
      as [lo [hi [Hlo [Hhi [Hall [_ H]]]]]].
    exists lo, hi. split; [exact Hlo|]. split; [exact Hhi|].
    split; [exact Hall|]. split; [|exact H].
    apply Z.div_pos; [|unfold day; lia].
    specialize (Hall lo Hlo). lia.
Qed.

(** Two visits three days apart, in fields named in different cases; a
    date with a time zone next to one without; and two dates three
    centuries apart. *)
Lemma date_range_spans_the_dates_witness :
  let records := [[("Visit_Date", VInt (5 * day)); ("age", VInt 70)];
                  [("date_of_visit", VInt (2 * day))]] in
  map instant (date_values int_dates records) = [5 * day; 2 * day] /\
  (exists d,
     _get_date_range int_dates no_text records = Ok d /\
     doc_get "duration_days" d = Some (DVal (VInt 3))) /\
  _get_date_range zoned_dates no_text
    [[("date", VInt day)]; [("date", VStr "UTC")]] = Raise TypeError /\
  _get_date_range int_dates no_text
    [[("date", VInt day)]; [("date", VInt (110000 * day))]]
    = Raise ValueError.
Proof.
  cbv zeta. split; [reflexivity|]. split; [|split].
  - destruct (date_range_spans_the_dates int_dates no_text
                [[("Visit_Date", VInt (5 * day)); ("age", VInt 70)];
                 [("date_of_visit", VInt (2 * day))]])
      as [_ [_ [_ H]]].
    destruct H as [lo [hi [Hlo [Hhi [Hall [_ H]]]]]];
      [discriminate | reflexivity |].
    rewrite H. clear H.
    pose proof (Hall _ (or_introl eq_refl)) as H1.
    pose proof (Hall _ (or_intror (or_introl eq_refl))) as H2.
    vm_compute in Hlo, Hhi.
    destruct Hlo as [Hlo|[Hlo|[]]]; destruct Hhi as [Hhi|[Hhi|[]]];
      subst lo hi;
      first [ eexists; split; reflexivity
            | exfalso; cbn [instant] in *; unfold day in *; lia ].
  - apply (date_range_spans_the_dates zoned_dates no_text
             [[("date", VInt day)]; [("date", VStr "UTC")]]).
    reflexivity.
  - destruct (date_range_spans_the_dates int_dates no_text
                [[("date", VInt day)]; [("date", VInt (110000 * day))]])
      as [_ [_ [_ H]]].
    destruct H as [lo [hi [Hlo [Hhi [Hall [_ H]]]]]];
      [discriminate | reflexivity |].
    rewrite H. clear H.
    pose proof (Hall _ (or_introl eq_refl)) as H1.
    pose proof (Hall _ (or_intror (or_introl eq_refl))) as H2.
    vm_compute in Hlo, Hhi.
    destruct Hlo as [Hlo|[Hlo|[]]]; destruct Hhi as [Hhi|[Hhi|[]]];
      subst lo hi;
      first [ reflexivity
            | exfalso; cbn [instant] in *; unfold day in *; lia ].
Defined.

(** ** The longitudinal analysis, participant by participant *)

Lemma omap_all_ok {A B} (f : A -> outcome B) (g : A -> B) (l : list A) :
  (forall x, In x l -> f x = Ok (g x)) -> omap f l = Ok (map g l).
Proof.
  induction l as [|x l IH]; intros H; cbn [omap map]; [reflexivity|].
  rewrite (H x (or_introl eq_refl)), IH; [reflexivity|].
  intros y Hy. apply H. now right.
Qed.

Lemma omap_some_raise {A B} (f : A -> outcome B) (l : list A) :
  forallb (fun x => is_ok (f x)) l = false -> exists e, omap f l = Raise e.
Proof.
  induction l as [|x l IH]; cbn [forallb omap]; [discriminate|].
  destruct (f x) as [y|e]; cbn [is_ok andb obind]; [|eauto].
  intros H. destruct (IH H) as [e He]. rewrite He. cbn. eauto.
Qed.

(** The longitudinal document, when the date range of every participant
    group returns. *)
Lemma longitudinal_document (order : list string -> list string)
  (to_datetime : value -> option timestamp)
  (strftime : timestamp -> string) (s : state) :
  self_data s <> [] ->
  let groups :=
    group_by (fun r => participant_key (deref (heap s) r)) (self_data s) in
  date_ranges_return to_datetime (heap s) groups = true ->
  fst (analyze_longitudinal_data order to_datetime strftime s)
  = Ok (DDict
      [skey "total_participants" (DInt (List.length groups));
       skey "participants"
         (DList (map (participant_entry order to_datetime strftime (heap s))
                   groups))]).
Proof.
  intros Hne groups Hret. subst groups.
  unfold analyze_longitudinal_data, reads. cbn [fst].
  destruct (self_data s) as [|r0 rest] eqn:Hdata; [contradiction|].
  cbv beta iota. rewrite <- Hdata in *.
  rewrite (omap_all_ok _
             (participant_entry order to_datetime strftime (heap s)));
    [reflexivity|].
  intros g Hg. unfold date_ranges_return in Hret.
  rewrite forallb_forall in Hret. specialize (Hret g Hg).
  pose proof (date_range_outcome to_datetime strftime
                (map (deref (heap s)) (snd g))) as H.
  rewrite Hret in H. destruct H as [d Hd].
  unfold participant_entry. cbv zeta. now rewrite Hd.
Qed.

Lemma longitudinal_raises (order : list string -> list string)
  (to_datetime : value -> option timestamp)
  (strftime : timestamp -> string) (s : state) :
  let groups :=
    group_by (fun r => participant_key (deref (heap s) r)) (self_data s) in
  date_ranges_return to_datetime (heap s) groups = false ->
  exists e,
    fst (analyze_longitudinal_data order to_datetime strftime s) = Raise e.
Proof.
  intros groups Hret. subst groups.
  unfold analyze_longitudinal_data, reads. cbn [fst].
  destruct (self_data s) as [|r0 rest] eqn:Hdata; [discriminate Hret|].
  - cbv beta iota. rewrite <- Hdata in *.
    match goal with
    | |- exists e, obind (omap ?f ?groups) _ = _ =>
        destruct (omap_some_raise f groups) as [e He]
    end.
    + unfold date_ranges_return in Hret. rewrite <- Hret.
      apply forallb_pointwise. intros g.
      pose proof (date_range_outcome to_datetime strftime
                    (map (deref (heap s)) (snd g))) as H.
      destruct (date_range_returns _).
      * destruct H as [d Hd]. now rewrite Hd.
      * destruct H as [e Hd]. now rewrite Hd.
    + rewrite He. cbn. eauto.
Qed.

(** X11. On a non-empty collection, the longitudinal analysis returns
    exactly when the date range of every participant group does, that is
    when the dates of a group are comparable and no further apart than the
    greatest [Timedelta].  Its document then lists one participant for each
    participant group, in the order of the groups, under the group's key as
    "id"; "total_participants" is the length of that list; every
    participant has at least one record, and the "total_records" of the
    participants add up to the number of records. *)
Theorem longitudinal_records_add_up :
  forall order to_datetime strftime (s : state),
    self_data s <> [] ->
    let result :=
      fst (analyze_longitudinal_data order to_datetime strftime s) in
    let groups :=
      group_by (fun r => participant_key (deref (heap s) r)) (self_data s) in
    (date_ranges_return to_datetime (heap s) groups = true ->
     exists participants,
       doc_at ["participants"] result = Some (DList participants) /\
       doc_at ["total_participants"] result
         = Some (DInt (List.length participants)) /\
       map (doc_get "id") participants
         = map (fun g => Some (DVal (fst g))) groups /\
       (forall p, In p participants -> 1 <= doc_int "total_records" p) /\
       sum_Z (map (doc_int "total_records") participants)
         = Z.of_nat (List.length (self_data s))) /\
    (date_ranges_return to_datetime (heap s) groups = false ->
     exists e, result = Raise e).
Proof.
  intros order to_datetime strftime s Hne. cbv zeta.
  split; [|apply longitudinal_raises].
  intros Hret.
  rewrite (longitudinal_document order to_datetime strftime s Hne Hret).
  set (groups := group_by (fun r => participant_key (deref (heap s) r))
                          (self_data s)).
  eexists. split; [reflexivity|].
  split; [now rewrite length_map|]. split; [|split].
  - rewrite map_map. reflexivity.
  - intros p Hp. apply in_map_iff in Hp as [[k l] [Hp Hin]]. subst p.
    destruct (group_by_groups
                (fun r => participant_key (deref (heap s) r)) (self_data s))
      as [_ [Hg _]].
    destruct (Hg k l Hin) as [Hl _].
    unfold participant_entry, doc_int, doc_get, skey, DInt. cbn.
    rewrite length_map. destruct l; [contradiction|]. cbn. lia.
  - rewrite map_map.
    rewrite <- (group_by_sizes
                  (fun r => participant_key (deref (heap s) r))
                  (self_data s)).
    fold groups. unfold group_sizes. f_equal. apply map_ext.
    intros [k l]. unfold participant_entry, doc_int, doc_get, skey, DInt.
    cbn. now rewrite length_map.
Qed.

(** Three records of two participants; and a participant whose dates
    cannot be compared. *)
Lemma longitudinal_records_add_up_witness :
  (exists participants,
     doc_at ["participants"]
       (run (analyze_longitudinal_data discovery_order int_dates no_text)
          [[("participant_id", VStr "P1"); ("date", VInt 7)];
           [("participant_id", VStr "P2")];
           [("participant_id", VStr "P1")]]) = Some (DList participants) /\
     map (doc_int "total_records") participants = [2; 1]) /\
  (exists e,
     run (analyze_longitudinal_data discovery_order zoned_dates no_text)
       [[("participant_id", VStr "P1"); ("date", VInt 7)];
        [("participant_id", VStr "P2")];
        [("participant_id", VStr "P1"); ("date", VStr "UTC")]] = Raise e).
Proof.
  split.
  - destruct (longitudinal_records_add_up discovery_order int_dates no_text
                (engine_of [[("participant_id", VStr "P1"); ("date", VInt 7)];
                            [("participant_id", VStr "P2")];
                            [("participant_id", VStr "P1")]]))
      as [H _].
    + discriminate.
    + destruct H as [participants [H1 _]]; [reflexivity|].
      exists participants. split; [exact H1|].
      inversion H1. reflexivity.
  - apply (longitudinal_records_add_up discovery_order zoned_dates no_text
             (engine_of [[("participant_id", VStr "P1"); ("date", VInt 7)];
                         [("participant_id", VStr "P2")];
                         [("participant_id", VStr "P1");
                          ("date", VStr "UTC")]])).
    + discriminate.
    + reflexivity.
Defined.

(** ** Groups as a map, and their order *)

Lemma vmap_upd_keys_grow {A} (k : value) (d : A) (f : A -> A) (m : vmap A) :
  exists more, map fst (vmap_upd k d f m) = map fst m ++ more.
Proof.
  induction m as [|[k' a] m [more IH]]; cbn [vmap_upd].
  - exists [k]. reflexivity.
  - destruct (value_eqb k k'); cbn [map fst].
    + exists []. now rewrite app_nil_r.
    + exists more. now rewrite IH.
Qed.

Lemma group_by_app {A} (key : A -> value) (xs ys : list A) :
  group_by key (xs ++ ys)
  = fold_left (add_to_group key) ys (group_by key xs).
Proof. unfold group_by. now rewrite fold_left_app. Qed.

Lemma group_lookup {A} (key : A -> value) (xs : list A) (k : value) :
  vmap_get k (group_by key xs) =
  match filter (fun x => value_eqb (key x) k) xs with
  | [] => None
  | l => Some l
  end.
Proof.
  induction xs as [|x xs IH] using rev_ind; [reflexivity|].
  rewrite group_by_snoc. unfold add_to_group.
  rewrite vmap_get_upd, filter_app. cbn [filter].
  rewrite (value_eqb_sym k (key x)).
  destruct (value_eqb (key x) k) eqn:E.
  - rewrite (vmap_get_congr (key x) k _ E), IH.
    destruct (filter (fun x0 => value_eqb (key x0) k) xs); reflexivity.
  - now rewrite IH, app_nil_r.
Qed.

(** X12. The groups made by the grouping loop, read as a map: the group
    under a key is the list, in input order, of the records whose key is
    that key as Python compares keys, and there is no group under a key
    that no record has.  The groups stand in the order in which their keys
    first appear: grouping more records after the same ones keeps the keys
    already there, in place, and only adds keys after them. *)
Theorem groups_are_looked_up_by_key_and_keep_their_order :
  forall (h : list dict) (resolve : dict -> value) (data more : list ref),
    let key := fun r => resolve (deref h r) in
    (forall k,
       vmap_get k (group_by key data) =
       match filter (fun r => value_eqb (key r) k) data with
       | [] => None
       | l => Some l
       end) /\
    exists added,
      map fst (group_by key (data ++ more))
      = map fst (group_by key data) ++ added.
Proof.
  intros h resolve data more key. split; [intros k; apply group_lookup|].
  rewrite group_by_app. generalize (group_by key data) as g.
  induction more as [|x more IH]; intros g; cbn [fold_left].
  - exists []. now rewrite app_nil_r.
  - destruct (IH (add_to_group key g x)) as [added1 H1].
    destruct (vmap_upd_keys_grow (key x) [] (fun l => l ++ [x]) g)
      as [added0 H0].
    exists (added0 ++ added1).
    change (vmap_upd (key x) [] (fun l => l ++ [x]) g)
      with (add_to_group key g x) in H0.
    now rewrite H1, H0, app_assoc.
Qed.

(** ** Risks and recommendations *)

Lemma count_where_filter {A} (p : A -> outcome bool) (l : list A) (n : nat) :
  count_where p l = Ok n ->
  n = List.length (filter (fun x => holds (p x)) l).
Proof.
  revert n. induction l as [|x l IH]; cbn [count_where filter]; intros n.
  - intros E. now inversion E.
  - destruct (p x) as [b|]; cbn [obind holds]; [|discriminate].
    destruct (count_where p l) as [m|]; cbn [obind]; [|discriminate].
    intros E. inversion E; subst n. rewrite (IH m eq_refl).
    destruct b; reflexivity.
Qed.

(** X13. When they return, the recommendations are the three fixed ones,
    followed by one more exactly when some record has an adherence score
    below 80, which names the number of such records; a record without a
    score counts as 100 and never adds it.  The risks are at most two
    sentences: one with the number of records whose missed doses are above
    0, if there are any, then one with the number of records with a truthy
    "side_effects", if there are any. *)
Theorem recommendations_and_risks_follow_the_counts :
  forall (data : list dict),
    (forall recommendations,
       _generate_adherence_recommendations data = Ok recommendations ->
       let low := List.length (filter low_adherence data) in
       recommendations =
         base_recommendations ++
         (if (0 <? low)%nat
          then [DText [Lit "Foco especial em "; DNat low;
                       Lit " participantes com baixa adesão"]]
          else [])) /\
    (forall r, dict_mem "adherence_score" r = false ->
       low_adherence r = false) /\
    (forall risks,
       _identify_adherence_risks data = Ok risks ->
       let missed := List.length (filter missed_doses data) in
       let effects :=
         List.length (filter (fun r => truthy (get "side_effects" r)) data) in
       risks =
         (if (0 <? missed)%nat
          then [DText [DNat missed; Lit " participantes com doses perdidas"]]
          else []) ++
         (if (0 <? effects)%nat
          then [DText [DNat effects;
                       Lit " participantes relataram efeitos colaterais"]]
          else [])).
Proof.
  intros data. split; [|split].
  - intros recs. unfold _generate_adherence_recommendations.
    destruct data as [|r0 rest] eqn:E.
    + intros H. inversion H. reflexivity.
    + rewrite <- E.
      destruct (count_where _ data) as [n|] eqn:Hn; cbn [obind];
        [|discriminate].
      apply count_where_filter in Hn. intros H. inversion H.
      cbv zeta. fold low_adherence in Hn. now rewrite <- Hn.
  - intros r Hr. unfold low_adherence, get_or.
    now rewrite (dict_get_not_mem _ _ Hr).
  - intros risks. unfold _identify_adherence_risks.
    destruct (count_where _ data) as [n|] eqn:Hn; cbn [obind];
      [|discriminate].
    apply count_where_filter in Hn. intros H. inversion H.
    cbv zeta. fold missed_doses in Hn. now rewrite <- Hn.
Qed.

(** Scores of 70 and 90 and a record without a score. *)
Lemma recommendations_and_risks_follow_the_counts_witness :
  exists recommendations,
    _generate_adherence_recommendations
      [[("adherence_score", VInt 70)]; [("adherence_score", VInt 90)];
       [("side_effects", VStr "nausea")]] = Ok recommendations /\
    recommendations =
      base_recommendations ++
      [DText [Lit "Foco especial em "; DNat 1;
              Lit " participantes com baixa adesão"]].
Proof.
  destruct (recommendations_and_risks_follow_the_counts
              [[("adherence_score", VInt 70)]; [("adherence_score", VInt 90)];
               [("side_effects", VStr "nausea")]]) as [H _].
  eexists. split; [reflexivity|].
  refine (eq_trans (H _ eq_refl) _). reflexivity.
Defined.

(** ** Counting participants *)

Lemma vmap_upd_keys_same {A B} (k : value) (d : A) (f : A -> A)
  (d' : B) (f' : B -> B) (m : vmap A) :
  forall (m' : vmap B),
    map fst m = map fst m' ->
    map fst (vmap_upd k d f m) = map fst (vmap_upd k d' f' m').
Proof.
  induction m as [|[k0 a] m IH]; intros [|[k1 b] m'] H;
    try discriminate H; cbn [vmap_upd map fst]; [reflexivity|].
  cbn [map fst] in H. inversion H as [[H0 H1]]. subst k1.
  destruct (value_eqb k k0); cbn [map fst]; f_equal; auto.
Qed.

Lemma group_keys_counter {A} (key : A -> value) (xs : list A) :
  map fst (group_by key xs) = map fst (Counter (map key xs)).
Proof.
  induction xs as [|x xs IH] using rev_ind; [reflexivity|].
  rewrite group_by_snoc, map_app. cbn [map]. rewrite Counter_snoc.
  unfold add_to_group. now apply vmap_upd_keys_same.
Qed.

Lemma group_count_le {A} (key : A -> value) (xs : list A) :
  (List.length (group_by key xs) <= List.length xs)%nat.
Proof.
  induction xs as [|x xs IH] using rev_ind; [cbn; lia|].
  rewrite group_by_snoc, length_app. cbn [List.length].
  unfold add_to_group.
  assert (H : forall g : vmap (list A),
             (List.length (vmap_upd (key x) [] (fun l => l ++ [x]) g)
              <= S (List.length g))%nat).
  { induction g as [|[k l] g IHg]; cbn [vmap_upd]; [cbn; lia|].
    destruct (value_eqb (key x) k); cbn [List.length]; lia. }
  specialize (H (group_by key xs)). lia.
Qed.

(** X15. On a non-empty collection of records whose texts are ASCII and
    whose ints the interpreter prints, and where no truthy value of a
    utilization field is an [int] beyond the range of a [float],
    "total_participants" of the utilization analysis is the number of
    distinct participants, as Python compares keys, where the participant
    of a record is its "participant_id", else its "record_id", else [None];
    that number is at least 1 and at most the number of records.  When
    every record has a "participant_id" or a "record_id" and the date range
    of every participant group returns, it is the "total_participants" of
    the longitudinal analysis. *)
Theorem utilization_counts_distinct_participants :
  forall order to_datetime strftime (s : state),
    self_data s <> [] ->
    let records := map (deref (heap s)) (self_data s) in
    printable_records records = true ->
    let total := List.length (group_by participant_or_none records) in
    (overflows records = false ->
     doc_at ["total_participants"] (fst (analyze_healthcare_utilization s))
       = Some (DInt total)) /\
    (1 <= total <= List.length records)%nat /\
    ((forall r, In r records ->
        (dict_mem "participant_id" r || dict_mem "record_id" r)%bool = true) ->
     date_ranges_return to_datetime (heap s)
       (group_by (fun r => participant_key (deref (heap s) r)) (self_data s))
       = true ->
     doc_at ["total_participants"]
       (fst (analyze_longitudinal_data order to_datetime strftime s))
     = Some (DInt total)).
Proof.
  intros order to_datetime strftime s Hne. cbv zeta. intros _.
  remember (map (deref (heap s)) (self_data s)) as records eqn:Hrec.
  assert (Htotal : count_distinct (map participant_or_none records)
                   = List.length (group_by participant_or_none records)).
  { unfold count_distinct.
    rewrite <- (length_map fst (Counter _)), <- group_keys_counter.
    apply length_map. }
  split; [|split].
  - intros Hbig. unfold analyze_healthcare_utilization, reads. cbn [fst].
    destruct (self_data s) as [|r0 rest] eqn:Hdata; [contradiction|].
    cbv beta iota. rewrite <- Hrec.
    pose proof (utilization_loop_outcome healthcare_fields records []) as H.
    unfold overflows in Hbig. rewrite Hbig in H.
    destruct H as [st E]. rewrite E. cbn [obind].
    change (Some (DInt (count_distinct (map participant_or_none records)))
            = Some (DInt (List.length
                            (group_by participant_or_none records)))).
    now rewrite Htotal.
  - split; [|apply group_count_le].
    destruct (self_data s) as [|r0 rest]; [contradiction|].
    cbn [map] in Hrec.
    destruct (group_by_groups participant_or_none records) as [_ [_ Hc]].
    destruct (Hc (deref (heap s) r0)) as [k [l [Hin _]]];
      [rewrite Hrec; now left|].
    destruct (group_by participant_or_none records);
      [contradiction | cbn; lia].
  - intros Hid Hret.
    rewrite (longitudinal_document order to_datetime strftime s Hne Hret).
    assert (Hlen : List.length
                     (group_by (fun r => participant_key (deref (heap s) r))
                        (self_data s))
                   = List.length (group_by participant_or_none records)).
    { rewrite <- (length_map fst (group_by _ (self_data s))),
        <- (length_map fst (group_by _ records)).
      rewrite !group_keys_counter. subst records. rewrite !map_map.
      do 3 f_equal. apply map_ext_in. intros r Hr.
      specialize (Hid (deref (heap s) r) (in_map _ _ _ Hr)).
      unfold participant_key, participant_or_none, get, get_or, dict_mem in *.
      destruct (dict_get "participant_id" (deref (heap s) r)); [reflexivity|].
      destruct (dict_get "record_id" (deref (heap s) r));
        [reflexivity | discriminate Hid]. }
    change (Some (DInt (List.length
                          (group_by
                             (fun r => participant_key (deref (heap s) r))
                             (self_data s))))
            = Some (DInt (List.length
                            (group_by participant_or_none records)))).
    now rewrite Hlen.
Qed.

(** Three records of two participants, one known by its record id. *)
Lemma utilization_counts_distinct_participants_witness :
  let records := [[("participant_id", VStr "P1")]; [("record_id", VStr "R2")];
                  [("participant_id", VStr "P1")]] in
  doc_at ["total_participants"] (run analyze_healthcare_utilization records)
    = Some (DInt 2) /\
  doc_at ["total_participants"]
    (run (analyze_longitudinal_data discovery_order no_dates no_text) records)
    = Some (DInt 2).
Proof.
  cbv zeta.
  destruct (utilization_counts_distinct_participants
              discovery_order no_dates no_text
              (engine_of [[("participant_id", VStr "P1")];
                          [("record_id", VStr "R2")];
                          [("participant_id", VStr "P1")]]))
    as [H1 [_ H2]].
  - discriminate.
  - reflexivity.
  - split; [apply H1; reflexivity|]. apply H2; [|reflexivity].
    intros r [Hr|[Hr|[Hr|[]]]]; subst r; reflexivity.
Defined.

(** ** When the residence analysis returns *)










